(** * Marvis: barcode-to-instructions pipeline and session navigation

    A shallow embedding of the TypeScript sources of the Marvis handyman
    assistant: the barcode token source ([BarcodeService]), the instruction
    resolution pipeline ([processVoiceCommandWithAI] and its helpers) and the
    per-session navigation controller ([EnhancedHandymanAssistant]).

    Conventions of the embedding.
    - A [string] stands for a JavaScript string all of whose UTF-16 code
      units are below 256, one character per code unit (the character of
      code [n] is U+00[n], the Latin-1 range).  On these strings
      [toLowerCase] and [trim] are those of JavaScript.  A string with a
      code unit from 256 on (U+212A, which lower-cases to [k]; U+FEFF,
      which [trim] strips) has no counterpart in the model, and nothing is
      stated about it.
    - [null] and [undefined] are [None]; a value used as a condition goes
      through an explicit truthiness test ([truthy], [hasItems], ...).
    - JavaScript numbers that only ever hold integers are [Z].
    - Names are those of the sources, except that a parameter [barcode] is
      called [code], [barcode] being one of the source tags of a project.
    - External services (Cerebras, SerpAPI, Exa, Anthropic, S3, the display)
      are oracles of a [World]; every call is recorded, with its response,
      in a transcript of [Event]s. *)

From stdpp Require Import gmap strings list fin_maps pretty.
From Stdlib Require Import ZArith Lia Ascii String.

Open Scope string_scope.
Open Scope Z_scope.

(** ** JavaScript string primitives *)

Module JS.

(** Lower case of one code unit below 256: the letters A-Z, and the letters
    U+00C0-U+00DE (the multiplication sign U+00D7 is none) go to the code
    unit 32 above; every other code unit is its own lower case. *)
Definition lowerChar (c : ascii) : ascii :=
  let n := Ascii.nat_of_ascii c in
  if ((Nat.leb 65 n && Nat.leb n 90) ||
      (Nat.leb 192 n && Nat.leb n 222 && negb (Nat.eqb n 215)))%bool
  then Ascii.ascii_of_nat (n + 32) else c.

(** [s.toLowerCase()] *)
Fixpoint toLowerCase (s : string) : string :=
  match s with
  | EmptyString => EmptyString
  | String c s' => String (lowerChar c) (toLowerCase s')
  end.

(** [s.startsWith(p)] *)
Fixpoint startsWith (s p : string) : bool :=
  match p, s with
  | EmptyString, _ => true
  | String _ _, EmptyString => false
  | String a p', String b s' => if Ascii.eqb a b then startsWith s' p' else false
  end.

(** [s.includes(sub)] *)
Fixpoint includes (s sub : string) : bool :=
  startsWith s sub ||
  match s with
  | EmptyString => false
  | String _ s' => includes s' sub
  end.

(** [s.endsWith(suf)] *)
Fixpoint endsWith (s suf : string) : bool :=
  String.eqb s suf ||
  match s with
  | EmptyString => false
  | String _ s' => endsWith s' suf
  end.

(** The white space and line terminators [trim] strips, below 256: TAB,
    LF, VT, FF, CR, SPACE and the no-break space U+00A0. *)
Definition isSpace (c : ascii) : bool :=
  let n := Ascii.nat_of_ascii c in
  (Nat.eqb n 32 || (Nat.leb 9 n && Nat.leb n 13) || Nat.eqb n 160)%bool.

Fixpoint trimStart (s : string) : string :=
  match s with
  | EmptyString => EmptyString
  | String c s' => if isSpace c then trimStart s' else s
  end.

Fixpoint trimEnd (s : string) : string :=
  match s with
  | EmptyString => EmptyString
  | String c s' =>
      match trimEnd s' with
      | EmptyString => if isSpace c then EmptyString else String c EmptyString
      | t => String c t
      end
  end.

(** [s.trim()] *)
Definition trim (s : string) : string := trimEnd (trimStart s).

(** Truthiness of a string value that may be [null]/[undefined]. *)
Definition truthy (o : option string) : bool :=
  match o with
  | Some (String _ _) => true
  | _ => false
  end.

(** [a || b] on possibly absent strings, [b] being a string. *)
Definition orElse (a : option string) (b : string) : string :=
  match a with
  | Some (String c s) => String c s
  | _ => b
  end.

(** [a || null] *)
Definition orNull (a : option string) : option string :=
  match a with
  | Some (String c s) => Some (String c s)
  | _ => None
  end.

(** String conversion of a possibly [undefined] string, as done by [+]
    and by template literals. *)
Definition show (a : option string) : string :=
  match a with
  | Some s => s
  | None => "undefined"
  end.

(** [lines.join("\n")] *)
Fixpoint joinLines (lines : list string) : string :=
  match lines with
  | [] => ""
  | [l] => l
  | l :: rest => l ++ String (Ascii.ascii_of_nat 10) (joinLines rest)
  end.

End JS.

(** ** Data model ([types.ts]) *)

Record InstructionStep := {
  step_id : Z;
  step_title : string;
  step_description : string;
  step_details : option (list string);
  step_tips : option string;
  step_diagram : option (list string)
}.

Inductive ProjectSource := hardcoded | barcode | s3.

Record Project := {
  id : string;
  name : string;
  totalSteps : Z;
  steps : list InstructionStep;
  source : ProjectSource
}.

Inductive AppState := welcome | selecting | building | completed.

#[global] Instance AppState_eq_dec : EqDecision AppState.
Proof. solve_decision. Defined.

(** A step literal [{ id, title, description, details, tips }]. *)
Definition mkStep (i : Z) (t d : string) (ds : list string) (tip : string) : InstructionStep :=
  {| step_id := i; step_title := t; step_description := d;
     step_details := Some ds; step_tips := Some tip; step_diagram := None |}.

(** Contiguous 1-based numbering: the step at 0-based position [i] has
    id [i + 1]. *)
Definition contiguous (l : list InstructionStep) : Prop :=
  forall (i : nat) (s : InstructionStep), l !! i = Some s -> step_id s = Z.of_nat i + 1.

Fixpoint contiguousFrom (k : Z) (l : list InstructionStep) : bool :=
  match l with
  | [] => true
  | s :: l' => Z.eqb (step_id s) k && contiguousFrom (k + 1) l'
  end.

(** ** Step synthesizer: the deterministic templates *)

Definition legoTemplate : list InstructionStep :=
  [ mkStep 1 "Open & Sort" "Open package and organize pieces"
      ["Open all bags"; "Sort by color/size"; "Check piece count"]
      "Use small bowls to organize pieces";
    mkStep 2 "Follow Instructions" "Start with step 1 of the manual"
      ["Locate first pieces"; "Connect as shown"; "Check orientation"]
      "Work on a flat surface";
    mkStep 3 "Build Base" "Complete the foundation"
      ["Connect base pieces"; "Ensure stability"; "Check alignment"]
      "Press pieces firmly together";
    mkStep 4 "Add Details" "Attach smaller components"
      ["Add decorative pieces"; "Attach moving parts"; "Check connections"]
      "Don't force pieces";
    mkStep 5 "Final Assembly" "Complete the model"
      ["Add final pieces"; "Check all connections"; "Compare to image"]
      "Display proudly!" ].

Definition furnitureTemplate : list InstructionStep :=
  [ mkStep 1 "Unpack All Parts" "Remove and organize components"
      ["Lay out all pieces"; "Check parts list"; "Organize hardware"]
      "Keep packaging until complete";
    mkStep 2 "Prepare Tools" "Gather necessary tools"
      ["Check included tools"; "Get screwdriver if needed"; "Clear workspace"]
      "Read all instructions first";
    mkStep 3 "Assemble Frame" "Build the main structure"
      ["Connect main panels"; "Insert screws loosely"; "Check alignment"]
      "Don't fully tighten until aligned";
    mkStep 4 "Add Components" "Attach shelves or surfaces"
      ["Position components"; "Secure with hardware"; "Tighten all screws"]
      "Work systematically";
    mkStep 5 "Final Steps" "Complete assembly"
      ["Add back panel if needed"; "Attach anti-tip hardware"; "Position in place"]
      "Secure to wall for safety" ].

Definition genericTemplate : list InstructionStep :=
  [ mkStep 1 "Preparation" "Unpack and organize"
      ["Open packaging"; "Check all parts"; "Read instructions"]
      "Take your time";
    mkStep 2 "Initial Assembly" "Start main assembly"
      ["Begin with base"; "Follow diagram"; "Connect main parts"]
      "Work on flat surface";
    mkStep 3 "Continue Building" "Add components"
      ["Attach additional parts"; "Check connections"; "Follow sequence"]
      "Don't force connections";
    mkStep 4 "Final Assembly" "Complete the build"
      ["Add final pieces"; "Tighten all connections"; "Check stability"]
      "Review all steps";
    mkStep 5 "Completion" "Finish and test"
      ["Verify assembly"; "Test functionality"; "Clean up"]
      "Keep manual for reference" ].

Definition isLego (productTitle : string) : bool :=
  JS.includes (JS.toLowerCase productTitle) "lego".

Definition isFurniture (productTitle : string) : bool :=
  JS.includes (JS.toLowerCase productTitle) "shelf" ||
  JS.includes (JS.toLowerCase productTitle) "table" ||
  JS.includes (JS.toLowerCase productTitle) "desk" ||
  JS.includes (JS.toLowerCase productTitle) "chair".

Definition generateFallbackInstructions (productTitle : string) : list InstructionStep :=
  if isLego productTitle then legoTemplate
  else if isFurniture productTitle then furnitureTemplate
  else genericTemplate.

(** ** Search results and manual location *)

(** One entry of SerpAPI's [organic_results]. *)
Record RawResult := {
  raw_title : option string;
  raw_link : option string;
  raw_snippet : option string;
  raw_displayed_link : option string
}.

(** One entry of [items] in the transformed search response. *)
Record SearchItem := {
  item_title : option string;
  item_link : option string;
  item_snippet : option string;
  item_displayLink : option string;
  item_fileFormat : option string;
  item_mime : option string
}.

(** One entry of [results] in Exa's response. *)
Record ExaResult := {
  exa_title : option string;
  exa_url : option string;
  exa_highlights : option (list string)
}.

(** The object returned by [findFirstValidPDF]. *)
Record ManualCandidate := {
  manual_title : string;
  manual_url : string;
  manual_snippet : string;
  manual_fileFormat : string;
  manual_mimeType : string
}.

(** A search response is [null] ([None]) or an object whose [items] is an
    array; [searchInformation.totalResults] is never read and is left out.
    [hasItems r] is the test [r && r.items && r.items.length > 0]. *)
Definition hasItems {A : Type} (r : option (list A)) : bool :=
  match r with
  | Some (_ :: _) => true
  | _ => false
  end.

Definition notThdStatic (r : RawResult) : bool :=
  match raw_link r with
  | Some l => negb (JS.includes l "https://images.thdstatic.com")
  | None => true
  end.

Definition toItem (r : RawResult) : SearchItem :=
  {| item_title := raw_title r; item_link := raw_link r;
     item_snippet := raw_snippet r; item_displayLink := raw_displayed_link r;
     item_fileFormat := None; item_mime := None |}.

Definition linkHasPdf (r : RawResult) : bool :=
  match raw_link r with
  | Some l => JS.includes (JS.toLowerCase l) ".pdf"
  | None => false
  end.

Definition toPdfItem (r : RawResult) : SearchItem :=
  {| item_title := raw_title r; item_link := raw_link r;
     item_snippet := raw_snippet r; item_displayLink := raw_displayed_link r;
     item_fileFormat := if linkHasPdf r then Some "PDF" else None;
     item_mime := if linkHasPdf r then Some "application/pdf" else None |}.

(** [organic_results?.filter(...).map(f) || []] *)
Definition transformResults (f : RawResult -> SearchItem)
    (organic : option (list RawResult)) : list SearchItem :=
  match organic with
  | Some rs => map f (filter (fun r => Is_true (notThdStatic r)) rs)
  | None => []
  end.

(** The manual-likelihood test [isPDF] of [findFirstValidPDF]. *)
Definition isPDF (item : SearchItem) : bool :=
  let url := JS.orElse (item_link item) "" in
  let title := JS.orElse (item_title item) "" in
  let fileFormat := JS.orElse (item_fileFormat item) "" in
  let mimeType := JS.orElse (item_mime item) "" in
  JS.endsWith (JS.toLowerCase url) ".pdf" ||
  JS.includes (JS.toLowerCase url) ".pdf" ||
  JS.includes (JS.toLowerCase fileFormat) "pdf" ||
  JS.includes (JS.toLowerCase mimeType) "pdf" ||
  JS.includes (JS.toLowerCase title) "pdf" ||
  JS.includes url "rebrickable.com/instructions/" ||
  JS.includes url "lego.com/service/buildinginstructions/" ||
  (JS.includes (JS.toLowerCase title) "instructions" &&
   (JS.includes url "rebrickable.com" ||
    JS.includes url "brickset.com" ||
    JS.includes url "bricklink.com" ||
    JS.includes (JS.toLowerCase title) "lego")).

Definition toCandidate (item : SearchItem) : ManualCandidate :=
  {| manual_title := JS.orElse (item_title item) "";
     manual_url := JS.orElse (item_link item) "";
     manual_snippet := JS.orElse (item_snippet item) "PDF instruction manual";
     manual_fileFormat := JS.orElse (item_fileFormat item) "";
     manual_mimeType := JS.orElse (item_mime item) "" |}.

(** The [for ... of] loop of [findFirstValidPDF]. *)
Fixpoint scanItems (items : list SearchItem) : option ManualCandidate :=
  match items with
  | [] => None
  | item :: rest => if isPDF item then Some (toCandidate item) else scanItems rest
  end.

Definition findFirstValidPDF (searchResults : option (list SearchItem)) : option ManualCandidate :=
  if negb (hasItems searchResults) then None
  else match searchResults with
       | Some items => scanItems items
       | None => None
       end.

(** ** The outside world and the transcript *)

(** What one Anthropic request leads to inside the [try] block of
    [generateInstructionsFromPDF]: the request throws, the text holds no
    bracketed array, the array does not parse (or logging a step throws),
    or the array parses to [steps]. *)
Inductive AnthropicOutcome :=
| RequestFailed (status : option Z)
| NoJsonArray
| Malformed
| Parsed (parsed : list InstructionStep).

Inductive Event :=
| EvIdentify (code : string) (r : option string)
| EvGoogle (query : string) (r : option (list SearchItem))
| EvGooglePDF (query : string) (r : option (list SearchItem))
| EvExa (query : string) (r : option (option (list ExaResult)))
| EvAnalyze (code : string) (r : option string)
| EvInstructionQuery (voiceCommand productTitle : string) (r : option string)
| EvGenerate (productTitle pdfUrl : string) (r : list InstructionStep)
| EvUpload (p : Project) (code : string) (pdfUrl : option string)
| EvSleep (ms : Z)
| EvShowTextWall (text : string) (durationMs : option Z).

(** Configuration and providers.  A provider's answer may depend on the
    whole transcript so far, so repeated requests need not agree.  The
    Cerebras oracles give [choices[0]?.message?.content] ([None] when the
    request throws or the content is missing); SerpAPI gives
    [organic_results] (outer [None] when the request throws); Exa gives
    [response.data.results]. *)
Record World := {
  CEREBRAS_API_KEY : bool;
  SERPAPI_KEY : bool;
  EXA_API_KEY : bool;
  ANTHROPIC_API_KEY : bool;
  cerebrasIdentify : list Event -> string -> option string;
  cerebrasAnalyze : list Event -> string -> list SearchItem -> option string;
  cerebrasInstructionQuery : list Event -> string -> option string;
  serpapi : list Event -> string -> Z -> option (option (list RawResult));
  exaSearch : list Event -> string -> option (option (list ExaResult));
  anthropic : list Event -> string -> string -> AnthropicOutcome
}.

(** ** The pipeline monad

    A computation reads the project cache and the transcript so far, and
    returns its value, the new cache and the events it added.

    A run is one call from its entry to its return, with no other call of
    the pipeline in between.  The code awaits every request, so another call
    can run between the test of the cache at the entry of
    [processVoiceCommandWithAI] and the store at its end, and a later store
    for the same barcode replaces an earlier one.  A call reads the cache
    only in that test and writes it only in that store: what a call that
    overlaps others returns and requests is what its run from the cache
    found at entry returns and requests, and its store lands on the cache as
    it is when the call gets there.  Statements about the cache after a run
    are about a call that no other call overlaps. *)

Definition M (A : Type) : Type :=
  gmap string Project -> list Event -> A * gmap string Project * list Event.

#[global] Instance M_ret : MRet M := fun A a cache h => (a, cache, []).

#[global] Instance M_bind : MBind M := fun A B k m cache h =>
  let '(a, cache1, e1) := m cache h in
  let '(b, cache2, e2) := k a cache1 (h ++ e1)%list in
  (b, cache2, (e1 ++ e2)%list).

(** Performs a call whose response [respond h] depends on the transcript,
    and records it. *)
Definition call {A : Type} (respond : list Event -> A) (ev : A -> Event) : M A :=
  fun cache h => (respond h, cache, [ev (respond h)]).

Definition emit (e : Event) : M unit := fun cache h => (tt, cache, [e]).

Definition cacheGet (key : string) : M (option Project) :=
  fun cache h => (cache !! key, cache, []).

Definition cacheSet (key : string) (p : Project) : M unit :=
  fun cache h => (tt, <[key := p]> cache, []).

(** [content?.trim() || null] *)
Definition firstLine (content : option string) : option string :=
  JS.orNull (JS.trim <$> content).

Definition identifyProductFromBarcode (w : World) (code : string) : M (option string) :=
  call (fun h => if CEREBRAS_API_KEY w then firstLine (cerebrasIdentify w h code) else None)
       (EvIdentify code).

Definition analyzeProductFromGoogleResults (w : World) (code : string)
    (googleResults : option (list SearchItem)) : M (option string) :=
  call (fun h =>
          if negb (CEREBRAS_API_KEY w) then None
          else if negb (hasItems googleResults) then None
          else firstLine (cerebrasAnalyze w h code (take 5 (default [] googleResults))))
       (EvAnalyze code).

Definition generateInstructionQuery (w : World) (voiceCommand productTitle : string)
    : M (option string) :=
  call (fun h => if CEREBRAS_API_KEY w
                 then firstLine (cerebrasInstructionQuery w h productTitle) else None)
       (EvInstructionQuery voiceCommand productTitle).

Definition searchWithGoogle (w : World) (query : string) : M (option (list SearchItem)) :=
  call (fun h => if SERPAPI_KEY w
                 then transformResults toItem <$> serpapi w h query 5 else None)
       (EvGoogle query).

Definition isQuote (c : ascii) : bool :=
  let n := Ascii.nat_of_ascii c in (Nat.eqb n 34 || Nat.eqb n 39)%bool.

(** The [replace] of [searchGoogleForPDFs]: every single or double quote
    character of the query is removed. *)
Fixpoint removeQuotes (s : string) : string :=
  match s with
  | EmptyString => EmptyString
  | String c s' => if isQuote c then removeQuotes s' else String c (removeQuotes s')
  end.

Definition pdfQuery (query : string) : string :=
  JS.trim (removeQuotes query) ++ " filetype:pdf".

Definition searchGoogleForPDFs (w : World) (query : string) : M (option (list SearchItem)) :=
  call (fun h => if SERPAPI_KEY w
                 then transformResults toPdfItem <$> serpapi w h (pdfQuery query) 10 else None)
       (EvGooglePDF query).

Definition searchWithExa (w : World) (query : string) : M (option (option (list ExaResult))) :=
  call (fun h => if EXA_API_KEY w then exaSearch w h query else None) (EvExa query).

Definition uploadProjectToS3 (p : Project) (code : string) (pdfUrl : option string) : M unit :=
  emit (EvUpload p code pdfUrl).

(** The steps [generateInstructionsFromPDF] returns for one outcome of the
    Anthropic request. *)
Definition stepsOfOutcome (productTitle : string) (o : AnthropicOutcome) : list InstructionStep :=
  match o with
  | Parsed parsed => parsed
  | _ => generateFallbackInstructions productTitle
  end.

Definition generateInstructionsFromPDF (w : World) (productTitle pdfUrl : string)
    : M (list InstructionStep) :=
  call (fun h =>
          if negb (ANTHROPIC_API_KEY w) then generateFallbackInstructions productTitle
          else stepsOfOutcome productTitle (anthropic w h productTitle pdfUrl))
       (EvGenerate productTitle pdfUrl).

(** ** The resolution pipeline ([processVoiceCommandWithAI]) *)

Definition cacheKey (code : string) : string := "barcode_" ++ code.

Definition fallbackQueries (code : string) : list string :=
  [ code ++ " product"; "UPC " ++ code; "barcode " ++ code; code ].

(** The [for] loop over [fallbackQueries]: [productSearchResults] is
    overwritten by every attempt, the loop breaks at the first attempt
    with items and sleeps 500 ms after every other one. *)
Fixpoint fallbackLoop (w : World) (queries : list string)
    (productSearchResults : option (list SearchItem)) : M (option (list SearchItem)) :=
  match queries with
  | [] => mret productSearchResults
  | fallbackQuery :: rest =>
      r ← searchWithGoogle w fallbackQuery;
      if hasItems r then mret r
      else _ ← emit (EvSleep 500); fallbackLoop w rest r
  end.

(** Primary search with its fallbacks (the statements from the first
    [searchWithGoogle] to the end of the fallback loop). *)
Definition productSearch (w : World) (code productIdQuery : string)
    : M (option (list SearchItem)) :=
  r ← searchWithGoogle w productIdQuery;
  if negb (hasItems r) then fallbackLoop w (fallbackQueries code) r else mret r.

(** The project literal of the Exa branch. *)
Definition degradedProject (code productIdQuery : string) (firstResult : ExaResult) : Project :=
  {| id := "barcode_" ++ code;
     name := JS.orElse (exa_title firstResult) productIdQuery;
     totalSteps := 3;
     source := barcode;
     steps :=
       [ {| step_id := 1; step_title := "Preparation";
            step_description := "Gather tools and check components";
            step_details := Some ["Check all parts are present"; "Gather required tools"];
            step_tips := match exa_highlights firstResult with
                         | Some hs => hs !! 0%nat
                         | None => Some "Follow manufacturer guidelines"
                         end;
            step_diagram := None |};
         {| step_id := 2; step_title := "Assembly";
            step_description := "Follow the main assembly steps";
            step_details := Some ["Follow instructions carefully"; "Take your time"];
            step_tips := Some ("Reference: " ++ JS.show (exa_url firstResult));
            step_diagram := None |};
         {| step_id := 3; step_title := "Completion";
            step_description := "Final checks and cleanup";
            step_details := Some ["Verify all connections"; "Clean up workspace"];
            step_tips := Some "Product identified via barcode scan";
            step_diagram := None |} ] |}.

Definition pipelineProject (code productTitle : string) (stepList : list InstructionStep)
    : Project :=
  {| id := "barcode_" ++ code;
     name := productTitle;
     totalSteps := Z.of_nat (List.length stepList);
     source := barcode;
     steps := stepList |}.

(** [session.layouts.showTextWall(lines.join("\n"), { durationMs: 5000 })],
    done only when a session was passed. *)
Definition showIfSession (session : bool) (lines : list string) : M unit :=
  if session then emit (EvShowTextWall (JS.joinLines lines) (Some 5000)) else mret tt.

(** The tail of the pipeline once the instruction query is known: manual
    search, manual location, step synthesis, caching and upload. *)
Definition resolveInstructions (w : World) (code productTitle instructionQuery : string)
    (session : bool) : M (option Project) :=
  r ← searchGoogleForPDFs w instructionQuery;
  instructionResults ← (if negb (hasItems r) then searchWithGoogle w instructionQuery
                        else mret r);
  let generic :=
    stepList ← generateInstructionsFromPDF w productTitle "";
    let project := pipelineProject code productTitle stepList in
    _ ← cacheSet ("barcode_" ++ code) project;
    _ ← uploadProjectToS3 project code None;
    mret (Some project) in
  if hasItems instructionResults then
    match findFirstValidPDF instructionResults with
    | Some firstPDF =>
        stepList ← generateInstructionsFromPDF w productTitle (manual_url firstPDF);
        let project := pipelineProject code productTitle stepList in
        _ ← cacheSet ("barcode_" ++ code) project;
        _ ← uploadProjectToS3 project code (Some (manual_url firstPDF));
        _ ← showIfSession session
              [ "INSTRUCTIONS FOUND"; ""; productTitle; ""; manual_title firstPDF; "";
                "Ready to guide you!" ];
        mret (Some project)
    | None => generic
    end
  else generic.

(** The pipeline after the primary search succeeded: product
    identification, instruction query, then [resolveInstructions]. *)
Definition resolveFromResults (w : World) (voiceCommand code : string) (session : bool)
    (productSearchResults : option (list SearchItem)) : M (option Project) :=
  productTitle ← analyzeProductFromGoogleResults w code productSearchResults;
  match productTitle with
  | Some (String c t) =>
      let productTitle := String c t in
      _ ← showIfSession session
            [ "PRODUCT IDENTIFIED"; ""; productTitle; ""; "Barcode: " ++ code; "";
              "Processing instructions..." ];
      instructionQuery ← generateInstructionQuery w voiceCommand productTitle;
      match instructionQuery with
      | Some (String c' q) =>
          resolveInstructions w code productTitle (String c' q) session
      | _ => mret None
      end
  | _ => mret None
  end.

(** The Exa branch, taken when the primary search and all its fallbacks
    gave no items. *)
Definition resolveWithExa (w : World) (code productIdQuery : string) : M (option Project) :=
  exaResults ← searchWithExa w productIdQuery;
  match exaResults with
  | Some (Some (firstResult :: _)) =>
      mret (Some (degradedProject code productIdQuery firstResult))
  | _ => mret None
  end.

Definition processVoiceCommandWithAI (w : World) (voiceCommand code : string)
    (session : bool) : M (option Project) :=
  cached ← cacheGet (cacheKey code);
  match cached with
  | Some cachedProject => mret (Some cachedProject)
  | None =>
      productIdQuery ← identifyProductFromBarcode w code;
      match productIdQuery with
      | Some (String c q) =>
          let productIdQuery := String c q in
          productSearchResults ← productSearch w code productIdQuery;
          if negb (hasItems productSearchResults)
          then resolveWithExa w code productIdQuery
          else resolveFromResults w voiceCommand code session productSearchResults
      | _ => mret None
      end
  end.

(** ** Token source ([BarcodeService]) *)

Record BarcodeService := {
  cachedBarcode : option string;
  lastFetch : Z
}.

Definition cacheTimeout : Z := 30000.

(** How the [try] block of [getCurrentBarcode] goes once the request is
    issued.  [FetchFailed]: it throws, and the [catch] branch runs; this is
    the case when the request is rejected (network error, timeout, a status
    outside 2xx) and also when the response has no body ([response.data] is
    [null] or [undefined]), since reading [barcodeData.barcode] then throws
    inside the [try].  [FetchBody code]: the response has a body, and [code]
    is its [barcode] field ([None] when the body has no such field). *)
Inductive FetchOutcome :=
| FetchFailed
| FetchBody (code : option string).

(** The body of a response ([BarcodeData]); [metadata] is never read. *)
Record BarcodeData := {
  data_barcode : option string;
  data_timestamp : option string
}.

(** What [axios.get] gives: it rejects, or it resolves with [response.data],
    which is [None] for a response without body. *)
Inductive Response :=
| RequestError
| Body (data : option BarcodeData).

Definition outcomeOf (resp : Response) : FetchOutcome :=
  match resp with
  | RequestError => FetchFailed
  | Body None => FetchFailed
  | Body (Some data) => FetchBody (data_barcode data)
  end.

(** Case analysis on a response and on what is held in the cache. *)
Ltac fetch_cases :=
  repeat match goal with
         | |- _ /\ _ => split
         | |- _ <-> _ => split
         | |- _ -> _ => intro
         | |- forall _, _ => intro
         | H : _ /\ _ |- _ => destruct H
         | H : _ \/ _ |- _ => destruct H
         | H : ex _ |- _ => destruct H
         | H : Body _ = Body _ |- _ => injection H as H; try subst
         | H : Some _ = Some _ |- _ => injection H as H; try subst
         end;
  cbn [data_barcode JS.truthy] in *;
  try discriminate; try congruence; try lia; try reflexivity;
  try (exfalso; auto; fail);
  try solve [left; split; [first [left; reflexivity | right; reflexivity] | reflexivity]];
  try solve [right; eexists; split; reflexivity].

Definition newBarcodeService : BarcodeService :=
  {| cachedBarcode := None; lastFetch := 0 |}.

(** [getCurrentBarcode] at time [now]; [net] is the outcome the request
    has if it is issued.  The result is the returned value, the service
    afterwards, and whether the request was issued. *)
Definition getCurrentBarcode (now : Z) (net : FetchOutcome) (self : BarcodeService)
    : option string * BarcodeService * bool :=
  if JS.truthy (cachedBarcode self) && (now - lastFetch self <? cacheTimeout)%Z
  then (cachedBarcode self, self, false)
  else match net with
       | FetchBody (Some (String c s)) =>
           (Some (String c s), {| cachedBarcode := Some (String c s); lastFetch := now |}, true)
       | FetchBody _ => (None, self, true)
       | FetchFailed =>
           if JS.truthy (cachedBarcode self) then (cachedBarcode self, self, true)
           else (None, self, true)
       end.

Definition clearCache (self : BarcodeService) : BarcodeService :=
  {| cachedBarcode := None; lastFetch := 0 |}.

(** ** Hosted dataset project ([loadS3Data]) *)

Record S3Step := {
  step_number : Z;
  description : string;
  parts_used : list string
}.

Record S3ProductData := {
  product_name : string;
  product_brand : string;
  manual_steps : list S3Step;
  safety_warnings : list string
}.

Definition s3Project (s3Data : S3ProductData) : Project :=
  {| id := "s3_product";
     name := product_name s3Data ++ " (" ++ product_brand s3Data ++ ")";
     totalSteps := Z.of_nat (List.length (manual_steps s3Data));
     source := s3;
     steps :=
       imap (fun index step =>
               {| step_id := Z.of_nat index + 1;
                  step_title := "Step " ++ pretty (step_number step);
                  step_description := description step;
                  step_details := Some (parts_used step);
                  step_tips := Some (JS.orElse (safety_warnings s3Data !! 0%nat)
                                               "Follow safety guidelines");
                  step_diagram := None |})
            (manual_steps s3Data) |}.

(** ** Session controller ([EnhancedHandymanAssistant])

    The model follows one session object from [onSession] until it is
    stopped.  A handler runs to its next [await]; what it awaits is kept in
    [pending] and is resumed by a later input, so handlers of the same
    session interleave at their suspension points as they do on the event
    loop. *)

Record SessionData := {
  state : AppState;
  currentProject : option Project;
  currentStep : Z;
  startTime : Z;
  availableProjects : gmap string Project;
  stepsGenerated : bool
}.

(** A suspended handler: [onSession] or [handleVoiceTranscription] waiting
    for [updateCurrentBarcode], or [handleVoiceTranscription] waiting for
    [processVoiceCommandWithAI]. *)
Inductive Pending :=
| AwaitConnectBarcode
| AwaitBarcode (command : string)
| AwaitResolution (command code : string).

(** What is handed to the display.  [ShowStep p i] is the call
    [showInstructionStep(session, p, i)]; the call throws, and shows nothing,
    when [p] has no step at index [i].  By then the handler has written the
    session data; what the throw skips is logging, or storing once more the
    session object that is already stored. *)
Inductive Display :=
| ShowWelcome (code : option string)
| ShowScanning (code : option string)
| ShowSelection
| ShowStep (p : Project) (stepIndex : Z)
| ShowCompletion (p : Project).

Record Server := {
  session : SessionData;
  CURRENT_BARCODE : option string;
  pending : list Pending;
  display : list Display
}.

Definition withSession (sv : Server) (s : SessionData) : Server :=
  {| session := s; CURRENT_BARCODE := CURRENT_BARCODE sv;
     pending := pending sv; display := display sv |}.

Definition show (sv : Server) (d : Display) : Server :=
  {| session := session sv; CURRENT_BARCODE := CURRENT_BARCODE sv;
     pending := pending sv; display := (display sv ++ [d])%list |}.

Definition suspend (sv : Server) (p : Pending) : Server :=
  {| session := session sv; CURRENT_BARCODE := CURRENT_BARCODE sv;
     pending := (pending sv ++ [p])%list; display := display sv |}.

Definition resume (sv : Server) (k : nat) : Server :=
  {| session := session sv; CURRENT_BARCODE := CURRENT_BARCODE sv;
     pending := delete k (pending sv); display := display sv |}.

Definition setStep (s : SessionData) (i : Z) : SessionData :=
  {| state := state s; currentProject := currentProject s; currentStep := i;
     startTime := startTime s; availableProjects := availableProjects s;
     stepsGenerated := stepsGenerated s |}.

Definition setState (s : SessionData) (st : AppState) : SessionData :=
  {| state := st; currentProject := currentProject s; currentStep := currentStep s;
     startTime := startTime s; availableProjects := availableProjects s;
     stepsGenerated := stepsGenerated s |}.

Definition addProject (s : SessionData) (key : string) (p : Project) : SessionData :=
  {| state := state s; currentProject := currentProject s; currentStep := currentStep s;
     startTime := startTime s; availableProjects := <[key := p]> (availableProjects s);
     stepsGenerated := stepsGenerated s |}.

Definition setStepsGenerated (s : SessionData) (b : bool) : SessionData :=
  {| state := state s; currentProject := currentProject s; currentStep := currentStep s;
     startTime := startTime s; availableProjects := availableProjects s;
     stepsGenerated := b |}.

Definition onSession (now : Z) (code : option string) : Server :=
  {| session := {| state := welcome; currentProject := None; currentStep := 0;
                   startTime := now; availableProjects := ∅; stepsGenerated := false |};
     CURRENT_BARCODE := code;
     pending := [AwaitConnectBarcode];
     display := [] |}.

Definition handleProjectSelection (now : Z) (projectId : string) (sv : Server) : Server :=
  match availableProjects (session sv) !! projectId with
  | None => sv
  | Some project =>
      show (withSession sv
              {| state := building; currentProject := Some project; currentStep := 0;
                 startTime := now; availableProjects := availableProjects (session sv);
                 stepsGenerated := stepsGenerated (session sv) |})
           (ShowStep project 0)
  end.

Definition handleNextStep (sv : Server) : Server :=
  match currentProject (session sv) with
  | None => sv
  | Some project =>
      if (currentStep (session sv) <? totalSteps project - 1)%Z
      then show (withSession sv (setStep (session sv) (currentStep (session sv) + 1)))
                (ShowStep project (currentStep (session sv) + 1))
      else show (withSession sv (setState (session sv) completed)) (ShowCompletion project)
  end.

Definition handlePreviousStep (sv : Server) : Server :=
  match currentProject (session sv) with
  | None => sv
  | Some project =>
      if (currentStep (session sv) <=? 0)%Z then sv
      else show (withSession sv (setStep (session sv) (currentStep (session sv) - 1)))
                (ShowStep project (currentStep (session sv) - 1))
  end.

Definition handleNewProject (now : Z) (sv : Server) : Server :=
  show (withSession sv
          {| state := selecting; currentProject := None; currentStep := 0;
             startTime := now; availableProjects := availableProjects (session sv);
             stepsGenerated := false |})
       ShowSelection.

Definition anyIncludes (command : string) (words : list string) : bool :=
  existsb (JS.includes command) words.

Definition hasProject (sv : Server) (key : string) : bool :=
  bool_decide (is_Some (availableProjects (session sv) !! key)).

Definition processVoiceCommand (now : Z) (command : string) (sv : Server) : Server :=
  match state (session sv) with
  | welcome => show sv (ShowScanning (CURRENT_BARCODE sv))
  | selecting =>
      if JS.truthy (CURRENT_BARCODE sv) &&
         hasProject sv ("barcode_" ++ JS.show (CURRENT_BARCODE sv))
      then handleProjectSelection now ("barcode_" ++ JS.show (CURRENT_BARCODE sv)) sv
      else if hasProject sv "s3_product"
      then handleProjectSelection now "s3_product" sv
      else sv
  | building =>
      match currentProject (session sv) with
      | None => sv
      | Some project =>
          if anyIncludes command ["next"; "continue"; "forward"] then handleNextStep sv
          else if anyIncludes command ["back"; "previous"; "last"] then handlePreviousStep sv
          else if anyIncludes command ["repeat"; "again"; "what"]
          then show sv (ShowStep project (currentStep (session sv)))
          else if anyIncludes command ["start over"; "restart"; "beginning"]
          then show (withSession sv (setStep (session sv) 0)) (ShowStep project 0)
          else sv
      end
  | completed =>
      if anyIncludes command ["new"; "another"; "different"] then handleNewProject now sv
      else sv
  end.

(** [updateCurrentBarcode] once [getCurrentBarcode] has delivered
    [result]. *)
Definition updateCurrentBarcode (result : option string) (sv : Server) : Server :=
  if JS.truthy result && negb (bool_decide (result = CURRENT_BARCODE sv))
  then {| session := session sv; CURRENT_BARCODE := result;
          pending := pending sv; display := display sv |}
  else sv.

(** [handleVoiceTranscription] up to its first [await]. *)
Definition handleVoiceTranscription (now : Z) (isFinal : bool) (text : option string)
    (sv : Server) : Server :=
  if negb isFinal then sv
  else match JS.orNull (JS.trim <$> (JS.toLowerCase <$> text)) with
       | None => sv
       | Some command =>
           if bool_decide (state (session sv) = building) &&
              anyIncludes command
                ["next"; "continue"; "back"; "previous"; "repeat"; "again";
                 "start over"; "restart"]
           then processVoiceCommand now command sv
           else if bool_decide (state (session sv) = welcome) &&
                   negb (stepsGenerated (session sv))
           then suspend sv (AwaitBarcode command)
           else processVoiceCommand now command sv
       end.

(** [handleVoiceTranscription] from the return of [updateCurrentBarcode]
    to the call of [processVoiceCommandWithAI]; without a barcode the
    handler returns. *)
Definition afterBarcode (command : string) (result : option string) (sv : Server) : Server :=
  let sv := updateCurrentBarcode result sv in
  match CURRENT_BARCODE sv with
  | Some (String c s) => suspend sv (AwaitResolution command (String c s))
  | _ => sv
  end.

(** [handleVoiceTranscription] from the return of
    [processVoiceCommandWithAI] to its end.  A thrown error is caught and
    behaves as [aiProject = null]. *)
Definition afterResolution (now : Z) (command : string) (aiProject : option Project)
    (sv : Server) : Server :=
  let sv :=
    match aiProject with
    | Some p =>
        handleProjectSelection now (id p)
          (withSession sv (setStepsGenerated (addProject (session sv) (id p) p) true))
    | None => sv
    end in
  processVoiceCommand now command sv.

(** The [next_step] and [previous_step] tools of [onToolCall], for a call
    whose user id names this session; the other tools leave it as it is. *)
Definition onToolCall (toolId : string) (sv : Server) : Server :=
  if String.eqb toolId "next_step" then
    match currentProject (session sv) with
    | Some project =>
        if (currentStep (session sv) <? totalSteps project - 1)%Z
        then withSession sv (setStep (session sv) (currentStep (session sv) + 1))
        else sv
    | None => sv
    end
  else if String.eqb toolId "previous_step" then
    match currentProject (session sv) with
    | Some project =>
        if (0 <? currentStep (session sv))%Z
        then withSession sv (setStep (session sv) (currentStep (session sv) - 1))
        else sv
    | None => sv
    end
  else sv.

Definition loadS3Data (s3Data : option S3ProductData) (sv : Server) : Server :=
  match s3Data with
  | Some d => withSession sv (addProject (session sv) "s3_product" (s3Project d))
  | None => sv
  end.

(** What can happen to a connected session. *)
Inductive Input :=
| Transcription (isFinal : bool) (text : option string)
| BarcodeSettled (k : nat) (result : option string)
| ResolutionSettled (k : nat) (result : option Project)
| ToolCall (toolId : string)
| S3Loaded (s3Data : option S3ProductData)
| BarcodeUpdated (code : option string).

Definition step (now : Z) (i : Input) (sv : Server) : Server :=
  match i with
  | Transcription isFinal text => handleVoiceTranscription now isFinal text sv
  | BarcodeSettled k result =>
      match pending sv !! k with
      | Some AwaitConnectBarcode =>
          let sv := updateCurrentBarcode result (resume sv k) in
          show sv (ShowWelcome (CURRENT_BARCODE sv))
      | Some (AwaitBarcode command) => afterBarcode command result (resume sv k)
      | _ => sv
      end
  | ResolutionSettled k result =>
      match pending sv !! k with
      | Some (AwaitResolution command _) => afterResolution now command result (resume sv k)
      | _ => sv
      end
  | ToolCall toolId => onToolCall toolId sv
  | S3Loaded s3Data => loadS3Data s3Data sv
  | BarcodeUpdated code => updateCurrentBarcode code sv
  end.

(** The states a session can be in after any sequence of inputs. *)
Inductive reachable : Server -> Prop :=
| reachable_connect (now : Z) (code : option string) : reachable (onSession now code)
| reachable_step (now : Z) (i : Input) (sv : Server) :
    reachable sv -> reachable (step now i sv).

Fixpoint run (inputs : list (Z * Input)) (sv : Server) : Server :=
  match inputs with
  | [] => sv
  | (now, i) :: rest => run rest (step now i sv)
  end.

Definition isResolution (p : Pending) : bool :=
  match p with
  | AwaitResolution _ _ => true
  | _ => false
  end.

(** The number of [processVoiceCommandWithAI] calls that have not
    settled yet. *)
Definition resolutionsInFlight (sv : Server) : nat :=
  List.length (List.filter isResolution (pending sv)).

(** ** Reading the transcript *)

(** The primary-search attempts of a transcript, in order, each with the
    response it got. *)
Fixpoint googleAttempts (evs : list Event) : list (string * option (list SearchItem)) :=
  match evs with
  | [] => []
  | EvGoogle q r :: rest => (q, r) :: googleAttempts rest
  | _ :: rest => googleAttempts rest
  end.

(** [validAttempts candidates tried]: the attempts follow [candidates] in
    order, end at the first attempt that got items, and otherwise go
    through all of [candidates]. *)
Fixpoint validAttempts (candidates : list string)
    (tried : list (string * option (list SearchItem))) : bool :=
  match tried, candidates with
  | [], [] => true
  | (q, r) :: tried', c :: candidates' =>
      String.eqb q c &&
      (if hasItems r then bool_decide (tried' = []) else validAttempts candidates' tried')
  | _, _ => false
  end.

Definition isExa (e : Event) : bool :=
  match e with
  | EvExa _ _ => true
  | _ => false
  end.

(** The events of product-title analysis, instruction-query composition
    and step synthesis. *)
Definition isSynthesis (e : Event) : bool :=
  match e with
  | EvAnalyze _ _ | EvInstructionQuery _ _ _ | EvGenerate _ _ _ => true
  | _ => false
  end.

(** The fallback queries in the order the specification lists them: raw
    token, "UPC <token>", "barcode <token>", "<token>". *)
Definition specFallbackQueries (code : string) : list string :=
  [ code; "UPC " ++ code; "barcode " ++ code; code ].

(** A title contains a keyword, letter case aside. *)
Definition contains (productTitle keyword : string) : Prop :=
  exists pre post, JS.toLowerCase productTitle = pre ++ keyword ++ post.

(** The Anthropic outcomes that leave nothing to use. *)
Definition unusable (o : AnthropicOutcome) : Prop :=
  match o with
  | Parsed _ => False
  | _ => True
  end.

(** ** The outcomes of the pipeline *)

(** The events of the primary search: an attempt or the pause after one. *)
Definition isSearchStep (e : Event) : bool :=
  match e with
  | EvGoogle _ _ | EvSleep _ => true
  | _ => false
  end.

Definition noItemsAttempt (a : string * option (list SearchItem)) : bool :=
  negb (hasItems a.2).

(** Steps come from the templates or, unchanged, from the provider. *)
Definition synthesized (w : World) (productTitle : string)
    (stepList : list InstructionStep) : Prop :=
  stepList = generateFallbackInstructions productTitle \/
  exists h pdfUrl, ANTHROPIC_API_KEY w = true /\
                   anthropic w h productTitle pdfUrl = Parsed stepList.

(** The events of the tail of the pipeline. *)
Definition isOutput (e : Event) : bool :=
  match e with
  | EvGooglePDF _ _ | EvGoogle _ _ | EvGenerate _ _ _ | EvUpload _ _ _
  | EvShowTextWall _ _ => true
  | _ => false
  end.

Definition isShow (e : Event) : bool :=
  match e with
  | EvShowTextWall _ _ => true
  | _ => false
  end.

(** The result of the Exa branch for a response [x]. *)
Definition exaProject (code productIdQuery : string)
    (x : option (option (list ExaResult))) : option Project :=
  match x with
  | Some (Some (firstResult :: _)) => Some (degradedProject code productIdQuery firstResult)
  | _ => None
  end.

(** The last attempt got items. *)
Definition foundItems (tried : list (string * option (list SearchItem))) : Prop :=
  exists q r, last tried = Some (q, r) /\ hasItems r = true.

(** Every way a call of the pipeline can go: its result, the cache it
    leaves and the transcript it adds. *)
Inductive Outcome (w : World) (voiceCommand code : string) (cache : gmap string Project)
  : option Project -> gmap string Project -> list Event -> Prop :=
| OutCached (p : Project) :
    cache !! cacheKey code = Some p ->
    Outcome w voiceCommand code cache (Some p) cache []
| OutNoQuery (x : option string) :
    cache !! cacheKey code = None ->
    JS.truthy x = false -> x <> Some "" ->
    Outcome w voiceCommand code cache None cache [EvIdentify code x]
| OutExa (q : string) (searchEvs : list Event) (x : option (option (list ExaResult))) :
    cache !! cacheKey code = None ->
    forallb isSearchStep searchEvs = true ->
    validAttempts (q :: fallbackQueries code) (googleAttempts searchEvs) = true ->
    forallb noItemsAttempt (googleAttempts searchEvs) = true ->
    (googleAttempts searchEvs).*1 = q :: fallbackQueries code ->
    Outcome w voiceCommand code cache (exaProject code q x) cache
      (EvIdentify code (Some q) :: searchEvs ++ [EvExa q x])%list
| OutNoTitle (q : string) (searchEvs : list Event) (t : option string) :
    cache !! cacheKey code = None ->
    forallb isSearchStep searchEvs = true ->
    validAttempts (q :: fallbackQueries code) (googleAttempts searchEvs) = true ->
    foundItems (googleAttempts searchEvs) ->
    JS.truthy t = false -> t <> Some "" ->
    Outcome w voiceCommand code cache None cache
      (EvIdentify code (Some q) :: searchEvs ++ [EvAnalyze code t])%list
| OutNoInstructionQuery (q : string) (searchEvs shows : list Event)
    (productTitle : string) (y : option string) :
    cache !! cacheKey code = None ->
    forallb isSearchStep searchEvs = true ->
    validAttempts (q :: fallbackQueries code) (googleAttempts searchEvs) = true ->
    foundItems (googleAttempts searchEvs) ->
    forallb isShow shows = true ->
    productTitle <> "" ->
    JS.truthy y = false -> y <> Some "" ->
    Outcome w voiceCommand code cache None cache
      (EvIdentify code (Some q) :: searchEvs ++ EvAnalyze code (Some productTitle) :: shows ++
       [EvInstructionQuery voiceCommand productTitle y])%list
| OutResolved (q : string) (searchEvs shows tailEvs : list Event)
    (productTitle instructionQuery : string) (stepList : list InstructionStep) :
    cache !! cacheKey code = None ->
    forallb isSearchStep searchEvs = true ->
    validAttempts (q :: fallbackQueries code) (googleAttempts searchEvs) = true ->
    foundItems (googleAttempts searchEvs) ->
    forallb isShow shows = true ->
    productTitle <> "" -> instructionQuery <> "" ->
    synthesized w productTitle stepList ->
    forallb isOutput tailEvs = true ->
    (exists pdfUrl, In (EvGenerate productTitle pdfUrl stepList) tailEvs) ->
    Outcome w voiceCommand code cache
      (Some (pipelineProject code productTitle stepList))
      (<[cacheKey code := pipelineProject code productTitle stepList]> cache)
      (EvIdentify code (Some q) :: searchEvs ++ EvAnalyze code (Some productTitle) :: shows ++
       EvInstructionQuery voiceCommand productTitle (Some instructionQuery) :: tailEvs)%list.

(** Splits a membership in a concatenation into its cases and closes
    those that a class of events rules out. *)
Ltac in_cases H :=
  repeat first
    [ apply in_app_or in H; destruct H as [H|H]
    | apply in_inv in H; destruct H as [H|H] ];
  try discriminate H;
  try (exfalso; exact (in_nil H));
  try (match goal with
       | Hall : forallb ?P ?l = true |- _ =>
           match type of H with
           | In ?e l => let Hp := fresh in
                        pose proof (proj1 (forallb_forall P l) Hall e H) as Hp;
                        discriminate Hp
           end
       end).

(** ** Invariants of the session controller *)

(** The index is not negative, and it is 0 or below [totalSteps]. *)
Definition stepInRange (p : Project) (i : Z) : Prop :=
  0 <= i /\ (i = 0 \/ i < totalSteps p).

(** The current index and every index handed to the display are in range
    for their project. *)
Definition navigationInv (sv : Server) : Prop :=
  (forall p, currentProject (session sv) = Some p ->
             stepInRange p (currentStep (session sv))) /\
  (forall q i, In (ShowStep q i) (display sv) -> stepInRange q i).

(** [sv'] follows [sv] without entering the welcome phase: if the session
    is in welcome afterwards it was there before, with the same flag. *)
Definition keepsWelcome (sv sv' : Server) : Prop :=
  state (session sv') = welcome ->
  state (session sv) = welcome /\
  stepsGenerated (session sv') = stepsGenerated (session sv).

(** ** Sample worlds and inputs *)

Definition acmeResult : ExaResult :=
  {| exa_title := Some "Acme Widget Manual";
     exa_url := Some "https://acme.example/widget";
     exa_highlights := None |}.

Definition otherResult : ExaResult :=
  {| exa_title := Some "Acme Widget Manual (2nd edition)";
     exa_url := Some "https://acme.example/widget2";
     exa_highlights := None |}.

(** Every key is configured; the primary search finds nothing; Exa finds
    one result, a different one once it has been asked before. *)
Definition exaOnlyWorld : World :=
  {| CEREBRAS_API_KEY := true; SERPAPI_KEY := true; EXA_API_KEY := true;
     ANTHROPIC_API_KEY := true;
     cerebrasIdentify := fun _ code => Some (code ++ " product");
     cerebrasAnalyze := fun _ _ _ => None;
     cerebrasInstructionQuery := fun _ _ => None;
     serpapi := fun _ _ _ => Some (Some []);
     exaSearch := fun h _ => if existsb isExa h then Some (Some [otherResult])
                             else Some (Some [acmeResult]);
     anthropic := fun _ _ _ => NoJsonArray |}.

Definition widgetHit : RawResult :=
  {| raw_title := Some "Acme Widget - product page";
     raw_link := Some "https://acme.example/widget";
     raw_snippet := Some "The Acme Widget";
     raw_displayed_link := Some "acme.example" |}.

(** Every key is configured and every search finds the widget page;
    Cerebras names the product and composes [instructionQuery]; Anthropic
    answers with [outcome]. *)
Definition widgetWorld (instructionQuery : option string) (outcome : AnthropicOutcome)
    : World :=
  {| CEREBRAS_API_KEY := true; SERPAPI_KEY := true; EXA_API_KEY := true;
     ANTHROPIC_API_KEY := true;
     cerebrasIdentify := fun _ code => Some (code ++ " product");
     cerebrasAnalyze := fun _ _ _ => Some "Acme Widget";
     cerebrasInstructionQuery := fun _ _ => instructionQuery;
     serpapi := fun _ _ _ => Some (Some [widgetHit]);
     exaSearch := fun _ _ => None;
     anthropic := fun _ _ _ => outcome |}.

Definition oddStep : InstructionStep := mkStep 7 "Attach the handle" "Screw the handle on" [] "".

(** A search result with a title and a link only. *)
Definition plainItem (t l : string) : SearchItem :=
  {| item_title := Some t; item_link := Some l; item_snippet := None;
     item_displayLink := None; item_fileFormat := None; item_mime := None |}.

(** A session that connects, gets its barcode, and receives two commands
    before any resolution has settled. *)
Definition twoCommands : list (Z * Input) :=
  [ (1000, BarcodeSettled 0 (Some "0123456789012"));
    (2000, Transcription true (Some "Start"));
    (2100, BarcodeSettled 0 (Some "0123456789012"));
    (3000, Transcription true (Some "hello"));
    (3100, BarcodeSettled 1 (Some "0123456789012")) ].

(** The project the pipeline builds for the widget from the generic
    template. *)
Definition widgetProject : Project :=
  pipelineProject "0123456789012" "Acme Widget" genericTemplate.

(** A session that resolves the widget, is started on it automatically and
    is then told to go on. *)
Definition guidedSession : list (Z * Input) :=
  [ (1000, BarcodeSettled 0 (Some "0123456789012"));
    (2000, Transcription true (Some "Start"));
    (2100, BarcodeSettled 0 (Some "0123456789012"));
    (9000, ResolutionSettled 0 (Some widgetProject));
    (12000, Transcription true (Some "Next step")) ].

(** ** The claims that fail, as they are stated *)

(** Step numbering on every path of the pipeline. *)
Definition numberingClaim : Prop :=
  forall w voiceCommand code sess h p cache' evs,
    processVoiceCommandWithAI w voiceCommand code sess ∅ h = (Some p, cache', evs) ->
    contiguous (steps p).

(** No absent result once the product title is known. *)
Definition noFailureAfterTitleClaim : Prop :=
  forall w voiceCommand code sess cache h r cache' evs productTitle,
    processVoiceCommandWithAI w voiceCommand code sess cache h = (r, cache', evs) ->
    In (EvAnalyze code (Some productTitle)) evs ->
    is_Some r.

(** The synthesizer: templates by keyword without a usable response, and
    never an empty list. *)
Definition synthesizerClaim : Prop :=
  forall w productTitle pdfUrl cache h,
    let stepList := (generateInstructionsFromPDF w productTitle pdfUrl cache h).1.1 in
    (ANTHROPIC_API_KEY w = false \/ unusable (anthropic w h productTitle pdfUrl) ->
     stepList = generateFallbackInstructions productTitle) /\
    stepList <> [].

(** The token source: the cache on a failed fetch, absent only on a failed
    fetch without cache, and no fetch within the TTL. *)
Definition tokenSourceClaim : Prop :=
  forall now net self,
    let '(r, _, fetched) := getCurrentBarcode now net self in
    (JS.truthy (cachedBarcode self) = true -> net = FetchFailed -> r = cachedBarcode self) /\
    (r = None -> net = FetchFailed /\ cachedBarcode self = None) /\
    (JS.truthy (cachedBarcode self) = true -> now - lastFetch self < cacheTimeout ->
     r = cachedBarcode self /\ fetched = false).

(** The fallback order of the specification. *)
Definition fallbackOrderClaim : Prop :=
  forall w code productIdQuery cache h,
    validAttempts (productIdQuery :: specFallbackQueries code)
      (googleAttempts (productSearch w code productIdQuery cache h).2) = true.

(** At most one resolution in flight for a session in the welcome phase. *)
Definition singleFlightClaim : Prop :=
  forall sv, reachable sv -> state (session sv) = welcome ->
             (resolutionsInFlight sv <= 1)%nat.

(** ** Polling for a new barcode ([BarcodeService.waitForNewBarcode]) *)

(** What a polling run does besides calling [getCurrentBarcode]: it
    issues a request, or it sleeps. *)
Inductive PollEvent :=
| Requested
| Slept (ms : Z).

Definition maxAttempts : nat := 10.

Definition delayMs : Z := 3000.

(** The [for] loop of [waitForNewBarcode] from attempt number [attempt]
    on, with [remaining] attempts left.  [clock k] is [Date.now()] at
    attempt [k] and [net k] the outcome a request has at attempt [k]. *)
Fixpoint waitLoop (remaining attempt : nat) (clock : nat -> Z) (net : nat -> FetchOutcome)
    (previousBarcode : option string) (self : BarcodeService)
    : option string * BarcodeService * list PollEvent :=
  match remaining with
  | O => (None, self, [])
  | S remaining' =>
      let '(currentBarcode, self1, fetched) :=
        getCurrentBarcode (clock attempt) (net attempt) self in
      let requests := if fetched then [Requested] else [] in
      if JS.truthy currentBarcode && negb (bool_decide (currentBarcode = previousBarcode))
      then (currentBarcode, self1, requests)
      else
        let pause := if (attempt <? maxAttempts)%nat then [Slept delayMs] else [] in
        let '(r, self2, rest) :=
          waitLoop remaining' (S attempt) clock net previousBarcode self1 in
        (r, self2, (requests ++ pause ++ rest)%list)
  end.

Definition waitForNewBarcode (clock : nat -> Z) (net : nat -> FetchOutcome)
    (previousBarcode : option string) (self : BarcodeService)
    : option string * BarcodeService * list PollEvent :=
  waitLoop maxAttempts 1 clock net previousBarcode self.

Definition isRequest (e : PollEvent) : bool :=
  match e with
  | Requested => true
  | Slept _ => false
  end.

Definition isSlept (e : PollEvent) : bool := negb (isRequest e).

(** The operations of a [BarcodeService] and the services they lead to
    from a new one. *)
Inductive ServiceOp :=
| OpGet (now : Z) (net : FetchOutcome)
| OpWait (clock : nat -> Z) (net : nat -> FetchOutcome) (previousBarcode : option string)
| OpClear.

Definition applyOp (op : ServiceOp) (self : BarcodeService) : BarcodeService :=
  match op with
  | OpGet now net => (getCurrentBarcode now net self).1.2
  | OpWait clock net previousBarcode => (waitForNewBarcode clock net previousBarcode self).1.2
  | OpClear => clearCache self
  end.

Inductive serviceReachable : BarcodeService -> Prop :=
| service_new : serviceReachable newBarcodeService
| service_op (op : ServiceOp) (self : BarcodeService) :
    serviceReachable self -> serviceReachable (applyOp op self).

(** ** Logger ([Logger.shouldLog]) *)

Inductive LogLevel := debug | info | warn | error.

Definition levelName (l : LogLevel) : string :=
  match l with
  | debug => "debug"
  | info => "info"
  | warn => "warn"
  | error => "error"
  end.

(** [levels.indexOf(x)]: the position of the first occurrence, or -1. *)
Fixpoint indexOfFrom (i : Z) (levels : list string) (x : string) : Z :=
  match levels with
  | [] => -1
  | l :: rest => if String.eqb l x then i else indexOfFrom (i + 1) rest x
  end.

Definition indexOf (levels : list string) (x : string) : Z := indexOfFrom 0 levels x.

Definition logLevels : list string := ["debug"; "info"; "warn"; "error"].

(** The level a new [Logger] takes from [process.env.LOG_LEVEL]; the
    value is not checked against the four level names. *)
Definition loggerLevel (env : option string) : string := JS.orElse env "info".

Definition shouldLog (configured : string) (level : LogLevel) : bool :=
  (indexOf logLevels configured <=? indexOf logLevels (levelName level))%Z.

Definition levelRank (l : LogLevel) : nat :=
  match l with
  | debug => 0
  | info => 1
  | warn => 2
  | error => 3
  end.

(** ** Dataset cache ([DataIngestionService.fetchProductData]) *)

Record DataIngestionService := {
  cachedData : option S3ProductData;
  dataLastFetch : option Z
}.

Definition dataCacheTimeout : Z := 5 * 60 * 1000.

Definition newDataIngestionService : DataIngestionService :=
  {| cachedData := None; dataLastFetch := None |}.

(** [fetchProductData] entered at time [now]; [net] is what the request
    gives if it is issued ([None] when it throws, else [response.data]) and
    [done] the time at which it returns.  The result is the returned value,
    the service afterwards, and whether the request was issued. *)
Definition fetchProductData (now done : Z) (net : option (option S3ProductData))
    (self : DataIngestionService) : option S3ProductData * DataIngestionService * bool :=
  match cachedData self, dataLastFetch self with
  | Some data, Some fetchedAt =>
      if (now - fetchedAt <? dataCacheTimeout)%Z then (Some data, self, false)
      else match net with
           | Some data' => (data', {| cachedData := data'; dataLastFetch := Some done |}, true)
           | None => (None, self, true)
           end
  | _, _ =>
      match net with
      | Some data' => (data', {| cachedData := data'; dataLastFetch := Some done |}, true)
      | None => (None, self, true)
      end
  end.

(** [refreshData]: the cache is dropped, then [fetchProductData] runs. *)
Definition refreshData (now done : Z) (net : option (option S3ProductData))
    (self : DataIngestionService) : bool * DataIngestionService :=
  let '(data, self', _) := fetchProductData now done net newDataIngestionService in
  (bool_decide (data <> None), self').

(** ** Reading the transcript, continued *)

Definition isSleep (e : Event) : bool :=
  match e with
  | EvSleep _ => true
  | _ => false
  end.

Definition isUpload (e : Event) : bool :=
  match e with
  | EvUpload _ _ _ => true
  | _ => false
  end.

Definition isGenerate (e : Event) : bool :=
  match e with
  | EvGenerate _ _ _ => true
  | _ => false
  end.

Definition isGoogle (e : Event) : bool :=
  match e with
  | EvGoogle _ _ => true
  | _ => false
  end.

(** The number of events of a kind in a transcript. *)
Definition count (kind : Event -> bool) (evs : list Event) : nat :=
  List.length (List.filter kind evs).

(** What the pipeline writes into the cache: the key is the project id,
    the step count is the number of steps, the source tag is [barcode]. *)
Definition pipelineShaped (key : string) (p : Project) : Prop :=
  id p = key /\ totalSteps p = Z.of_nat (List.length (steps p)) /\ source p = barcode.

Definition cacheWellFormed (cache : gmap string Project) : Prop :=
  forall key p, cache !! key = Some p -> pipelineShaped key p.

Definition hasThdStaticLink (item : SearchItem) : bool :=
  match item_link item with
  | Some l => JS.includes l "https://images.thdstatic.com"
  | None => false
  end.

Definition itemLinkHasPdf (item : SearchItem) : bool :=
  match item_link item with
  | Some l => JS.includes (JS.toLowerCase l) ".pdf"
  | None => false
  end.

Fixpoint hasQuote (s : string) : bool :=
  match s with
  | EmptyString => false
  | String c s' => isQuote c || hasQuote s'
  end.

(** ** Commands of a session *)

(** The command [handleVoiceTranscription] derives from a text. *)
Definition commandOf (text : string) : string := JS.trim (JS.toLowerCase text).

(** A final transcription whose command asks for the next step. *)
Definition isAdvance (i : Z * Input) : Prop :=
  match i.2 with
  | Transcription true (Some text) =>
      anyIncludes (commandOf text) ["next"; "continue"; "forward"] = true
  | _ => False
  end.

(** The displays of the steps at indices [i + 1], ..., [i + k]. *)
Fixpoint stepsShown (p : Project) (i : Z) (k : nat) : list Display :=
  match k with
  | O => []
  | S k' => ShowStep p (i + 1) :: stepsShown p (i + 1) k'
  end.

(** A project is active exactly in the building and completed phases. *)
Definition phaseInv (sv : Server) : Prop :=
  match state (session sv) with
  | building | completed => is_Some (currentProject (session sv))
  | welcome | selecting =>
      currentProject (session sv) = None /\ currentStep (session sv) = 0
  end.

(** The phase changes an input can cause. *)
Definition phaseChange (i : Input) (s s' : AppState) : Prop :=
  match i with
  | ResolutionSettled _ (Some _) => s' = s \/ s' = building \/ s' = completed
  | _ =>
      s' = s \/
      (s = selecting /\ s' = building) \/
      (s = building /\ s' = completed) \/
      (s = completed /\ s' = selecting)
  end.

Fixpoint allSpace (s : string) : bool :=
  match s with
  | EmptyString => true
  | String c s' => JS.isSpace c && allSpace s'
  end.

(** ** Parts of a manual ([DataIngestionService.extractAllParts]) *)

(** [allParts.add(part)] on a [Set] kept in insertion order. *)
Definition setAdd (allParts : list string) (part : string) : list string :=
  if bool_decide (part ∈ allParts) then allParts else (allParts ++ [part])%list.

(** The two nested [forEach] loops, from the parts collected so far. *)
Definition addAllParts (allParts : list string) (steps : list S3Step) : list string :=
  foldl (fun allParts step => foldl setAdd allParts (parts_used step)) allParts steps.

Definition extractAllParts (steps : list S3Step) : list string := addAllParts [] steps.

(** ** Steps of a manual ([InstructionService.getInstructionStep]) *)

Module InstructionService.

(** A step of a manual, with the fields [getInstructionManual] gives it and
    [formatStepForDisplay] reads; this [InstructionStep] is the one of the
    services, not the one of a [Project]. *)
Record InstructionStep := {
  stepNumber : Z;
  title : string;
  description : string;
  estimatedTime : option Z;
  tools : list string;
  warnings : list string
}.

(** Of a manual, the fields [getInstructionStep] reads. *)
Record InstructionManual := {
  steps : list InstructionStep;
  totalSteps : Z
}.

Definition getInstructionStep (manual : InstructionManual) (stepNumber : Z)
    : option InstructionStep :=
  if (stepNumber <? 1) || (totalSteps manual <? stepNumber) then None
  else List.find (fun step => InstructionService.stepNumber step =? stepNumber) (steps manual).

(** The steps are numbered 1, 2, ... in their order, and [totalSteps] is
    their number. *)
Definition numbered (manual : InstructionManual) : Prop :=
  totalSteps manual = Z.of_nat (List.length (steps manual)) /\
  forall (i : nat) step, steps manual !! i = Some step -> stepNumber step = Z.of_nat i + 1.

Definition sampleStep (n : Z) (t : string) : InstructionStep :=
  {| stepNumber := n; title := t; description := t; estimatedTime := Some 5;
     tools := []; warnings := [] |}.

Definition sampleManual : InstructionManual :=
  {| steps := [sampleStep 1 "Unpack"; sampleStep 2 "Attach the sides";
               sampleStep 3 "Fix the back"];
     totalSteps := 3 |}.

End InstructionService.

(** ** Further sample worlds and inputs *)

(** No key is configured. *)
Definition noKeysWorld : World :=
  {| CEREBRAS_API_KEY := false; SERPAPI_KEY := false; EXA_API_KEY := false;
     ANTHROPIC_API_KEY := false;
     cerebrasIdentify := fun _ _ => None;
     cerebrasAnalyze := fun _ _ _ => None;
     cerebrasInstructionQuery := fun _ _ => None;
     serpapi := fun _ _ _ => None;
     exaSearch := fun _ _ => None;
     anthropic := fun _ _ _ => RequestFailed None |}.

(** Every key but the SerpAPI key is configured; Exa finds one result. *)
Definition searchlessWorld : World :=
  {| CEREBRAS_API_KEY := true; SERPAPI_KEY := false; EXA_API_KEY := true;
     ANTHROPIC_API_KEY := true;
     cerebrasIdentify := fun _ code => Some (code ++ " product");
     cerebrasAnalyze := fun _ _ _ => None;
     cerebrasInstructionQuery := fun _ _ => None;
     serpapi := fun _ _ _ => Some (Some []);
     exaSearch := fun _ _ => Some (Some [acmeResult]);
     anthropic := fun _ _ _ => NoJsonArray |}.

Definition manualHit : RawResult :=
  {| raw_title := Some "Acme Widget assembly manual";
     raw_link := Some "https://acme.example/manuals/Widget.PDF";
     raw_snippet := None;
     raw_displayed_link := Some "acme.example" |}.

(** Every key is configured; every search finds the manual and the widget
    page. *)
Definition manualWorld : World :=
  {| CEREBRAS_API_KEY := true; SERPAPI_KEY := true; EXA_API_KEY := true;
     ANTHROPIC_API_KEY := true;
     cerebrasIdentify := fun _ code => Some (code ++ " product");
     cerebrasAnalyze := fun _ _ _ => Some "Acme Widget";
     cerebrasInstructionQuery := fun _ _ => Some "acme widget assembly manual";
     serpapi := fun _ _ _ => Some (Some [manualHit; widgetHit]);
     exaSearch := fun _ _ => None;
     anthropic := fun _ _ _ => NoJsonArray |}.

(** A session that walks through the widget's five steps and asks for
    another project. *)
Definition finishedSession : list (Z * Input) :=
  (guidedSession ++
   [ (13000, Transcription true (Some "next"));
     (14000, Transcription true (Some "next"));
     (15000, Transcription true (Some "next"));
     (16000, Transcription true (Some "next"));
     (17000, Transcription true (Some "Another project")) ])%list.

(** A session in which two commands each start a resolution; the first one
    settles, the user walks to the third step of the project. *)
Definition lateResolution : list (Z * Input) :=
  (twoCommands ++
   [ (9000, ResolutionSettled 0 (Some widgetProject));
     (12000, Transcription true (Some "Next"));
     (15000, Transcription true (Some "Next")) ])%list.

(** ** Reading the cache and the transcript of a call *)

(** The steps recorded by every synthesis event of [evs] are what the
    synthesizer returns at the place of the transcript where the event
    stands, [h] being the transcript before [evs]. *)
Definition synthesisAt (w : World) (h evs : list Event) : Prop :=
  forall before t url stepList after,
    evs = (before ++ EvGenerate t url stepList :: after)%list ->
    stepList = if negb (ANTHROPIC_API_KEY w) then generateFallbackInstructions t
               else stepsOfOutcome t (anthropic w (h ++ before)%list t url).

(** [projectCache.set(key, p)] when [write] is [Some p]; nothing otherwise. *)
Definition storeAt (key : string) (write : option Project) (cache : gmap string Project)
    : gmap string Project :=
  match write with
  | Some p => <[key := p]> cache
  | None => cache
  end.

(** A computation that never reads the cache and writes it at most under
    [key]: its value and its events are the same for every cache, and its
    effect on the cache is one store or none. *)
Definition writesOnly (key : string) {A : Type} (m : M A) : Prop :=
  forall h, exists a write evs, forall cache, m cache h = (a, storeAt key write cache, evs).

(** ** What a display call shows *)

(** [project.steps[stepIndex]] *)
Definition stepAt (p : Project) (stepIndex : Z) : option InstructionStep :=
  if (stepIndex <? 0)%Z then None else steps p !! Z.to_nat stepIndex.

(** Whether a call handed to the display shows something.
    [showInstructionStep] reads [project.steps[stepIndex]] and then the title
    of what it got: without a step at that index it throws before anything is
    shown. *)
Definition shown (d : Display) : bool :=
  match d with
  | ShowStep p stepIndex => bool_decide (is_Some (stepAt p stepIndex))
  | _ => true
  end.

(** * Properties *)

(** ** String primitives meet their specification *)

Lemma append_cons (c : ascii) (s t : string) : String c s ++ t = String c (s ++ t).
Proof. reflexivity. Qed.

Lemma startsWith_spec (s p : string) :
  JS.startsWith s p = true <-> exists post, s = p ++ post.
Proof.
  revert s; induction p as [|a p IH]; intros s; simpl.
  - split; [intros _; exists s; reflexivity | destruct s; reflexivity].
  - destruct s as [|b s]; simpl.
    + split; [discriminate | intros [post H]; discriminate].
    + destruct (Ascii.eqb_spec a b) as [->|Hne].
      * rewrite IH. split; intros [post H]; exists post;
          rewrite append_cons in *; congruence.
      * split; [discriminate | intros [post H]; rewrite append_cons in H; congruence].
Qed.

Lemma includes_spec (s sub : string) :
  JS.includes s sub = true <-> exists pre post, s = pre ++ sub ++ post.
Proof.
  induction s as [|c s IH].
  - change (JS.includes "" sub) with (JS.startsWith "" sub || false).
    rewrite orb_false_r, startsWith_spec. split.
    + intros [post H]. exists "", post. exact H.
    + intros [pre [post H]]. destruct pre; [exists post; exact H | discriminate].
  - change (JS.includes (String c s) sub)
      with (JS.startsWith (String c s) sub || JS.includes s sub).
    rewrite orb_true_iff, startsWith_spec, IH. split.
    + intros [[post H] | [pre [post H]]].
      * exists "", post. exact H.
      * exists (String c pre), post. rewrite append_cons. congruence.
    + intros [pre [post H]]. destruct pre as [|c' pre].
      * left. exists post. exact H.
      * right. exists pre, post. rewrite append_cons in H. congruence.
Qed.

Lemma endsWith_spec (s suf : string) :
  JS.endsWith s suf = true <-> exists pre, s = pre ++ suf.
Proof.
  induction s as [|c s IH].
  - change (JS.endsWith "" suf) with (String.eqb "" suf || false).
    rewrite orb_false_r, String.eqb_eq. split.
    + intros ->. exists "". reflexivity.
    + intros [pre H]. destruct pre; [exact H | discriminate].
  - change (JS.endsWith (String c s) suf)
      with (String.eqb (String c s) suf || JS.endsWith s suf).
    rewrite orb_true_iff, String.eqb_eq, IH. split.
    + intros [H | [pre H]].
      * exists "". exact H.
      * exists (String c pre). rewrite append_cons. congruence.
    + intros [pre H]. destruct pre as [|c' pre].
      * left. exact H.
      * right. exists pre. rewrite append_cons in H. congruence.
Qed.

Lemma endsWith_includes (s suf : string) :
  JS.endsWith s suf = true -> JS.includes s suf = true.
Proof.
  rewrite endsWith_spec, includes_spec. intros [pre ->].
  exists pre, "". f_equal. clear. induction suf; [reflexivity|].
  rewrite append_cons. congruence.
Qed.

Lemma isLego_contains (productTitle : string) :
  isLego productTitle = true <-> contains productTitle "lego".
Proof. apply includes_spec. Qed.

Lemma isFurniture_contains (productTitle : string) :
  isFurniture productTitle = true <->
  contains productTitle "shelf" \/ contains productTitle "desk" \/
  contains productTitle "table" \/ contains productTitle "chair".
Proof.
  unfold isFurniture, contains.
  rewrite !orb_true_iff, !includes_spec. tauto.
Qed.

(** ** Step synthesizer *)

Lemma fallback_length (productTitle : string) :
  List.length (generateFallbackInstructions productTitle) = 5%nat.
Proof.
  unfold generateFallbackInstructions.
  destruct (isLego productTitle), (isFurniture productTitle); reflexivity.
Qed.

Lemma contiguousFrom_sound (l : list InstructionStep) (k : Z) :
  contiguousFrom k l = true ->
  forall (i : nat) (s : InstructionStep), l !! i = Some s -> step_id s = Z.of_nat i + k.
Proof.
  revert k; induction l as [|x l IH]; intros k H i s Hi; [discriminate|].
  simpl in H. apply andb_true_iff in H as [Hx Hl]. apply Z.eqb_eq in Hx.
  destruct i as [|i]; simpl in Hi.
  - injection Hi as <-. lia.
  - rewrite (IH _ Hl i s Hi). lia.
Qed.

Lemma contiguous_check (l : list InstructionStep) :
  contiguousFrom 1 l = true -> contiguous l.
Proof. intros H i s Hi. exact (contiguousFrom_sound l 1 H i s Hi). Qed.

Lemma fallback_contiguous (productTitle : string) :
  contiguous (generateFallbackInstructions productTitle).
Proof.
  apply contiguous_check. unfold generateFallbackInstructions.
  destruct (isLego productTitle), (isFurniture productTitle); reflexivity.
Qed.

Lemma generate_value (w : World) (productTitle pdfUrl : string)
    (cache : gmap string Project) (h : list Event) :
  (generateInstructionsFromPDF w productTitle pdfUrl cache h).1.1 =
  if negb (ANTHROPIC_API_KEY w) then generateFallbackInstructions productTitle
  else stepsOfOutcome productTitle (anthropic w h productTitle pdfUrl).
Proof. reflexivity. Qed.

(** The synthesizer does return zero steps: with a key configured and a
    response whose bracketed array parses to the empty array, it returns
    that empty array. *)
Lemma synthesizer_claim_fails : ~ synthesizerClaim.
Proof.
  intros H.
  destruct (H (widgetWorld (Some "acme widget manual") (Parsed [])) "Acme Widget" "" ∅ [])
    as [_ Hne].
  apply Hne. reflexivity.
Qed.

(** ** Manual locator *)

Lemma scanItems_find (items : list SearchItem) :
  scanItems items = toCandidate <$> List.find isPDF items.
Proof.
  induction items as [|x items IH]; [reflexivity|].
  simpl. destruct (isPDF x); [reflexivity | exact IH].
Qed.

Lemma findFirstValidPDF_scan (items : list SearchItem) :
  findFirstValidPDF (Some items) = scanItems items.
Proof. destruct items; reflexivity. Qed.

Lemma scanItems_skip (pre rest : list SearchItem) :
  Forall (fun y => isPDF y = false) pre -> scanItems (pre ++ rest)%list = scanItems rest.
Proof.
  induction 1 as [|y pre Hy _ IH]; [reflexivity|].
  simpl. rewrite Hy. exact IH.
Qed.

Lemma pdf_link_isPDF (x : SearchItem) (l : string) :
  item_link x = Some l ->
  JS.endsWith (JS.toLowerCase l) ".pdf" = true \/
  JS.includes (JS.toLowerCase l) ".pdf" = true ->
  isPDF x = true.
Proof.
  intros Hl Hpdf.
  assert (Hinc : JS.includes (JS.toLowerCase l) ".pdf" = true).
  { destruct Hpdf as [He|Hi]; [apply endsWith_includes, He | exact Hi]. }
  unfold isPDF. rewrite Hl.
  destruct l as [|c l]; [discriminate Hinc|].
  simpl JS.orElse. rewrite Hinc. rewrite orb_true_r. reflexivity.
Qed.

Lemma scanItems_first (items : list SearchItem) (c : ManualCandidate) :
  scanItems items = Some c ->
  exists pre x post,
    items = (pre ++ x :: post)%list /\ Forall (fun y => isPDF y = false) pre /\
    isPDF x = true /\ c = toCandidate x.
Proof.
  induction items as [|y items IH]; [discriminate|].
  simpl. destruct (isPDF y) eqn:Hy.
  - intros [= <-]. exists [], y, items. repeat split; auto.
  - intros Hc. destruct (IH Hc) as (pre & x & post & -> & Hpre & Hx & ->).
    exists (y :: pre), x, post. repeat split; auto.
Qed.

(** C7: the manual locator returns the first result, in list order, that
    passes the manual-likelihood test, also when later results pass it: the
    object returned carries the title and the link of that result (the empty
    string for a missing one), its snippet (or the default text), and its
    file format and mime type.  Conversely whatever it returns is built so
    from a result that passes the test and is preceded only by results that
    fail it.  It returns absent exactly when no result passes; a result whose
    link ends in or contains ".pdf", letter case aside, passes; there is no
    scoring or reordering. *)
Theorem findFirstValidPDF_first_match (pre post : list SearchItem) (x : SearchItem)
    (Hpre : Forall (fun y => isPDF y = false) pre) :
  (isPDF x = true ->
   exists c,
     findFirstValidPDF (Some (pre ++ x :: post)%list) = Some c /\
     manual_title c = JS.orElse (item_title x) "" /\
     manual_url c = JS.orElse (item_link x) "" /\
     manual_snippet c = JS.orElse (item_snippet x) "PDF instruction manual" /\
     manual_fileFormat c = JS.orElse (item_fileFormat x) "" /\
     manual_mimeType c = JS.orElse (item_mime x) "" /\
     (forall t, item_title x = Some t -> manual_title c = t) /\
     (forall l, item_link x = Some l -> manual_url c = l)) /\
  (forall items c,
     findFirstValidPDF (Some items) = Some c ->
     exists pre' x' post',
       items = (pre' ++ x' :: post')%list /\
       Forall (fun y => isPDF y = false) pre' /\ isPDF x' = true /\
       manual_title c = JS.orElse (item_title x') "" /\
       manual_url c = JS.orElse (item_link x') "" /\
       manual_snippet c = JS.orElse (item_snippet x') "PDF instruction manual" /\
       manual_fileFormat c = JS.orElse (item_fileFormat x') "" /\
       manual_mimeType c = JS.orElse (item_mime x') "") /\
  findFirstValidPDF (Some pre) = None /\
  findFirstValidPDF None = None /\
  (forall items, findFirstValidPDF (Some items) = None <->
                 Forall (fun y => isPDF y = false) items) /\
  (forall items, findFirstValidPDF (Some items) = toCandidate <$> List.find isPDF items) /\
  (forall l, item_link x = Some l ->
             JS.endsWith (JS.toLowerCase l) ".pdf" = true \/
             JS.includes (JS.toLowerCase l) ".pdf" = true ->
             isPDF x = true).
Proof.
  assert (Hnone : forall items, Forall (fun y => isPDF y = false) items ->
                                findFirstValidPDF (Some items) = None).
  { intros items Hall. rewrite findFirstValidPDF_scan.
    rewrite <- (app_nil_r items), scanItems_skip by exact Hall. reflexivity. }
  split; [|split; [|split; [|split; [|split; [|split]]]]].
  - intros Hx. exists (toCandidate x).
    rewrite findFirstValidPDF_scan, scanItems_skip by exact Hpre.
    simpl. rewrite Hx. repeat split.
    + intros t Ht. simpl. rewrite Ht. destruct t; reflexivity.
    + intros l Hl. simpl. rewrite Hl. destruct l; reflexivity.
  - intros items c Hc. rewrite findFirstValidPDF_scan in Hc.
    destruct (scanItems_first items c Hc) as (pre' & x' & post' & -> & Hpre' & Hx' & ->).
    exists pre', x', post'. repeat split; auto.
  - apply Hnone, Hpre.
  - reflexivity.
  - intros items. split; [|apply Hnone].
    rewrite findFirstValidPDF_scan.
    induction items as [|y items IH]; [constructor|].
    simpl. destruct (isPDF y) eqn:Hy; [discriminate|].
    intros H. constructor; [exact Hy | exact (IH H)].
  - intros items. rewrite findFirstValidPDF_scan. apply scanItems_find.
  - intros l. apply pdf_link_isPDF.
Qed.

Lemma findFirstValidPDF_first_match_witness :
  exists c,
    findFirstValidPDF
      (Some [ plainItem "Acme store" "https://acme.example/store";
              plainItem "Widget guide" "https://acme.example/guide.PDF";
              plainItem "Widget manual" "https://acme.example/manual.pdf" ]) = Some c /\
    manual_title c = "Widget guide" /\
    manual_url c = "https://acme.example/guide.PDF".
Proof.
  destruct (proj1 (findFirstValidPDF_first_match
                     [plainItem "Acme store" "https://acme.example/store"]
                     [plainItem "Widget manual" "https://acme.example/manual.pdf"]
                     (plainItem "Widget guide" "https://acme.example/guide.PDF")
                     ltac:(repeat constructor)) eq_refl)
    as (c & Hc & Ht & Hu & _).
  exists c. split; [exact Hc|]. split; [exact Ht | exact Hu].
Defined.

(** ** Token source *)

(** C8, as stated, fails: with a stale cached value, a response whose
    body has no barcode gives absent, although the fetch did not fail and a
    cached value is held. *)
Lemma token_source_claim_fails : ~ tokenSourceClaim.
Proof.
  intros H.
  pose proof (H 40000 (FetchBody None) {| cachedBarcode := Some "123"; lastFetch := 0 |})
    as Hc.
  simpl in Hc. destruct Hc as [_ [Habs _]].
  destruct (Habs eq_refl) as [Hnet _]. discriminate Hnet.
Qed.

(** C8 (amended): if a cached value exists and the fetch fails,
    [getCurrentBarcode] returns the cached value, however stale, and keeps
    it; a fetch fails when the request is rejected and also when the response
    comes without a body.  The result is absent exactly when a request is
    issued (the cache is not fresh) and either the fetch fails with no cached
    value held, or the response has a body without barcode; in this last
    case a cached value, if any, is not used: the result is absent although
    the value stays cached.  A request is issued exactly when no cached value
    younger than 30000 ms is held; otherwise the cached value is returned and
    the service is unchanged. *)
Theorem getCurrentBarcode_stale_on_error (now : Z) (resp : Response)
    (self : BarcodeService) :
  let '(r, self', fetched) := getCurrentBarcode now (outcomeOf resp) self in
  (JS.truthy (cachedBarcode self) = true -> resp = RequestError \/ resp = Body None ->
   r = cachedBarcode self /\ self' = self) /\
  (r = None <->
   fetched = true /\
   (((resp = RequestError \/ resp = Body None) /\ JS.truthy (cachedBarcode self) = false) \/
    (exists data, resp = Body (Some data) /\ JS.truthy (data_barcode data) = false))) /\
  (forall data, resp = Body (Some data) -> JS.truthy (data_barcode data) = false ->
                fetched = true -> r = None /\ self' = self) /\
  (fetched = false <->
   JS.truthy (cachedBarcode self) = true /\ now - lastFetch self < cacheTimeout) /\
  (JS.truthy (cachedBarcode self) = true -> now - lastFetch self < cacheTimeout ->
   r = cachedBarcode self /\ fetched = false /\ self' = self).
Proof.
  assert (Hnone : JS.truthy (cachedBarcode self) = true -> cachedBarcode self = None -> False).
  { intros Ht Hn. rewrite Hn in Ht. discriminate Ht. }
  unfold getCurrentBarcode.
  destruct (JS.truthy (cachedBarcode self)) eqn:Hc; cbn [andb].
  - destruct (now - lastFetch self <? cacheTimeout)%Z eqn:Hage.
    + apply Z.ltb_lt in Hage. fetch_cases.
    + apply Z.ltb_ge in Hage.
      destruct resp as [|[[[[|c s]|] ts]|]]; cbn [outcomeOf data_barcode]; rewrite ?Hc;
        fetch_cases.
  - destruct resp as [|[[[[|c s]|] ts]|]]; cbn [outcomeOf data_barcode]; rewrite ?Hc;
      fetch_cases.
Qed.

Lemma getCurrentBarcode_stale_on_error_witness :
  (getCurrentBarcode 5000 (outcomeOf RequestError)
     {| cachedBarcode := Some "123"; lastFetch := 0 |}).1.1 = Some "123" /\
  (getCurrentBarcode 40000 (outcomeOf (Body None))
     {| cachedBarcode := Some "123"; lastFetch := 0 |}).1.1 = Some "123".
Proof.
  split.
  - pose proof (getCurrentBarcode_stale_on_error 5000 RequestError
                  {| cachedBarcode := Some "123"; lastFetch := 0 |}) as H.
    simpl in H. destruct H as [_ [_ [_ [_ H]]]]. apply H; reflexivity.
  - pose proof (getCurrentBarcode_stale_on_error 40000 (Body None)
                  {| cachedBarcode := Some "123"; lastFetch := 0 |}) as H.
    simpl in H. destruct H as [H _]. apply H; [reflexivity | right; reflexivity].
Defined.

(** ** The pipeline, block by block *)

Lemma bind_run {A B : Type} (m : M A) (k : A -> M B)
    (cache : gmap string Project) (h : list Event) :
  (m ≫= k) cache h =
  let '(a, cache1, e1) := m cache h in
  let '(b, cache2, e2) := k a cache1 (h ++ e1)%list in
  (b, cache2, (e1 ++ e2)%list).
Proof. reflexivity. Qed.

Lemma run_eta {A : Type} (x : A * gmap string Project * list Event) :
  x = (x.1.1, x.1.2, x.2).
Proof. destruct x as [[a c] e]. reflexivity. Qed.

Lemma searchWithGoogle_run w q cache h :
  exists resp, searchWithGoogle w q cache h = (resp, cache, [EvGoogle q resp]).
Proof. eexists. reflexivity. Qed.

(** The fallback loop tries its queries in order and stops at the first
    that gets items. *)
Lemma fallbackLoop_spec w qs r0 cache h :
  let '(r, c', evs) := fallbackLoop w qs r0 cache h in
  c' = cache /\ forallb isSearchStep evs = true /\
  validAttempts qs (googleAttempts evs) = true /\
  (hasItems r = false -> hasItems r0 = false ->
     forallb noItemsAttempt (googleAttempts evs) = true /\ (googleAttempts evs).*1 = qs) /\
  (hasItems r = true -> hasItems r0 = false -> exists q, last (googleAttempts evs) = Some (q, r)).
Proof.
  revert r0 cache h. induction qs as [|q qs IH]; intros r0 cache h.
  - simpl. repeat split; auto. intros H1 H2; congruence.
  - cbn [fallbackLoop]. rewrite bind_run.
    destruct (searchWithGoogle_run w q cache h) as [resp ->].
    destruct (hasItems resp) eqn:Hresp.
    + simpl. rewrite String.eqb_refl, Hresp. simpl.
      repeat split; auto; try congruence. intros _ _. eauto.
    + rewrite bind_run. cbn [emit].
      specialize (IH resp cache ((h ++ [EvGoogle q resp]) ++ [EvSleep 500])%list).
      destruct (fallbackLoop w qs resp cache _) as [[r c'] evs].
      destruct IH as (Hc & Hs & Hv & Hempty & Hlast).
      simpl. rewrite String.eqb_refl, Hresp. simpl.
      repeat split; auto.
      * unfold noItemsAttempt at 1. simpl. rewrite Hresp. simpl. apply Hempty; auto.
      * f_equal. apply Hempty; auto.
      * intros Hr _. destruct (Hlast Hr Hresp) as [q' Hq']. exists q'.
        destruct (googleAttempts evs); [discriminate|]. exact Hq'.
Qed.

Lemma productSearch_spec w code q cache h :
  let '(r, c', evs) := productSearch w code q cache h in
  c' = cache /\ forallb isSearchStep evs = true /\
  validAttempts (q :: fallbackQueries code) (googleAttempts evs) = true /\
  (hasItems r = false ->
     forallb noItemsAttempt (googleAttempts evs) = true /\
     (googleAttempts evs).*1 = q :: fallbackQueries code) /\
  (hasItems r = true -> exists q', last (googleAttempts evs) = Some (q', r)).
Proof.
  unfold productSearch. rewrite bind_run.
  destruct (searchWithGoogle_run w q cache h) as [resp ->].
  destruct (hasItems resp) eqn:Hresp; cbn [negb].
  - simpl. rewrite String.eqb_refl, Hresp. simpl.
    repeat split; auto; try congruence. intros _. eauto.
  - pose proof (fallbackLoop_spec w (fallbackQueries code) resp cache
                  (h ++ [EvGoogle q resp])%list) as Hloop.
    destruct (fallbackLoop w (fallbackQueries code) resp cache _) as [[r c'] evs].
    destruct Hloop as (Hc & Hs & Hv & Hempty & Hlast).
    cbn [app googleAttempts forallb isSearchStep andb validAttempts].
    rewrite String.eqb_refl, Hresp. cbn [andb].
    repeat split; auto.
    + cbn [forallb]. unfold noItemsAttempt at 1. simpl. rewrite Hresp. simpl.
      apply Hempty; auto.
    + cbn [fmap list_fmap]. f_equal. apply Hempty; auto.
    + intros Hr. destruct (Hlast Hr Hresp) as [q' Hq']. exists q'.
      cbn [last]. destruct (googleAttempts evs); [discriminate|]. exact Hq'.
Qed.

Lemma firstLine_nonempty (content : option string) : firstLine content <> Some "".
Proof.
  unfold firstLine. destruct content as [s|]; simpl; [|discriminate].
  destruct (JS.trim s); discriminate.
Qed.

Lemma identify_run w code cache h :
  exists resp, identifyProductFromBarcode w code cache h = (resp, cache, [EvIdentify code resp])
               /\ resp <> Some "".
Proof.
  eexists. split; [reflexivity|].
  destruct (CEREBRAS_API_KEY w); [apply firstLine_nonempty | discriminate].
Qed.

Lemma analyze_run w code results cache h :
  exists resp, analyzeProductFromGoogleResults w code results cache h
               = (resp, cache, [EvAnalyze code resp]) /\ resp <> Some "".
Proof.
  eexists. split; [reflexivity|].
  destruct (CEREBRAS_API_KEY w); simpl; [|discriminate].
  destruct (hasItems results); simpl; [apply firstLine_nonempty | discriminate].
Qed.

Lemma instructionQuery_run w voiceCommand productTitle cache h :
  exists resp, generateInstructionQuery w voiceCommand productTitle cache h
               = (resp, cache, [EvInstructionQuery voiceCommand productTitle resp])
               /\ resp <> Some "".
Proof.
  eexists. split; [reflexivity|].
  destruct (CEREBRAS_API_KEY w); [apply firstLine_nonempty | discriminate].
Qed.

Lemma searchGoogleForPDFs_run w q cache h :
  exists resp, searchGoogleForPDFs w q cache h = (resp, cache, [EvGooglePDF q resp]).
Proof. eexists. reflexivity. Qed.

Lemma searchWithExa_run w q cache h :
  exists resp, searchWithExa w q cache h = (resp, cache, [EvExa q resp]).
Proof. eexists. reflexivity. Qed.

Lemma generate_run w productTitle pdfUrl cache h :
  exists stepList, generateInstructionsFromPDF w productTitle pdfUrl cache h
                   = (stepList, cache, [EvGenerate productTitle pdfUrl stepList])
                   /\ synthesized w productTitle stepList.
Proof.
  eexists. split; [reflexivity|]. unfold synthesized.
  destruct (ANTHROPIC_API_KEY w) eqn:Hk; simpl; [|left; reflexivity].
  destruct (anthropic w h productTitle pdfUrl) eqn:Ha; simpl; try (left; reflexivity).
  right. eauto.
Qed.

Lemma showIfSession_run sess lines cache h :
  exists evs, showIfSession sess lines cache h = (tt, cache, evs) /\
              forallb (fun e => match e with EvShowTextWall _ _ => true | _ => false end) evs = true.
Proof. destruct sess; eexists; split; reflexivity. Qed.

(** The tail of the pipeline always returns a project, stores it under
    the barcode key, and asks neither Exa nor Cerebras. *)
Lemma resolveInstructions_spec w code productTitle instructionQuery sess cache h :
  exists stepList evs,
    resolveInstructions w code productTitle instructionQuery sess cache h
    = (Some (pipelineProject code productTitle stepList),
       <[cacheKey code := pipelineProject code productTitle stepList]> cache, evs) /\
    synthesized w productTitle stepList /\
    forallb isOutput evs = true /\
    (exists pdfUrl, In (EvGenerate productTitle pdfUrl stepList) evs).
Proof.
  unfold resolveInstructions. rewrite bind_run.
  destruct (searchGoogleForPDFs_run w instructionQuery cache h) as [r ->].
  rewrite bind_run.
  set (h1 := (h ++ [EvGooglePDF instructionQuery r])%list).
  assert (Hsecond : exists r' e', (if negb (hasItems r) then searchWithGoogle w instructionQuery
                             else mret r) cache h1 = (r', cache, e') /\ forallb isOutput e' = true).
  { destruct (hasItems r); simpl.
    - eexists _, _. split; reflexivity.
    - destruct (searchWithGoogle_run w instructionQuery cache h1) as [r' ->].
      eexists _, _. split; reflexivity. }
  destruct Hsecond as (r' & e' & -> & He').
  set (h2 := (h1 ++ e')%list).
  assert (Hgeneric : exists stepList evs,
    (generateInstructionsFromPDF w productTitle "" ≫= fun stepList =>
       let project := pipelineProject code productTitle stepList in
       cacheSet ("barcode_" ++ code) project ≫= fun _ =>
       uploadProjectToS3 project code None ≫= fun _ => mret (Some project)) cache h2
    = (Some (pipelineProject code productTitle stepList),
       <[cacheKey code := pipelineProject code productTitle stepList]> cache, evs) /\
    synthesized w productTitle stepList /\ forallb isOutput evs = true /\
    (exists pdfUrl, In (EvGenerate productTitle pdfUrl stepList) evs)).
  { rewrite bind_run.
    destruct (generate_run w productTitle "" cache h2) as (stepList & -> & Hsyn).
    exists stepList. eexists. split; [reflexivity|].
    split; [exact Hsyn|]. split; [reflexivity|]. exists "". simpl. left. reflexivity. }
  destruct (hasItems r') eqn:Hr'.
  - destruct (findFirstValidPDF r') as [firstPDF|].
    + rewrite bind_run.
      destruct (generate_run w productTitle (manual_url firstPDF) cache h2)
        as (stepList & -> & Hsyn).
      rewrite bind_run. cbn [cacheSet]. rewrite bind_run. cbn [uploadProjectToS3 emit].
      rewrite bind_run.
      match goal with |- context[showIfSession ?s ?l ?c ?hh] =>
        destruct (showIfSession_run s l c hh) as (evs & -> & Hevs) end.
      exists stepList. eexists. split; [reflexivity|].
      split; [exact Hsyn|]. split.
      * cbn [app forallb isOutput andb]. rewrite forallb_app, He'. simpl.
        rewrite forallb_app. simpl. rewrite andb_true_r.
        clear -Hevs. induction evs as [|e evs IH]; [reflexivity|].
        simpl in *. destruct e; try discriminate. simpl. apply IH, Hevs.
      * exists (manual_url firstPDF). apply in_or_app. right. apply in_or_app. right.
        simpl. left. reflexivity.
    + destruct Hgeneric as (stepList & evs & Heq & Hsyn & Hout & pdfUrl & Hin).
      unfold mbind in Heq |- *. rewrite Heq.
      exists stepList. eexists. split; [reflexivity|].
      split; [exact Hsyn|]. split.
      * cbn [app forallb isOutput andb]. rewrite forallb_app, He'. exact Hout.
      * exists pdfUrl. apply in_or_app. right. apply in_or_app. right. exact Hin.
  - destruct Hgeneric as (stepList & evs & Heq & Hsyn & Hout & pdfUrl & Hin).
    unfold mbind in Heq |- *. rewrite Heq.
    exists stepList. eexists. split; [reflexivity|].
    split; [exact Hsyn|]. split.
    * cbn [app forallb isOutput andb]. rewrite forallb_app, He'. exact Hout.
    * exists pdfUrl. apply in_or_app. right. apply in_or_app. right. exact Hin.
Qed.

(** Every call of the pipeline ends in one of the outcomes. *)
Lemma pipeline_outcome w voiceCommand code sess cache h :
  let '(r, c', evs) := processVoiceCommandWithAI w voiceCommand code sess cache h in
  Outcome w voiceCommand code cache r c' evs.
Proof.
  unfold processVoiceCommandWithAI. rewrite bind_run. cbn [cacheGet app].
  destruct (cache !! cacheKey code) as [p|] eqn:Hcache.
  { cbn. apply OutCached. exact Hcache. }
  rewrite bind_run.
  destruct (identify_run w code cache (h ++ [])%list) as (x & -> & Hx).
  destruct x as [[|c q]|]; try (cbn; apply OutNoQuery; [exact Hcache | reflexivity | exact Hx]).
  rewrite bind_run.
  set (h1 := ((h ++ []) ++ [EvIdentify code (Some (String c q))])%list).
  pose proof (productSearch_spec w code (String c q) cache h1) as Hps.
  destruct (productSearch w code (String c q) cache h1) as [[ps c1] searchEvs].
  destruct Hps as (-> & Hsearch & Hvalid & Hempty & Hfound).
  destruct (hasItems ps) eqn:Hps; cbn [negb].
  - (* the primary search found items *)
    destruct (Hfound eq_refl) as [q' Hlast].
    assert (Hf : foundItems (googleAttempts searchEvs)) by (exists q', ps; auto).
    unfold resolveFromResults. rewrite bind_run.
    set (h2 := (h1 ++ searchEvs)%list).
    destruct (analyze_run w code ps cache h2) as (t & -> & Ht).
    destruct t as [[|c' t]|];
      try (cbn; apply OutNoTitle; [exact Hcache | auto | auto | auto | reflexivity | exact Ht]).
    rewrite bind_run.
    match goal with |- context[showIfSession ?s ?l ?c0 ?hh] =>
      destruct (showIfSession_run s l c0 hh) as (shows & -> & Hshows) end.
    rewrite bind_run.
    match goal with |- context[generateInstructionQuery ?w0 ?v ?t0 ?c0 ?hh] =>
      destruct (instructionQuery_run w0 v t0 c0 hh) as (y & -> & Hy) end.
    destruct y as [[|c'' y]|];
      try (cbn; apply (OutNoInstructionQuery w voiceCommand code cache (String c q)
                         searchEvs shows (String c' t)); auto; discriminate).
    match goal with |- context[resolveInstructions ?w0 ?c0 ?t0 ?i0 ?s0 ?ca ?hh] =>
      destruct (resolveInstructions_spec w0 c0 t0 i0 s0 ca hh)
        as (stepList & tailEvs & -> & Hsyn & Hout & Hgen) end.
    cbn. apply (OutResolved w voiceCommand code cache (String c q) searchEvs shows tailEvs
                  (String c' t) (String c'' y) stepList); auto; discriminate.
  - (* nothing found: the Exa branch *)
    destruct (Hempty eq_refl) as [Hall Hqs].
    unfold resolveWithExa. rewrite bind_run.
    match goal with |- context[searchWithExa ?w0 ?q0 ?c0 ?hh] =>
      destruct (searchWithExa_run w0 q0 c0 hh) as (x & ->) end.
    destruct x as [[[|firstResult others]|]|]; cbn.
    + apply (OutExa w voiceCommand code cache (String c q) searchEvs (Some (Some []))); auto.
    + apply (OutExa w voiceCommand code cache (String c q) searchEvs
               (Some (Some (firstResult :: others)))); auto.
    + apply (OutExa w voiceCommand code cache (String c q) searchEvs (Some None)); auto.
    + apply (OutExa w voiceCommand code cache (String c q) searchEvs None); auto.
Qed.

Lemma pipeline_outcome_eq w voiceCommand code sess cache h r c' evs :
  processVoiceCommandWithAI w voiceCommand code sess cache h = (r, c', evs) ->
  Outcome w voiceCommand code cache r c' evs.
Proof.
  intros H. pose proof (pipeline_outcome w voiceCommand code sess cache h) as Ho.
  rewrite H in Ho. exact Ho.
Qed.

(** ** The transcript of a call *)

Lemma count_app (kind : Event -> bool) (a b : list Event) :
  count kind (a ++ b)%list = (count kind a + count kind b)%nat.
Proof. unfold count. rewrite List.filter_app, List.length_app. reflexivity. Qed.

Lemma count_cons (kind : Event -> bool) (e : Event) (l : list Event) :
  count kind (e :: l) = ((if kind e then 1 else 0) + count kind l)%nat.
Proof. unfold count. simpl. destruct (kind e); reflexivity. Qed.

Lemma count_nil (kind : Event -> bool) : count kind [] = 0%nat.
Proof. reflexivity. Qed.

Lemma count_none (kind P : Event -> bool) (l : list Event) :
  forallb P l = true -> (forall e, P e = true -> kind e = false) -> count kind l = 0%nat.
Proof.
  intros Hall Hdisj. induction l as [|e l IH]; [reflexivity|].
  simpl in Hall. apply andb_true_iff in Hall as [He Hl].
  rewrite count_cons, (Hdisj e He), (IH Hl). reflexivity.
Qed.

Lemma fallbackLoop_counts w qs r0 cache h :
  let evs := (fallbackLoop w qs r0 cache h).2 in
  (count isGoogle evs <= List.length qs)%nat /\
  (count isSleep evs <= List.length qs)%nat /\
  Forall (fun e => isSleep e = true -> e = EvSleep 500) evs.
Proof.
  revert r0 cache h. induction qs as [|q qs IH]; intros r0 cache h.
  - simpl. repeat split; auto.
  - cbn [fallbackLoop]. rewrite bind_run.
    destruct (searchWithGoogle_run w q cache h) as [resp ->].
    destruct (hasItems resp).
    + simpl. repeat split; try (unfold count; simpl; lia).
      constructor; [discriminate | constructor].
    + rewrite bind_run. cbn [emit].
      specialize (IH resp cache ((h ++ [EvGoogle q resp]) ++ [EvSleep 500])%list).
      destruct (fallbackLoop w qs resp cache _) as [[r c'] evs].
      simpl in IH. destruct IH as (Hg & Hs & Hall).
      cbn [snd app]. rewrite !count_cons. cbn [isGoogle isSleep List.length].
      repeat split; try lia.
      constructor; [discriminate|]. constructor; [reflexivity | exact Hall].
Qed.

Lemma productSearch_counts w code q cache h :
  let evs := (productSearch w code q cache h).2 in
  (count isGoogle evs <= 5)%nat /\ (count isSleep evs <= 4)%nat /\
  Forall (fun e => isSleep e = true -> e = EvSleep 500) evs /\
  forallb isSearchStep evs = true.
Proof.
  assert (Hsearch : forallb isSearchStep (productSearch w code q cache h).2 = true).
  { pose proof (productSearch_spec w code q cache h) as Hspec.
    destruct (productSearch w code q cache h) as [[r c'] evs]. apply Hspec. }
  split; [|split; [|split; [|exact Hsearch]]]; clear Hsearch.
  all: unfold productSearch; rewrite bind_run;
    destruct (searchWithGoogle_run w q cache h) as [resp ->];
    destruct (hasItems resp); cbn [negb];
    [ simpl; try (unfold count; simpl; lia);
      try (constructor; [discriminate | constructor])
    | pose proof (fallbackLoop_counts w (fallbackQueries code) resp cache
                    (h ++ [EvGoogle q resp])%list) as Hloop;
      destruct (fallbackLoop w (fallbackQueries code) resp cache _) as [[r c'] evs];
      simpl in Hloop; destruct Hloop as (Hg & Hs & Hall);
      cbn [snd app]; rewrite ?count_cons; cbn [isGoogle isSleep];
      try lia; try (constructor; [discriminate | exact Hall]) ].
Qed.

(** The events of the tail of the pipeline, one by one. *)
Lemma resolveInstructions_events w code productTitle instructionQuery sess cache h :
  exists r second stepList pdfUrl uploaded shows,
    let p := pipelineProject code productTitle stepList in
    resolveInstructions w code productTitle instructionQuery sess cache h
    = (Some p, <[cacheKey code := p]> cache,
       EvGooglePDF instructionQuery r :: second ++
       EvGenerate productTitle pdfUrl stepList :: EvUpload p code uploaded :: shows)%list /\
    (second = [] \/ exists r', second = [EvGoogle instructionQuery r']) /\
    (uploaded = Some pdfUrl \/ (uploaded = None /\ pdfUrl = "")) /\
    forallb isShow shows = true /\ (List.length shows <= 1)%nat.
Proof.
  unfold resolveInstructions. rewrite bind_run.
  destruct (searchGoogleForPDFs_run w instructionQuery cache h) as [r ->].
  rewrite bind_run.
  set (h1 := (h ++ [EvGooglePDF instructionQuery r])%list).
  assert (Hsecond : exists r' second,
             (if negb (hasItems r) then searchWithGoogle w instructionQuery else mret r)
               cache h1 = (r', cache, second) /\
             (second = [] \/ exists r'', second = [EvGoogle instructionQuery r''])).
  { destruct (hasItems r); simpl.
    - eexists _, _. split; [reflexivity | left; reflexivity].
    - destruct (searchWithGoogle_run w instructionQuery cache h1) as [r' ->].
      eexists _, _. split; [reflexivity | right; eauto]. }
  destruct Hsecond as (r' & second & -> & Hsecond).
  set (h2 := (h1 ++ second)%list).
  exists r, second.
  assert (Hgeneric : exists stepList,
    let p := pipelineProject code productTitle stepList in
    (generateInstructionsFromPDF w productTitle "" ≫= fun stepList =>
       let project := pipelineProject code productTitle stepList in
       cacheSet ("barcode_" ++ code) project ≫= fun _ =>
       uploadProjectToS3 project code None ≫= fun _ => mret (Some project)) cache h2
    = (Some p, <[cacheKey code := p]> cache,
       [EvGenerate productTitle "" stepList; EvUpload p code None])).
  { rewrite bind_run.
    destruct (generate_run w productTitle "" cache h2) as (stepList & -> & _).
    exists stepList. reflexivity. }
  destruct (hasItems r') eqn:Hr'.
  - destruct (findFirstValidPDF r') as [firstPDF|].
    + rewrite bind_run.
      destruct (generate_run w productTitle (manual_url firstPDF) cache h2)
        as (stepList & -> & _).
      rewrite bind_run. cbn [cacheSet]. rewrite bind_run. cbn [uploadProjectToS3 emit].
      rewrite bind_run.
      match goal with |- context[showIfSession ?s ?l ?c ?hh] =>
        assert (Hshow : exists shows, showIfSession s l c hh = (tt, c, shows) /\
                   forallb isShow shows = true /\ (List.length shows <= 1)%nat)
          by (destruct s; eexists; repeat split; simpl; lia);
        destruct Hshow as (shows & -> & Hshows & Hlen) end.
      exists stepList, (manual_url firstPDF), (Some (manual_url firstPDF)), shows.
      cbn zeta. split; [|auto]. cbn. rewrite app_nil_r. reflexivity.
    + destruct Hgeneric as (stepList & Heq).
      unfold mbind in Heq |- *. cbn zeta in Heq. rewrite Heq.
      exists stepList, "", None, []. cbn zeta. split; [reflexivity|].
      repeat split; auto.
  - destruct Hgeneric as (stepList & Heq).
    unfold mbind in Heq |- *. cbn zeta in Heq. rewrite Heq.
    exists stepList, "", None, []. cbn zeta. split; [reflexivity|].
    repeat split; auto.
Qed.

(** The transcript of a call, stage by stage. *)
Lemma pipeline_events w voiceCommand code sess cache h r c' evs :
  processVoiceCommandWithAI w voiceCommand code sess cache h = (r, c', evs) ->
  (evs = [] /\ c' = cache /\ r = cache !! cacheKey code /\ is_Some r) \/
  (cache !! cacheKey code = None /\
   ((exists x, evs = [EvIdentify code x] /\ r = None /\ c' = cache) \/
    exists q h1 tailEvs,
      evs = (EvIdentify code (Some q) :: (productSearch w code q cache h1).2 ++ tailEvs)%list /\
      ((exists x, tailEvs = [EvExa q x] /\ r = exaProject code q x /\ c' = cache) \/
       (exists t, tailEvs = [EvAnalyze code t] /\ r = None /\ c' = cache) \/
       (exists t shows y,
           tailEvs = (EvAnalyze code (Some t) :: shows ++
                      [EvInstructionQuery voiceCommand t y])%list /\
           forallb isShow shows = true /\ (List.length shows <= 1)%nat /\
           r = None /\ c' = cache) \/
       (exists t shows iq h2,
           tailEvs = (EvAnalyze code (Some t) :: shows ++
                      EvInstructionQuery voiceCommand t (Some iq) ::
                      (resolveInstructions w code t iq sess cache h2).2)%list /\
           forallb isShow shows = true /\ (List.length shows <= 1)%nat /\
           r = (resolveInstructions w code t iq sess cache h2).1.1 /\
           c' = (resolveInstructions w code t iq sess cache h2).1.2)))).
Proof.
  intros Hrun.
  unfold processVoiceCommandWithAI in Hrun. rewrite bind_run in Hrun.
  cbn [cacheGet app] in Hrun.
  destruct (cache !! cacheKey code) as [p|] eqn:Hcache.
  { cbn in Hrun. injection Hrun as <- <- <-. left. repeat split; eauto. }
  right. split; [reflexivity|].
  rewrite bind_run in Hrun.
  destruct (identify_run w code cache (h ++ [])%list) as (x & Hid & Hx).
  rewrite Hid in Hrun.
  destruct x as [[|c q]|];
    try (cbn in Hrun; injection Hrun as <- <- <-; left; eauto; fail).
  right. rewrite bind_run in Hrun.
  set (h1 := ((h ++ []) ++ [EvIdentify code (Some (String c q))])%list) in *.
  exists (String c q), h1.
  destruct (productSearch w code (String c q) cache h1) as [[ps c1] searchEvs] eqn:Hps.
  assert (Hc1 : c1 = cache).
  { pose proof (productSearch_spec w code (String c q) cache h1) as Hspec.
    rewrite Hps in Hspec. apply Hspec. }
  subst c1. cbn [snd].
  destruct (hasItems ps); cbn [negb] in Hrun.
  - unfold resolveFromResults in Hrun. rewrite bind_run in Hrun.
    set (h2 := (h1 ++ searchEvs)%list) in *.
    destruct (analyze_run w code ps cache h2) as (t & Han & Ht). rewrite Han in Hrun.
    destruct t as [[|ct t]|];
      try (cbn in Hrun; injection Hrun as <- <- <-;
           eexists; split; [reflexivity|]; right; left; eauto; fail).
    rewrite bind_run in Hrun.
    match type of Hrun with context[showIfSession ?s ?l ?c0 ?hh] =>
      assert (Hshow : exists shows, showIfSession s l c0 hh = (tt, c0, shows) /\
                 forallb isShow shows = true /\ (List.length shows <= 1)%nat)
        by (destruct s; eexists; repeat split; simpl; lia);
      destruct Hshow as (shows & Hsh & Hshows & Hlen); rewrite Hsh in Hrun end.
    rewrite bind_run in Hrun.
    match type of Hrun with context[generateInstructionQuery ?w0 ?v ?t0 ?c0 ?hh] =>
      destruct (instructionQuery_run w0 v t0 c0 hh) as (y & Hiq & Hy); rewrite Hiq in Hrun end.
    destruct y as [[|cy y]|].
    + cbn in Hrun. injection Hrun as <- <- <-.
      eexists. split; [reflexivity|]. right. right. left.
      exists (String ct t), shows, (Some ""). repeat split; auto.
    + match type of Hrun with context[resolveInstructions ?w0 ?c0 ?t0 ?i0 ?s0 ?ca ?hh] =>
        set (h3 := hh) in *;
        destruct (resolveInstructions w0 c0 t0 i0 s0 ca h3) as [[r3 c3] e3] eqn:Hres end.
      cbn in Hrun. injection Hrun as <- <- <-.
      eexists. split; [reflexivity|]. right. right. right.
      exists (String ct t), shows, (String cy y), h3. rewrite Hres. repeat split; auto.
    + cbn in Hrun. injection Hrun as <- <- <-.
      eexists. split; [reflexivity|]. right. right. left.
      exists (String ct t), shows, None. repeat split; auto.
  - unfold resolveWithExa in Hrun. rewrite bind_run in Hrun.
    match type of Hrun with context[searchWithExa ?w0 ?q0 ?c0 ?hh] =>
      destruct (searchWithExa_run w0 q0 c0 hh) as (x & Hexa); rewrite Hexa in Hrun end.
    exists [EvExa (String c q) x].
    destruct x as [[[|firstResult others]|]|]; cbn in Hrun; injection Hrun as <- <- <-;
      (split; [reflexivity|]); left; eexists; repeat split; reflexivity.
Qed.

(** ** Where the synthesizer is asked *)

Lemma synthesisAt_none w h evs : count isGenerate evs = 0%nat -> synthesisAt w h evs.
Proof.
  intros Hc before t url stepList after ->.
  rewrite count_app, count_cons in Hc. simpl in Hc. lia.
Qed.

Lemma synthesisAt_app w h e1 e2 :
  synthesisAt w h e1 -> synthesisAt w (h ++ e1)%list e2 -> synthesisAt w h (e1 ++ e2)%list.
Proof.
  intros H1 H2 before t url stepList after Heq.
  apply app_eq_app in Heq as [l [[-> Hl]|[-> Hl]]].
  - destruct l as [|e l].
    + simpl in Hl. pose proof (H2 [] t url stepList after (eq_sym Hl)) as H.
      rewrite !app_nil_r in H. exact H.
    + injection Hl as <- Hl. exact (H1 before t url stepList l eq_refl).
  - pose proof (H2 l t url stepList after Hl) as H.
    rewrite <- app_assoc in H. exact H.
Qed.

Lemma synthesisAt_bind {A B : Type} w (m : M A) (k : A -> M B) cache h :
  synthesisAt w h (m cache h).2 ->
  (forall a c, synthesisAt w (h ++ (m cache h).2)%list (k a c (h ++ (m cache h).2)%list).2) ->
  synthesisAt w h ((m ≫= k) cache h).2.
Proof.
  intros Hm Hk. rewrite bind_run.
  destruct (m cache h) as [[a c1] e1]. simpl in *.
  specialize (Hk a c1). destruct (k a c1 (h ++ e1)%list) as [[b c2] e2]. simpl in *.
  apply synthesisAt_app; assumption.
Qed.

Lemma synthesisAt_generate w t url cache h :
  synthesisAt w h (generateInstructionsFromPDF w t url cache h).2.
Proof.
  intros before t' url' stepList after Heq. simpl in Heq.
  destruct before as [|e before].
  - injection Heq as <- <- <- _. rewrite app_nil_r. reflexivity.
  - injection Heq as _ Heq. destruct before; discriminate Heq.
Qed.

Lemma synthesisAt_productSearch w code q cache h :
  synthesisAt w h (productSearch w code q cache h).2.
Proof.
  apply synthesisAt_none.
  pose proof (productSearch_counts w code q cache h) as (_ & _ & _ & Hsearch).
  apply (count_none _ isSearchStep); [exact Hsearch|].
  intros [] ?; try discriminate; reflexivity.
Qed.

Lemma synthesisAt_resolveInstructions w code t iq sess cache h :
  synthesisAt w h (resolveInstructions w code t iq sess cache h).2.
Proof.
  unfold resolveInstructions, showIfSession.
  repeat first
    [ apply synthesisAt_generate
    | apply synthesisAt_none; reflexivity
    | apply synthesisAt_bind; [|intros ? ?]
    | match goal with |- context [if ?b then _ else _] => destruct b end
    | match goal with |- context [match ?x with _ => _ end] => destruct x end ].
Qed.

Lemma synthesisAt_pipeline w voiceCommand code sess cache h :
  synthesisAt w h (processVoiceCommandWithAI w voiceCommand code sess cache h).2.
Proof.
  unfold processVoiceCommandWithAI, resolveFromResults, resolveWithExa, showIfSession.
  repeat first
    [ apply synthesisAt_resolveInstructions
    | apply synthesisAt_productSearch
    | apply synthesisAt_none; reflexivity
    | apply synthesisAt_bind; [|intros ? ?]
    | match goal with |- context [if ?b then _ else _] => destruct b end
    | match goal with |- context [match ?x with _ => _ end] => destruct x end ].
Qed.

Lemma count_pos (kind : Event -> bool) (e : Event) (l : list Event) :
  In e l -> kind e = true -> (0 < count kind l)%nat.
Proof.
  intros Hin He. apply in_split in Hin as (l1 & l2 & ->).
  rewrite count_app, count_cons, He. lia.
Qed.

(** A synthesis event of a call carries the title and the steps of the
    project the call returns and stores. *)
Lemma generate_event_result w voiceCommand code sess cache h r c' evs t url stepList :
  processVoiceCommandWithAI w voiceCommand code sess cache h = (r, c', evs) ->
  In (EvGenerate t url stepList) evs ->
  r = Some (pipelineProject code t stepList) /\
  c' = <[cacheKey code := pipelineProject code t stepList]> cache.
Proof.
  intros Hrun Hin. apply pipeline_events in Hrun.
  destruct Hrun as [(-> & _)|(_ & [(x & -> & _)|(q & h1 & tailEvs & -> & Htail)])].
  - destruct Hin.
  - in_cases Hin.
  - pose proof (productSearch_counts w code q cache h1) as (_ & _ & _ & Hsearch).
    destruct Htail as [(x & -> & _)|[(t0 & -> & _)|[(t0 & shows & y & -> & Hshows & _)|
                       (t0 & shows & iq & h2 & -> & Hshows & _ & -> & ->)]]].
    + in_cases Hin.
    + in_cases Hin.
    + in_cases Hin.
    + destruct (resolveInstructions_events w code t0 iq sess cache h2)
        as (r0 & second & stepList0 & pdfUrl & uploaded & shows2 & Heq & Hsecond & _ & Hshows2 & _).
      cbn zeta in Heq. rewrite Heq in Hin |- *. cbn [fst snd] in *.
      destruct Hsecond as [->|[r' ->]]; in_cases Hin; injection Hin as <- <- <-;
        split; reflexivity.
Qed.

(** ** Reads and writes of the cache *)

Lemma writesOnly_ret key {A : Type} (a : A) : writesOnly key (mret a).
Proof. intros h. exists a, None, []. reflexivity. Qed.

Lemma writesOnly_call key {A : Type} (respond : list Event -> A) (ev : A -> Event) :
  writesOnly key (call respond ev).
Proof. intros h. exists (respond h), None, [ev (respond h)]. reflexivity. Qed.

Lemma writesOnly_emit key (e : Event) : writesOnly key (emit e).
Proof. intros h. exists tt, None, [e]. reflexivity. Qed.

Lemma writesOnly_cacheSet key (p : Project) : writesOnly key (cacheSet key p).
Proof. intros h. exists tt, (Some p), []. reflexivity. Qed.

Lemma writesOnly_bind key {A B : Type} (m : M A) (k : A -> M B) :
  writesOnly key m -> (forall a, writesOnly key (k a)) -> writesOnly key (m ≫= k).
Proof.
  intros Hm Hk h.
  destruct (Hm h) as (a & w1 & e1 & Hm1).
  destruct (Hk a (h ++ e1)%list) as (b & w2 & e2 & Hk2).
  exists b, (match w2 with Some _ => w2 | None => w1 end), (e1 ++ e2)%list.
  intros cache. rewrite bind_run, Hm1, Hk2.
  destruct w2 as [p2|]; [|reflexivity].
  destruct w1 as [p1|]; [|reflexivity].
  simpl. rewrite insert_insert_eq. reflexivity.
Qed.

Lemma writesOnly_fallbackLoop key w queries r :
  writesOnly key (fallbackLoop w queries r).
Proof.
  revert r. induction queries as [|q queries IH]; intros r; simpl.
  - apply writesOnly_ret.
  - apply writesOnly_bind; [apply writesOnly_call|].
    intros a. destruct (hasItems a); [apply writesOnly_ret|].
    apply writesOnly_bind; [apply writesOnly_emit | intros _; apply IH].
Qed.

Lemma writesOnly_miss w voiceCommand code sess :
  writesOnly (cacheKey code)
    (productIdQuery ← identifyProductFromBarcode w code;
     match productIdQuery with
     | Some (String c q) =>
         let productIdQuery := String c q in
         productSearchResults ← productSearch w code productIdQuery;
         if negb (hasItems productSearchResults)
         then resolveWithExa w code productIdQuery
         else resolveFromResults w voiceCommand code sess productSearchResults
     | _ => mret None
     end).
Proof.
  unfold identifyProductFromBarcode, productSearch, resolveWithExa, resolveFromResults,
    resolveInstructions, analyzeProductFromGoogleResults, generateInstructionQuery,
    searchWithGoogle, searchGoogleForPDFs, searchWithExa, generateInstructionsFromPDF,
    uploadProjectToS3, showIfSession, cacheKey.
  repeat first
    [ apply writesOnly_ret
    | apply writesOnly_call
    | apply writesOnly_emit
    | apply writesOnly_cacheSet
    | apply writesOnly_fallbackLoop
    | apply writesOnly_bind; [|intros ?]
    | match goal with |- context [if ?b then _ else _] => destruct b end
    | match goal with |- context [match ?x with _ => _ end] => destruct x end ].
Qed.

Lemma existsb_none (P Q : Event -> bool) (l : list Event) :
  forallb Q l = true -> (forall e, Q e = true -> P e = false) -> existsb P l = false.
Proof.
  intros Hall Hdisj. induction l as [|e l IH]; [reflexivity|].
  simpl in *. apply andb_true_iff in Hall as [He Hl].
  rewrite (Hdisj e He), (IH Hl). reflexivity.
Qed.

Lemma outcome_store w voiceCommand code cache r c' evs :
  Outcome w voiceCommand code cache r c' evs ->
  c' = cache \/
  exists p, r = Some p /\ c' = <[cacheKey code := p]> cache /\ existsb isExa evs = false.
Proof.
  intros Ho. destruct Ho; auto.
  right. eexists. split; [reflexivity|]. split; [reflexivity|].
  cbn [existsb isExa orb]. rewrite existsb_app. cbn [existsb isExa orb].
  rewrite existsb_app. cbn [existsb isExa orb].
  rewrite (existsb_none isExa isSearchStep), (existsb_none isExa isShow),
    (existsb_none isExa isOutput); auto.
  all: intros []; intros Hq; try discriminate Hq; reflexivity.
Qed.

(** ** The synthesizer and the empty array *)

(** C6: the synthesizer can return zero steps.  Without a configured key,
    or with a response that is not used (request error, no bracketed array,
    parse failure), it returns exactly the kit-build template for a title
    containing "lego", else exactly the furniture template for a title
    containing "shelf", "desk", "table" or "chair", else exactly the generic
    template, five steps in each case.  But a response whose bracketed array
    parses to the empty array is returned as it is, and only then is the
    result empty.  The pipeline then returns and stores a project without
    steps, of which showInstructionStep has no first step to show.  The last
    part is such a call. *)
Theorem synthesizer_returns_empty_array (w : World) (productTitle pdfUrl : string)
    (cache : gmap string Project) (h : list Event) :
  let stepList := (generateInstructionsFromPDF w productTitle pdfUrl cache h).1.1 in
  (ANTHROPIC_API_KEY w = false \/ unusable (anthropic w h productTitle pdfUrl) ->
   (contains productTitle "lego" -> stepList = legoTemplate) /\
   (~ contains productTitle "lego" ->
    contains productTitle "shelf" \/ contains productTitle "desk" \/
    contains productTitle "table" \/ contains productTitle "chair" ->
    stepList = furnitureTemplate) /\
   (~ contains productTitle "lego" ->
    ~ (contains productTitle "shelf" \/ contains productTitle "desk" \/
       contains productTitle "table" \/ contains productTitle "chair") ->
    stepList = genericTemplate) /\
   List.length stepList = 5%nat) /\
  (stepList = [] <->
   ANTHROPIC_API_KEY w = true /\ anthropic w h productTitle pdfUrl = Parsed []) /\
  (forall voiceCommand code sess cache0 h0 r cache' evs t url,
     processVoiceCommandWithAI w voiceCommand code sess cache0 h0 = (r, cache', evs) ->
     In (EvGenerate t url []) evs ->
     exists p, r = Some p /\ steps p = [] /\ totalSteps p = 0 /\ name p = t /\
               cache' !! cacheKey code = Some p /\
               shown (ShowStep p 0) = false) /\
  (let w0 := widgetWorld (Some "acme widget manual") (Parsed []) in
   (generateInstructionsFromPDF w0 "Acme Widget" "" ∅ []).1.1 = [] /\
   (processVoiceCommandWithAI w0 "scan" "0123456789012" false ∅ []).1.1
   = Some (pipelineProject "0123456789012" "Acme Widget" [])).
Proof.
  intros stepList. subst stepList. rewrite generate_value.
  split; [|split; [|split]].
  - intros Hfb.
    assert (Heq : (if negb (ANTHROPIC_API_KEY w)
                   then generateFallbackInstructions productTitle
                   else stepsOfOutcome productTitle (anthropic w h productTitle pdfUrl))
                  = generateFallbackInstructions productTitle).
    { destruct (ANTHROPIC_API_KEY w); simpl; [|reflexivity].
      destruct Hfb as [Hk|Hu]; [discriminate|].
      destruct (anthropic w h productTitle pdfUrl); simpl in *; tauto. }
    rewrite Heq. unfold generateFallbackInstructions.
    rewrite <- isLego_contains, <- isFurniture_contains.
    destruct (isLego productTitle), (isFurniture productTitle);
      repeat split; intros; try reflexivity; try congruence; exfalso; auto.
  - destruct (ANTHROPIC_API_KEY w); simpl.
    + destruct (anthropic w h productTitle pdfUrl) as [st| | |parsed]; simpl.
      1-3: split; [intros He; pose proof (fallback_length productTitle) as Hl;
                   rewrite He in Hl; discriminate | intros [_ ?]; discriminate].
      split; [intros ->; auto | intros [_ He]; congruence].
    + split; [intros He; pose proof (fallback_length productTitle) as Hl;
              rewrite He in Hl; discriminate | intros [? _]; discriminate].
  - intros voiceCommand code sess cache0 h0 r cache' evs t url Hrun Hin.
    destruct (generate_event_result _ _ _ _ _ _ _ _ _ _ _ _ Hrun Hin) as [-> ->].
    eexists. split; [reflexivity|]. repeat split.
    apply lookup_insert_eq.
  - split; reflexivity.
Qed.

(** ** Degraded path *)

(** C4: when every primary search of a call comes back without items (the
    product-identification query and each deterministic fallback query) and
    Exa returns at least one result, the call returns a project with exactly
    three steps, named after the title of Exa's first result, or after the
    product-identification query when that title is missing or empty; no
    product analysis, instruction query or step synthesis takes place, and
    the cache is left as it was. *)
Theorem degraded_path (w : World) (voiceCommand code : string) (sess : bool)
    (cache : gmap string Project) (h : list Event)
    (r : option Project) (cache' : gmap string Project) (evs : list Event)
    (q : string) (firstResult : ExaResult) (others : list ExaResult) :
  processVoiceCommandWithAI w voiceCommand code sess cache h = (r, cache', evs) ->
  (forall q' resp, In (EvGoogle q' resp) evs -> hasItems resp = false) ->
  In (EvExa q (Some (Some (firstResult :: others)))) evs ->
  exists p,
    r = Some p /\
    List.length (steps p) = 3%nat /\ totalSteps p = 3 /\
    id p = "barcode_" ++ code /\
    (forall t, exa_title firstResult = Some t -> t <> "" -> name p = t) /\
    (exa_title firstResult = None \/ exa_title firstResult = Some "" -> name p = q) /\
    In (EvIdentify code (Some q)) evs /\
    forallb (fun e => negb (isSynthesis e)) evs = true /\
    cache' = cache.
Proof.
  intros Hrun Hempty Hexa.
  apply pipeline_outcome_eq in Hrun.
  inversion Hrun; subst; clear Hrun.
  - in_cases Hexa.
  - in_cases Hexa.
  - in_cases Hexa. injection Hexa as -> ->.
    exists (degradedProject code q firstResult). repeat split.
    + intros t Ht Hne. simpl. rewrite Ht. destruct t; [congruence | reflexivity].
    + intros [Ht|Ht]; simpl; rewrite Ht; reflexivity.
    + left. reflexivity.
    + simpl. rewrite forallb_app. simpl. rewrite andb_true_r.
      match goal with Hs : forallb isSearchStep ?l = true |- _ =>
        clear -Hs; induction l as [|e l IH]; [reflexivity|];
        simpl in *; destruct e; try discriminate; simpl; apply IH, Hs end.
  - in_cases Hexa.
  - in_cases Hexa.
  - in_cases Hexa.
Qed.

Lemma degraded_path_witness :
  exists p,
    (processVoiceCommandWithAI exaOnlyWorld "scan" "0123456789012" false ∅ []).1.1 = Some p /\
    List.length (steps p) = 3%nat /\ name p = "Acme Widget Manual".
Proof.
  destruct (degraded_path exaOnlyWorld "scan" "0123456789012" false ∅ [] _ _ _
              "0123456789012 product" acmeResult [] (run_eta _))
    as (p & Hr & Hlen & _ & _ & Hname & _).
  - intros q' resp Hin. vm_compute in Hin.
    repeat (destruct Hin as [Hin|Hin]; [try discriminate Hin; injection Hin as _ <-;
                                         reflexivity|]).
    destruct Hin.
  - vm_compute. do 10 right. left. reflexivity.
  - exists p. split; [exact Hr|]. split; [exact Hlen|]. apply Hname; [reflexivity | discriminate].
Defined.

(** ** Failure after the product title is known *)

Lemma falsy_some (x : string) : JS.truthy (Some x) = false -> Some x <> Some "" -> False.
Proof. destruct x; [congruence | discriminate]. Qed.

Lemma truthy_some (x : string) : x <> "" -> JS.truthy (Some x) = true.
Proof. destruct x; [congruence | reflexivity]. Qed.

(** C3 (amended): once the instruction query has been composed, the call
    never returns absent: whatever the manual search, the manual location and
    the step synthesis give, it returns a project for the product title, whose
    steps are the template steps or the provider's parsed steps, and stores it
    in the cache under the barcode.  A failed composition of the instruction
    query, after the title is known, makes the call return absent and leaves
    the cache as it is.  So once a title is known the instruction query is
    always asked for, and the call returns absent exactly when its
    composition fails. *)
Theorem no_failure_after_instruction_query (w : World) (voiceCommand code : string)
    (sess : bool) (cache : gmap string Project) (h : list Event)
    (r : option Project) (cache' : gmap string Project) (evs : list Event)
    (productTitle : string) :
  processVoiceCommandWithAI w voiceCommand code sess cache h = (r, cache', evs) ->
  (forall instructionQuery,
     In (EvInstructionQuery voiceCommand productTitle (Some instructionQuery)) evs ->
     exists p,
       r = Some p /\ name p = productTitle /\ id p = "barcode_" ++ code /\
       totalSteps p = Z.of_nat (List.length (steps p)) /\
       cache' !! cacheKey code = Some p /\
       (steps p = generateFallbackInstructions productTitle \/
        exists h' pdfUrl, ANTHROPIC_API_KEY w = true /\
                          anthropic w h' productTitle pdfUrl = Parsed (steps p))) /\
  (forall y,
     In (EvInstructionQuery voiceCommand productTitle y) evs -> JS.truthy y = false ->
     y = None /\ r = None /\ cache' = cache /\
     In (EvAnalyze code (Some productTitle)) evs) /\
  (In (EvAnalyze code (Some productTitle)) evs ->
   productTitle <> "" /\
   exists y, In (EvInstructionQuery voiceCommand productTitle y) evs /\
             (r = None <-> y = None) /\ (is_Some r <-> is_Some y)).
Proof.
  intros Hrun.
  apply pipeline_outcome_eq in Hrun.
  inversion Hrun; subst; clear Hrun.
  - repeat split; intros; try contradiction.
    all: match goal with Hin : In _ [] |- _ => destruct Hin end.
  - split; [|split].
    + intros iq Hin. in_cases Hin.
    + intros y Hin. in_cases Hin.
    + intros Hin. in_cases Hin.
  - split; [|split].
    + intros iq Hin. in_cases Hin.
    + intros y Hin. in_cases Hin.
    + intros Hin. in_cases Hin.
  - split; [|split].
    + intros iq Hin. in_cases Hin.
    + intros y Hin. in_cases Hin.
    + intros Hin. in_cases Hin. injection Hin as ->. exfalso. eapply falsy_some; eauto.
  - split; [|split].
    + intros iq Hin. in_cases Hin. injection Hin as -> ->. exfalso. eapply falsy_some; eauto.
    + intros y0 Hin Hy. in_cases Hin. injection Hin as -> ->.
      split; [destruct y0 as [s|]; [exfalso; eapply falsy_some; eauto | reflexivity]|].
      split; [reflexivity|]. split; [reflexivity|].
      right. apply in_or_app. right. left. reflexivity.
    + intros Hin. in_cases Hin. injection Hin as ->.
      split; [assumption|].
      exists y. split.
      * right. apply in_or_app. right. right. apply in_or_app. right. left. reflexivity.
      * assert (Hy : y = None)
          by (destruct y as [s|]; [exfalso; eapply falsy_some; eauto | reflexivity]).
        subst y. split; [tauto|]. split; intros [? Hs]; discriminate Hs.
  - split; [|split].
    + intros iq Hin. in_cases Hin. injection Hin as -> ->.
      eexists. split; [reflexivity|]. repeat split; auto.
      apply lookup_insert_eq.
    + intros y Hin Hy. in_cases Hin. injection Hin as -> <-.
      rewrite truthy_some in Hy by assumption. discriminate Hy.
    + intros Hin. in_cases Hin. injection Hin as ->.
      split; [assumption|].
      exists (Some instructionQuery). split.
      * right. apply in_or_app. right. right. apply in_or_app. right. left. reflexivity.
      * split; [split; intros Hx; discriminate Hx | split; intros _; eauto].
Qed.

Lemma no_failure_after_instruction_query_witness :
  (exists p,
     (processVoiceCommandWithAI (widgetWorld (Some "acme widget manual") Malformed)
        "scan" "0123456789012" false ∅ []).1.1 = Some p /\
     steps p = genericTemplate) /\
  (processVoiceCommandWithAI (widgetWorld None NoJsonArray)
     "scan" "0123456789012" false ∅ []).1.1 = None.
Proof.
  split.
  - destruct (proj1 (no_failure_after_instruction_query
                       (widgetWorld (Some "acme widget manual") Malformed)
                       "scan" "0123456789012" false ∅ [] _ _ _
                       "Acme Widget" (run_eta _)) "acme widget manual")
      as (p & Hr & _ & _ & _ & _ & Hsteps).
    + vm_compute. do 3 right. left. reflexivity.
    + exists p. split; [exact Hr|].
      destruct Hsteps as [Ht | (h' & pdfUrl & _ & Hparsed)];
        [exact Ht | discriminate Hparsed].
  - refine (proj1 (proj2 (proj1 (proj2 (no_failure_after_instruction_query
                       (widgetWorld None NoJsonArray)
                       "scan" "0123456789012" false ∅ [] _ _ _
                       "Acme Widget" (run_eta _))) None _ _))).
    + vm_compute. do 3 right. left. reflexivity.
    + reflexivity.
Defined.

(** C3, as stated, fails: after the product title has been identified, a
    failed instruction-query composition makes the call return absent. *)
Lemma no_failure_after_title_claim_fails : ~ noFailureAfterTitleClaim.
Proof.
  intros H.
  assert (Hr : is_Some (@None Project)).
  { eapply (H (widgetWorld None NoJsonArray) "scan" "0123456789012" false ∅ []
              None _ _ "Acme Widget"); [reflexivity|].
    vm_compute. tauto. }
  destruct Hr as [p Hp]. discriminate Hp.
Qed.

(** ** Order of the fallback searches *)

(** C9 (amended): the fallback queries are "<token> product", "UPC <token>",
    "barcode <token>" and "<token>".  After the product-identification
    query, the call tries them against the primary provider in this order,
    stops at the first attempt that gets items, and consults Exa, with the
    product-identification query, only after all five attempts came back
    without items; when an attempt got items Exa is not consulted. *)
Theorem fallback_order (w : World) (voiceCommand code : string) (sess : bool)
    (cache : gmap string Project) (h : list Event)
    (r : option Project) (cache' : gmap string Project) (evs : list Event) (q : string) :
  processVoiceCommandWithAI w voiceCommand code sess cache h = (r, cache', evs) ->
  In (EvIdentify code (Some q)) evs ->
  fallbackQueries code = [code ++ " product"; "UPC " ++ code; "barcode " ++ code; code] /\
  exists searchEvs rest,
    evs = (EvIdentify code (Some q) :: searchEvs ++ rest)%list /\
    forallb isSearchStep searchEvs = true /\
    validAttempts (q :: fallbackQueries code) (googleAttempts searchEvs) = true /\
    ((forallb noItemsAttempt (googleAttempts searchEvs) = true /\
      (googleAttempts searchEvs).*1 = q :: fallbackQueries code /\
      exists x, rest = [EvExa q x]) \/
     (foundItems (googleAttempts searchEvs) /\
      forallb (fun e => negb (isExa e)) rest = true)).
Proof.
  intros Hrun Hin. split; [reflexivity|].
  assert (Hno : forall l, forallb isOutput l = true ->
                          forallb (fun e => negb (isExa e)) l = true).
  { intros l. rewrite !forallb_forall. intros Hl e He. specialize (Hl e He).
    destruct e; try discriminate; reflexivity. }
  assert (Hno' : forall l, forallb isShow l = true ->
                           forallb (fun e => negb (isExa e)) l = true).
  { intros l. rewrite !forallb_forall. intros Hl e He. specialize (Hl e He).
    destruct e; try discriminate; reflexivity. }
  apply pipeline_outcome_eq in Hrun.
  inversion Hrun; subst; clear Hrun.
  - in_cases Hin.
  - in_cases Hin. injection Hin as ->. exfalso. eapply falsy_some; eauto.
  - in_cases Hin. injection Hin as ->.
    eexists _, _. split; [reflexivity|]. repeat split; auto. left. eauto.
  - in_cases Hin. injection Hin as ->.
    eexists _, _. split; [reflexivity|]. repeat split; auto.
  - in_cases Hin. injection Hin as ->.
    eexists _, _. split; [reflexivity|]. repeat split; auto. right. split; auto.
    simpl. rewrite forallb_app. simpl. rewrite Hno' by assumption. reflexivity.
  - in_cases Hin. injection Hin as ->.
    eexists _, _. split; [reflexivity|]. repeat split; auto. right. split; auto.
    simpl. rewrite forallb_app. simpl. rewrite Hno', Hno by assumption. reflexivity.
Qed.

Lemma fallback_order_witness :
  googleAttempts (processVoiceCommandWithAI exaOnlyWorld "scan" "123" false ∅ []).2
  = [ ("123 product", Some []); ("123 product", Some []); ("UPC 123", Some []);
      ("barcode 123", Some []); ("123", Some []) ].
Proof.
  destruct (fallback_order exaOnlyWorld "scan" "123" false ∅ [] _ _ _ "123 product"
              (run_eta _))
    as (_ & searchEvs & rest & Hevs & _).
  - vm_compute. left. reflexivity.
  - reflexivity.
Defined.

(** C9, as stated, fails: the first fallback query is "<token> product",
    not the raw token. *)
Lemma fallback_order_claim_fails : ~ fallbackOrderClaim.
Proof.
  intros H.
  specialize (H exaOnlyWorld "0123456789012" "0123456789012 product" ∅ []).
  vm_compute in H. discriminate H.
Qed.

(** ** Step numbering *)

Lemma s3Project_contiguous (s3Data : S3ProductData) : contiguous (steps (s3Project s3Data)).
Proof.
  intros i s. simpl. rewrite list_lookup_imap.
  destruct (manual_steps s3Data !! i); simpl; [|discriminate].
  intros H. injection H as <-. reflexivity.
Qed.

Lemma degradedProject_contiguous (code q : string) (firstResult : ExaResult) :
  contiguous (steps (degradedProject code q firstResult)).
Proof. apply contiguous_check. reflexivity. Qed.

(** C2, as stated, fails: steps parsed from the provider's response are
    returned with the ids the provider gave them. *)
Lemma numbering_claim_fails : ~ numberingClaim.
Proof.
  intros H.
  pose proof (H (widgetWorld (Some "acme widget manual") (Parsed [oddStep]))
                "scan" "0123456789012" false [] _ _ _ eq_refl 0%nat oddStep eq_refl) as Hid.
  discriminate Hid.
Qed.

(** C2 (amended): the steps of a project returned by the pipeline are
    numbered 1, 2, ... by position, or they are the array parsed from the
    provider's response, returned unchanged with whatever ids it carries.
    A project returned without synthesis (the degraded path) is numbered by
    position.  A project returned after a synthesis carries exactly the steps
    the synthesizer gave at that point of the call: the template for the
    title, numbered by position, when no key is configured or the provider's
    response is not usable; and the provider's parsed array itself, whatever
    it is, when the response parses.  The degraded project, the three
    templates and the hosted-dataset project are numbered by position. *)
Theorem step_numbering (w : World) (voiceCommand code : string) (sess : bool)
    (cache : gmap string Project) (h : list Event)
    (p : Project) (cache' : gmap string Project) (evs : list Event) :
  cache !! cacheKey code = None ->
  processVoiceCommandWithAI w voiceCommand code sess cache h = (Some p, cache', evs) ->
  (count isGenerate evs = 0%nat -> contiguous (steps p)) /\
  (forall before t url stepList after,
     evs = (before ++ EvGenerate t url stepList :: after)%list ->
     steps p = stepList /\ name p = t /\
     (ANTHROPIC_API_KEY w = false \/ unusable (anthropic w (h ++ before)%list t url) ->
      steps p = generateFallbackInstructions t /\ contiguous (steps p)) /\
     (ANTHROPIC_API_KEY w = true ->
      forall parsed, anthropic w (h ++ before)%list t url = Parsed parsed ->
                     steps p = parsed)) /\
  (contiguous (steps p) \/
   exists h' pdfUrl, ANTHROPIC_API_KEY w = true /\
                     anthropic w h' (name p) pdfUrl = Parsed (steps p)) /\
  (forall q firstResult, contiguous (steps (degradedProject code q firstResult))) /\
  (forall productTitle, contiguous (generateFallbackInstructions productTitle)) /\
  (forall s3Data, contiguous (steps (s3Project s3Data))).
Proof.
  intros Hmiss Hrun.
  split; [|split; [|split; [|split; [|split]]]].
  - intros Hnone. apply pipeline_outcome_eq in Hrun.
    inversion Hrun; subst; clear Hrun.
    + congruence.
    + match goal with Hx : exaProject _ _ ?x = Some p |- _ =>
        destruct x as [[[|firstResult others]|]|]; try discriminate Hx;
        injection Hx as <- end.
      apply degradedProject_contiguous.
    + exfalso.
      match goal with Hex : exists _, In _ _ |- _ => destruct Hex as [pdfUrl Hg] end.
      assert (Hpos : (0 < count isGenerate
                            (EvIdentify code (Some q) :: searchEvs ++
                             EvAnalyze code (Some productTitle) :: shows ++
                             EvInstructionQuery voiceCommand productTitle
                               (Some instructionQuery) :: tailEvs))%nat).
      { apply (count_pos _ (EvGenerate productTitle pdfUrl stepList)); [|reflexivity].
        right. apply in_or_app. right. right. apply in_or_app. right. right. exact Hg. }
      lia.
  - intros before t url stepList after Heq.
    assert (Hin : In (EvGenerate t url stepList) evs)
      by (rewrite Heq; apply in_or_app; right; left; reflexivity).
    destruct (generate_event_result _ _ _ _ _ _ _ _ _ _ _ _ Hrun Hin) as [[= ->] _].
    pose proof (synthesisAt_pipeline w voiceCommand code sess cache h) as Hsyn.
    rewrite Hrun in Hsyn. specialize (Hsyn before t url stepList after Heq).
    cbn [steps name pipelineProject].
    split; [reflexivity|]. split; [reflexivity|]. split.
    + intros Hfb.
      assert (Hs : stepList = generateFallbackInstructions t).
      { rewrite Hsyn. destruct (ANTHROPIC_API_KEY w); [|reflexivity].
        destruct Hfb as [Hk|Hu]; [discriminate Hk|].
        destruct (anthropic w (h ++ before)%list t url); simpl in *; tauto. }
      split; [exact Hs|]. rewrite Hs. apply fallback_contiguous.
    + intros Hkey parsed Hparsed. rewrite Hsyn, Hkey, Hparsed. reflexivity.
  - apply pipeline_outcome_eq in Hrun.
    inversion Hrun; subst; clear Hrun.
    + congruence.
    + match goal with Hx : exaProject _ _ ?x = Some p |- _ =>
        destruct x as [[[|firstResult others]|]|]; try discriminate Hx;
        injection Hx as <- end.
      left. apply degradedProject_contiguous.
    + match goal with Hs : synthesized _ _ _ |- _ => destruct Hs as [Htpl|Hprov] end.
      * left. simpl. rewrite Htpl. apply fallback_contiguous.
      * right. exact Hprov.
  - intros. apply degradedProject_contiguous.
  - apply fallback_contiguous.
  - apply s3Project_contiguous.
Qed.

Lemma step_numbering_witness :
  steps (pipelineProject "0123456789012" "Acme Widget" [oddStep]) = [oddStep] /\
  step_id oddStep = 7.
Proof.
  pose (w := widgetWorld (Some "acme widget manual") (Parsed [oddStep])).
  pose proof (run_eta (processVoiceCommandWithAI w "scan" "0123456789012" false ∅ [])) as Hrun.
  change (_.1.1) with (Some (pipelineProject "0123456789012" "Acme Widget" [oddStep])) in Hrun.
  destruct (step_numbering w "scan" "0123456789012" false ∅ [] _ _ _ (lookup_empty _) Hrun)
    as (_ & Hgen & _).
  split; [|reflexivity].
  refine (proj2 (proj2 (proj2
            (Hgen (take 5 (processVoiceCommandWithAI w "scan" "0123456789012" false ∅ []).2)
                  "Acme Widget" "" [oddStep]
                  (drop 6 (processVoiceCommandWithAI w "scan" "0123456789012" false ∅ []).2)
                  _))) eq_refl [oddStep] eq_refl).
  vm_compute. reflexivity.
Defined.

(** ** Memoization *)

(** A cache entry for the barcode is returned at once, without any
    request. *)
Lemma cached_result_returned (w : World) (voiceCommand code : string) (sess : bool)
    (cache : gmap string Project) (h : list Event) (p : Project) :
  cache !! cacheKey code = Some p ->
  processVoiceCommandWithAI w voiceCommand code sess cache h = (Some p, cache, []).
Proof.
  intros Hc. unfold processVoiceCommandWithAI. rewrite bind_run. cbn [cacheGet].
  rewrite Hc. reflexivity.
Qed.

(** A project resolved with synthesized steps is stored under its barcode:
    the next call with that barcode returns it without any request. *)
Lemma synthesized_result_cached (w : World) (voiceCommand code : string) (sess : bool)
    (cache : gmap string Project) (h : list Event)
    (p : Project) (cache' : gmap string Project) (evs : list Event)
    (productTitle pdfUrl : string) (stepList : list InstructionStep) :
  processVoiceCommandWithAI w voiceCommand code sess cache h = (Some p, cache', evs) ->
  In (EvGenerate productTitle pdfUrl stepList) evs ->
  forall w' voiceCommand' sess' h',
    processVoiceCommandWithAI w' voiceCommand' code sess' cache' h' = (Some p, cache', []).
Proof.
  intros Hrun Hin w' voiceCommand' sess' h'.
  assert (Hc : cache' !! cacheKey code = Some p).
  { apply pipeline_outcome_eq in Hrun.
    inversion Hrun; subst; clear Hrun.
    - in_cases Hin.
    - match goal with Hx : exaProject _ _ ?x = Some p |- _ => clear Hx end. in_cases Hin.
    - apply lookup_insert_eq. }
  apply cached_result_returned, Hc.
Qed.

(** C1: the degraded path returns its project without storing it, so a
    second call with the same barcode runs the pipeline again (all five
    primary searches, then Exa) and here returns a different project. *)
Theorem degraded_result_not_cached :
  let '(r1, cache1, evs1) :=
    processVoiceCommandWithAI exaOnlyWorld "scan" "0123456789012" false ∅ [] in
  let '(r2, cache2, evs2) :=
    processVoiceCommandWithAI exaOnlyWorld "scan" "0123456789012" false cache1 evs1 in
  name <$> r1 = Some "Acme Widget Manual" /\
  cache1 !! cacheKey "0123456789012" = None /\
  googleAttempts evs2 =
    [ ("0123456789012 product", Some []); ("0123456789012 product", Some []);
      ("UPC 0123456789012", Some []); ("barcode 0123456789012", Some []);
      ("0123456789012", Some []) ] /\
  existsb isExa evs2 = true /\
  name <$> r2 = Some "Acme Widget Manual (2nd edition)".
Proof. vm_compute. repeat split. Qed.

(** ** Navigation stays in range *)

Lemma navigationInv_connect now code : navigationInv (onSession now code).
Proof. split; simpl; [discriminate | tauto]. Qed.

Lemma navigationInv_same (sv sv' : Server) :
  currentProject (session sv') = currentProject (session sv) ->
  currentStep (session sv') = currentStep (session sv) ->
  display sv' = display sv ->
  navigationInv sv -> navigationInv sv'.
Proof. unfold navigationInv. intros -> -> ->. tauto. Qed.

Lemma navigationInv_show (sv : Server) (d : Display) :
  (forall q i, d = ShowStep q i -> stepInRange q i) ->
  navigationInv sv -> navigationInv (show sv d).
Proof.
  intros Hd [Hcur Hshown]. split; [exact Hcur|].
  intros q i Hin. simpl in Hin. apply in_app_or in Hin as [Hin|[Hin|[]]]; auto.
Qed.

Lemma navigationInv_select (sv : Server) (s : SessionData) (p : Project) :
  currentProject s = Some p -> currentStep s = 0 ->
  navigationInv sv -> navigationInv (show (withSession sv s) (ShowStep p 0)).
Proof.
  intros Hp Hs [Hcur Hshown]. apply navigationInv_show.
  - intros q i [= <- <-]. split; [lia | left; reflexivity].
  - split; [|exact Hshown]. simpl. rewrite Hp, Hs. intros p' [= <-].
    split; [lia | left; reflexivity].
Qed.

Lemma navigationInv_handleProjectSelection now projectId sv :
  navigationInv sv -> navigationInv (handleProjectSelection now projectId sv).
Proof.
  intros Hinv. unfold handleProjectSelection.
  destruct (availableProjects (session sv) !! projectId) as [p|]; [|exact Hinv].
  apply navigationInv_select; auto.
Qed.

Lemma navigationInv_handleNextStep sv :
  navigationInv sv -> navigationInv (handleNextStep sv).
Proof.
  intros Hinv. unfold handleNextStep.
  destruct (currentProject (session sv)) as [p|] eqn:Hp; [|exact Hinv].
  destruct Hinv as [Hcur Hshown]. destruct (Hcur p Hp) as [H0 Hlt].
  destruct (currentStep (session sv) <? totalSteps p - 1) eqn:Hlast.
  - apply Z.ltb_lt in Hlast. apply navigationInv_show.
    + intros q i [= <- <-]. split; [lia | right; lia].
    + split; [|exact Hshown]. simpl. rewrite Hp. intros p' [= <-].
      split; [lia | right; lia].
  - apply navigationInv_show; [discriminate|].
    split; [|exact Hshown]. simpl. rewrite Hp. intros p' [= <-]. split; assumption.
Qed.

Lemma navigationInv_handlePreviousStep sv :
  navigationInv sv -> navigationInv (handlePreviousStep sv).
Proof.
  intros Hinv. unfold handlePreviousStep.
  destruct (currentProject (session sv)) as [p|] eqn:Hp; [|exact Hinv].
  destruct (currentStep (session sv) <=? 0) eqn:Hfirst; [exact Hinv|].
  apply Z.leb_gt in Hfirst.
  destruct Hinv as [Hcur Hshown]. destruct (Hcur p Hp) as [H0 Hlt].
  apply navigationInv_show.
  - intros q i [= <- <-]. split; [lia | right; lia].
  - split; [|exact Hshown]. simpl. rewrite Hp. intros p' [= <-].
    split; [lia | right; lia].
Qed.

Lemma navigationInv_handleNewProject now sv :
  navigationInv sv -> navigationInv (handleNewProject now sv).
Proof.
  intros [Hcur Hshown]. unfold handleNewProject.
  apply navigationInv_show; [discriminate|].
  split; [simpl; discriminate | exact Hshown].
Qed.

Lemma navigationInv_processVoiceCommand now command sv :
  navigationInv sv -> navigationInv (processVoiceCommand now command sv).
Proof.
  intros Hinv. unfold processVoiceCommand.
  destruct (state (session sv)).
  - apply navigationInv_show; [discriminate | exact Hinv].
  - repeat case_match; auto using navigationInv_handleProjectSelection.
  - destruct (currentProject (session sv)) as [p|] eqn:Hp; [|exact Hinv].
    repeat case_match;
      auto using navigationInv_handleNextStep, navigationInv_handlePreviousStep.
    + apply navigationInv_show; [|exact Hinv].
      intros q i [= <- <-]. exact (proj1 Hinv p Hp).
    + apply navigationInv_select; auto.
  - case_match; auto using navigationInv_handleNewProject.
Qed.

Lemma navigationInv_updateCurrentBarcode result sv :
  navigationInv sv -> navigationInv (updateCurrentBarcode result sv).
Proof.
  unfold updateCurrentBarcode. case_match; [|auto].
  apply navigationInv_same; reflexivity.
Qed.

Lemma navigationInv_step now i sv : navigationInv sv -> navigationInv (step now i sv).
Proof.
  intros Hinv. destruct i as [isFinal text|k result|k result|toolId|s3Data|code]; simpl.
  - unfold handleVoiceTranscription.
    repeat case_match; auto using navigationInv_processVoiceCommand.
  - destruct (pending sv !! k) as [[|command|command code]|]; auto.
    + apply navigationInv_show; [discriminate|].
      apply navigationInv_updateCurrentBarcode.
      revert Hinv. apply navigationInv_same; reflexivity.
    + unfold afterBarcode.
      assert (Hu : navigationInv (updateCurrentBarcode result (resume sv k))).
      { apply navigationInv_updateCurrentBarcode.
        revert Hinv. apply navigationInv_same; reflexivity. }
      repeat case_match; auto.
      all: revert Hu; apply navigationInv_same; reflexivity.
  - destruct (pending sv !! k) as [[|command|command code]|]; auto.
    unfold afterResolution. apply navigationInv_processVoiceCommand.
    destruct result as [p|].
    + apply navigationInv_handleProjectSelection.
      revert Hinv. apply navigationInv_same; reflexivity.
    + revert Hinv. apply navigationInv_same; reflexivity.
  - unfold onToolCall.
    destruct (String.eqb toolId "next_step"); [|destruct (String.eqb toolId "previous_step")].
    all: try exact Hinv.
    all: destruct (currentProject (session sv)) as [p|] eqn:Hp; [|exact Hinv].
    all: destruct (proj1 Hinv p Hp) as [H0 Hlt].
    + destruct (currentStep (session sv) <? totalSteps p - 1) eqn:Hl; [|exact Hinv].
      apply Z.ltb_lt in Hl. split; [|exact (proj2 Hinv)]. simpl. rewrite Hp.
      intros p' [= <-]. split; [lia | right; lia].
    + destruct (0 <? currentStep (session sv)) eqn:Hl; [|exact Hinv].
      apply Z.ltb_lt in Hl. split; [|exact (proj2 Hinv)]. simpl. rewrite Hp.
      intros p' [= <-]. split; [lia | right; lia].
  - unfold loadS3Data. destruct s3Data; auto.
  - apply navigationInv_updateCurrentBarcode, Hinv.
Qed.

Lemma reachable_navigationInv sv : reachable sv -> navigationInv sv.
Proof.
  induction 1; [apply navigationInv_connect | apply navigationInv_step; assumption].
Qed.

Lemma reachable_run inputs sv : reachable sv -> reachable (run inputs sv).
Proof.
  revert sv. induction inputs as [|[now i] inputs IH]; intros sv H; [exact H|].
  simpl. apply IH. apply reachable_step. exact H.
Qed.

Lemma includes_nonempty (command word : string) :
  JS.includes command word = true -> word <> "" -> command <> "".
Proof. intros H Hw ->. destruct word; [congruence | discriminate H]. Qed.

Lemma orNull_nonempty (command : string) :
  command <> "" -> JS.orNull (Some command) = Some command.
Proof. destruct command; [congruence | reflexivity]. Qed.

Lemma building_transcription (now : Z) (text : string) (sv : Server) :
  state (session sv) = building ->
  JS.trim (JS.toLowerCase text) <> "" ->
  handleVoiceTranscription now true (Some text) sv
  = processVoiceCommand now (JS.trim (JS.toLowerCase text)) sv.
Proof.
  intros Hstate Hne. unfold handleVoiceTranscription. simpl negb. cbv iota.
  change (JS.trim <$> (JS.toLowerCase <$> Some text))
    with (Some (JS.trim (JS.toLowerCase text))).
  rewrite (orNull_nonempty _ Hne), Hstate.
  destruct (_ && _); [reflexivity|].
  rewrite bool_decide_eq_false_2 by discriminate. reflexivity.
Qed.

(** C5: in every reachable state of a session whose active project has
    [totalSteps >= 1], the current step index lies in [0, totalSteps), and so
    does every index handed to the display.  A command containing "next" at
    index [totalSteps - 1] moves the session to completed and leaves the
    index; a command containing "back" or "previous" at index 0 changes
    nothing. *)
Theorem step_index_in_range (sv : Server) (p : Project)
    (Hreach : reachable sv)
    (Hp : currentProject (session sv) = Some p)
    (Htotal : 1 <= totalSteps p) :
  0 <= currentStep (session sv) < totalSteps p /\
  (forall q i, In (ShowStep q i) (display sv) -> 1 <= totalSteps q ->
               0 <= i < totalSteps q) /\
  (forall now text,
     let command := JS.trim (JS.toLowerCase text) in
     let sv' := step now (Transcription true (Some text)) sv in
     state (session sv) = building ->
     (JS.includes command "next" = true ->
      currentStep (session sv) = totalSteps p - 1 ->
      state (session sv') = completed /\
      currentStep (session sv') = currentStep (session sv) /\
      display sv' = (display sv ++ [ShowCompletion p])%list) /\
     (anyIncludes command ["next"; "continue"; "forward"] = false ->
      JS.includes command "back" = true \/ JS.includes command "previous" = true ->
      currentStep (session sv) = 0 ->
      sv' = sv)).
Proof.
  destruct (reachable_navigationInv sv Hreach) as [Hcur Hshown].
  split; [|split].
  - destruct (Hcur p Hp) as [H0 Hlt]. lia.
  - intros q i Hin Hq. destruct (Hshown q i Hin) as [H0 Hlt]. lia.
  - intros now text command sv' Hstate. subst sv'. split.
    + intros Hnext Hlast.
      assert (Hne : command <> "") by (eapply includes_nonempty; [exact Hnext | discriminate]).
      simpl step. rewrite (building_transcription now text sv Hstate Hne).
      fold command.
      assert (Hnav : processVoiceCommand now command sv
                     = show (withSession sv (setState (session sv) completed))
                            (ShowCompletion p)).
      { unfold processVoiceCommand. rewrite Hstate, Hp.
        unfold anyIncludes at 1. simpl existsb. rewrite Hnext. simpl orb.
        unfold handleNextStep. rewrite Hp.
        replace (currentStep (session sv) <? totalSteps p - 1) with false
          by (symmetry; apply Z.ltb_ge; lia).
        reflexivity. }
      rewrite Hnav. simpl. auto.
    + intros Hnonext Hback Hfirst.
      assert (Hne : command <> "").
      { destruct Hback as [Hb|Hb]; (eapply includes_nonempty; [exact Hb | discriminate]). }
      simpl step. rewrite (building_transcription now text sv Hstate Hne).
      fold command.
      unfold processVoiceCommand. rewrite Hstate, Hp, Hnonext.
      assert (Hany : anyIncludes command ["back"; "previous"; "last"] = true).
      { unfold anyIncludes. simpl. destruct Hback as [-> | ->];
          rewrite ?orb_true_r; reflexivity. }
      rewrite Hany. unfold handlePreviousStep. rewrite Hp, Hfirst. reflexivity.
Qed.

Lemma step_index_in_range_witness :
  0 <= currentStep (session (run guidedSession (onSession 0 None))) < 5.
Proof.
  refine (proj1 (step_index_in_range (run guidedSession (onSession 0 None)) widgetProject
                   (reachable_run _ _ (reachable_connect 0 None)) _ _)).
  - reflexivity.
  - vm_compute. discriminate.
Defined.

(** ** Re-entry into the resolution *)

Lemma keepsWelcome_refl sv : keepsWelcome sv sv.
Proof. intros H. auto. Qed.

Lemma keepsWelcome_trans sv1 sv2 sv3 :
  keepsWelcome sv1 sv2 -> keepsWelcome sv2 sv3 -> keepsWelcome sv1 sv3.
Proof.
  intros H12 H23 H3. destruct (H23 H3) as [H2 Hf23]. destruct (H12 H2) as [H1 Hf12].
  split; congruence.
Qed.

Lemma keepsWelcome_handleProjectSelection now projectId sv :
  keepsWelcome sv (handleProjectSelection now projectId sv).
Proof.
  unfold handleProjectSelection. case_match; [|apply keepsWelcome_refl].
  intros Hw. discriminate Hw.
Qed.

Lemma keepsWelcome_processVoiceCommand now command sv :
  keepsWelcome sv (processVoiceCommand now command sv).
Proof.
  unfold processVoiceCommand.
  destruct (state (session sv)) eqn:Hstate.
  - intros _. simpl. auto.
  - repeat case_match; intros Hw.
    all: try (apply keepsWelcome_handleProjectSelection in Hw; destruct Hw; congruence).
    congruence.
  - unfold handleNextStep, handlePreviousStep.
    repeat case_match; intros Hw; simpl in Hw; congruence.
  - unfold handleNewProject. case_match; intros Hw; simpl in Hw; congruence.
Qed.

Lemma pending_handleProjectSelection now projectId sv :
  pending (handleProjectSelection now projectId sv) = pending sv.
Proof. unfold handleProjectSelection. case_match; reflexivity. Qed.

Lemma pending_processVoiceCommand now command sv :
  pending (processVoiceCommand now command sv) = pending sv.
Proof.
  unfold processVoiceCommand, handleNextStep, handlePreviousStep, handleNewProject.
  repeat case_match; try reflexivity; apply pending_handleProjectSelection.
Qed.

Lemma after_resolution_building now command p sv :
  let sv' := afterResolution now command (Some p) sv in
  stepsGenerated (session sv') = true /\ state (session sv') <> welcome.
Proof.
  unfold afterResolution.
  set (sv1 := handleProjectSelection now (id p) _).
  assert (H1 : stepsGenerated (session sv1) = true /\ state (session sv1) = building).
  { subst sv1. unfold handleProjectSelection. simpl.
    rewrite lookup_insert_eq. simpl. auto. }
  destruct H1 as [Hflag Hstate].
  unfold processVoiceCommand. rewrite Hstate.
  unfold handleNextStep, handlePreviousStep.
  repeat case_match; simpl; split; congruence.
Qed.

Lemma keepsWelcome_step now i sv : keepsWelcome sv (step now i sv).
Proof.
  destruct i as [isFinal text|k result|k result|toolId|s3Data|code]; simpl.
  - unfold handleVoiceTranscription.
    repeat case_match; try apply keepsWelcome_refl;
      try apply keepsWelcome_processVoiceCommand.
    intros Hw. simpl in *. auto.
  - unfold afterBarcode, updateCurrentBarcode.
    repeat case_match; intros Hw; simpl in *; auto.
  - destruct (pending sv !! k) as [[|command|command code]|]; try apply keepsWelcome_refl.
    destruct result as [p|].
    + intros Hw. pose proof (after_resolution_building now command p (resume sv k)) as [_ Hne].
      contradiction.
    + unfold afterResolution.
      eapply keepsWelcome_trans; [|apply keepsWelcome_processVoiceCommand].
      intros Hw. simpl in *. auto.
  - unfold onToolCall. repeat case_match; intros Hw; simpl in *; auto.
  - unfold loadS3Data. case_match; intros Hw; simpl in *; auto.
  - unfold updateCurrentBarcode. case_match; intros Hw; simpl in *; auto.
Qed.

Lemma welcome_flag_unset sv :
  reachable sv -> state (session sv) = welcome -> stepsGenerated (session sv) = false.
Proof.
  induction 1 as [now code|now i sv Hreach IH]; [reflexivity|].
  intros Hw. destruct (keepsWelcome_step now i sv Hw) as [Hw' ->]. exact (IH Hw').
Qed.

(** Two commands received in the welcome phase before any resolution has
    settled start two resolutions. *)
Lemma single_flight_claim_fails : ~ singleFlightClaim.
Proof.
  intros H.
  specialize (H (run twoCommands (onSession 0 None))
                (reachable_run _ _ (reachable_connect 0 None)) eq_refl).
  vm_compute in H. lia.
Qed.

Lemma settled_resolution_restarts now k command code p sv :
  pending sv !! k = Some (AwaitResolution command code) ->
  anyIncludes command ["next"; "continue"; "forward"; "back"; "previous"; "last";
                       "repeat"; "again"; "what"; "start over"; "restart"; "beginning"]
  = false ->
  let sv' := step now (ResolutionSettled k (Some p)) sv in
  state (session sv') = building /\ currentProject (session sv') = Some p /\
  currentStep (session sv') = 0 /\ startTime (session sv') = now /\
  display sv' = (display sv ++ [ShowStep p 0])%list.
Proof.
  intros Hk Hnone. cbn zeta. simpl step. rewrite Hk. unfold afterResolution.
  set (sv1 := handleProjectSelection now (id p) _).
  assert (Hsv1 : sv1 = show (withSession (resume sv k)
                   {| state := building; currentProject := Some p; currentStep := 0;
                      startTime := now;
                      availableProjects := <[id p := p]> (availableProjects (session sv));
                      stepsGenerated := true |}) (ShowStep p 0)).
  { subst sv1. unfold handleProjectSelection. simpl. rewrite lookup_insert_eq. reflexivity. }
  rewrite Hsv1. clear sv1 Hsv1.
  unfold processVoiceCommand.
  cbn [show withSession session state currentProject currentStep].
  unfold anyIncludes in *. cbn [existsb] in *.
  rewrite !orb_false_iff in Hnone.
  destruct Hnone as (-> & -> & -> & -> & -> & -> & -> & -> & -> & -> & -> & -> & _).
  simpl. auto.
Qed.

(** C10: nothing keeps a session to one resolution.  In the welcome phase
    the [stepsGenerated] flag is never set (it is set only when a resolution
    settles with a project, and the session then leaves the welcome phase for
    good), so the test that would ignore a command there never holds: every
    final, non-empty command received in the welcome phase, also while an
    earlier resolution is in flight, enters the resolution path and starts a
    resolution as soon as a barcode is known.  A resolution that settles with
    a project restarts the session on that project at step 0, whatever the
    session was doing.  The last part is such a session: two commands start
    two resolutions, the first one settles, the user walks to the third
    step, and the second one settling puts the user back to the first
    step. *)
Theorem resolution_not_guarded (sv : Server) (Hreach : reachable sv) :
  (state (session sv) = welcome -> stepsGenerated (session sv) = false) /\
  (forall now text command,
     JS.orNull (JS.trim <$> (JS.toLowerCase <$> text)) = Some command ->
     let sv' := step now (Transcription true text) sv in
     (state (session sv) = welcome ->
      pending sv' = (pending sv ++ [AwaitBarcode command])%list) /\
     (state (session sv) <> welcome -> pending sv' = pending sv)) /\
  (forall now k command result,
     pending sv !! k = Some (AwaitBarcode command) ->
     let sv' := step now (BarcodeSettled k result) sv in
     match CURRENT_BARCODE sv' with
     | Some (String c s) =>
         pending sv' = (delete k (pending sv) ++ [AwaitResolution command (String c s)])%list
     | _ => pending sv' = delete k (pending sv)
     end) /\
  (forall now k command code p,
     pending sv !! k = Some (AwaitResolution command code) ->
     let sv' := step now (ResolutionSettled k (Some p)) sv in
     stepsGenerated (session sv') = true /\ state (session sv') <> welcome) /\
  (forall now i, state (session sv) <> welcome ->
                 state (session (step now i sv)) <> welcome) /\
  (forall now k command code p,
     pending sv !! k = Some (AwaitResolution command code) ->
     anyIncludes command ["next"; "continue"; "forward"; "back"; "previous"; "last";
                          "repeat"; "again"; "what"; "start over"; "restart"; "beginning"]
     = false ->
     let sv' := step now (ResolutionSettled k (Some p)) sv in
     state (session sv') = building /\ currentProject (session sv') = Some p /\
     currentStep (session sv') = 0 /\ startTime (session sv') = now /\
     display sv' = (display sv ++ [ShowStep p 0])%list) /\
  (let sv2 := run twoCommands (onSession 0 None) in
   let sv3 := run lateResolution (onSession 0 None) in
   let sv4 := step 20000 (ResolutionSettled 0 (Some widgetProject)) sv3 in
   state (session sv2) = welcome /\ resolutionsInFlight sv2 = 2%nat /\
   state (session sv3) = building /\ currentStep (session sv3) = 2 /\
   stepsGenerated (session sv3) = true /\ resolutionsInFlight sv3 = 1%nat /\
   state (session sv4) = building /\ currentStep (session sv4) = 0 /\
   startTime (session sv4) = 20000).
Proof.
  split; [exact (welcome_flag_unset sv Hreach)|].
  split; [|split; [|split; [|split; [|split]]]].
  - intros now text command Hcmd sv'. subst sv'. simpl step.
    unfold handleVoiceTranscription. simpl negb. cbv iota. rewrite Hcmd. split.
    + intros Hw. rewrite Hw, (welcome_flag_unset sv Hreach Hw). reflexivity.
    + intros Hnw. destruct (_ && _); [apply pending_processVoiceCommand|].
      rewrite (bool_decide_eq_false_2 _ Hnw). simpl. apply pending_processVoiceCommand.
  - intros now k command result Hk sv'. subst sv'. simpl step. rewrite Hk.
    unfold afterBarcode.
    destruct (CURRENT_BARCODE (updateCurrentBarcode result (resume sv k)))
      as [[|c s]|] eqn:Hb; simpl; rewrite ?Hb.
    + unfold updateCurrentBarcode. case_match; reflexivity.
    + unfold updateCurrentBarcode. case_match; reflexivity.
    + unfold updateCurrentBarcode. case_match; reflexivity.
  - intros now k command code p Hk sv'. subst sv'. simpl step. rewrite Hk.
    apply after_resolution_building.
  - intros now i Hnw Hw. destruct (keepsWelcome_step now i sv Hw) as [Hw' _]. contradiction.
  - intros now k command code p Hk Hnone.
    exact (settled_resolution_restarts now k command code p sv Hk Hnone).
  - vm_compute. repeat split; reflexivity.
Qed.

Lemma resolution_not_guarded_witness :
  currentStep (session (run lateResolution (onSession 0 None))) = 2 /\
  currentStep (session (step 20000 (ResolutionSettled 0 (Some widgetProject))
                          (run lateResolution (onSession 0 None)))) = 0.
Proof.
  split; [reflexivity|].
  refine (proj1 (proj2 (proj2
            (proj1 (proj2 (proj2 (proj2 (proj2 (proj2
               (resolution_not_guarded (run lateResolution (onSession 0 None))
                  (reachable_run _ _ (reachable_connect 0 None))))))))
               20000 0%nat "hello" "0123456789012" widgetProject _ _)))).
  - reflexivity.
  - reflexivity.
Defined.

(** * Further properties of the code *)

(** ** Token source: cache discipline and polling *)

Lemma truthy_not_empty (o : option string) : JS.truthy o = true -> o <> Some "" /\ o <> None.
Proof. destruct o as [[|c s]|]; simpl; intros H; try discriminate H; split; discriminate. Qed.

Lemma getCurrentBarcode_keeps_nonempty (now : Z) (net : FetchOutcome) (self : BarcodeService) :
  cachedBarcode self <> Some "" ->
  cachedBarcode (getCurrentBarcode now net self).1.2 <> Some "" /\
  (getCurrentBarcode now net self).1.1 <> Some "".
Proof.
  intros Hinv. unfold getCurrentBarcode.
  destruct (JS.truthy (cachedBarcode self) && (now - lastFetch self <? cacheTimeout));
    [simpl; auto|].
  destruct net as [|[[|c s]|]]; simpl; try (split; [assumption|discriminate]).
  - destruct (JS.truthy (cachedBarcode self)); simpl; split; auto; discriminate.
  - split; discriminate.
Qed.

Lemma waitLoop_keeps_nonempty (remaining attempt : nat) clock net previousBarcode self :
  cachedBarcode self <> Some "" ->
  cachedBarcode (waitLoop remaining attempt clock net previousBarcode self).1.2 <> Some "".
Proof.
  revert attempt self. induction remaining as [|remaining IH]; intros attempt self Hinv;
    [exact Hinv|].
  simpl.
  pose proof (getCurrentBarcode_keeps_nonempty (clock attempt) (net attempt) self Hinv)
    as [Hself _].
  destruct (getCurrentBarcode (clock attempt) (net attempt) self) as [[current self1] fetched].
  simpl in Hself.
  destruct (JS.truthy current && negb (bool_decide (current = previousBarcode)));
    [exact Hself|].
  specialize (IH (S attempt) self1 Hself).
  destruct (waitLoop remaining (S attempt) clock net previousBarcode self1) as [[r self2] rest].
  exact IH.
Qed.

Lemma serviceReachable_nonempty (self : BarcodeService) :
  serviceReachable self -> cachedBarcode self <> Some "".
Proof.
  induction 1 as [|op self Hreach IH]; [discriminate|].
  destruct op as [now net|clock net previousBarcode|]; simpl.
  - apply getCurrentBarcode_keeps_nonempty, IH.
  - apply waitLoop_keeps_nonempty, IH.
  - discriminate.
Qed.

(** X1: a barcode service never holds the empty string as its cached
    barcode, whatever sequence of [getCurrentBarcode], [waitForNewBarcode]
    and [clearCache] calls led to it; [getCurrentBarcode] then never returns
    the empty string, and it leaves in the cache either what was there or the
    value it returns. *)
Theorem barcode_never_empty (self : BarcodeService) (Hreach : serviceReachable self) :
  cachedBarcode self <> Some "" /\
  (forall now net, (getCurrentBarcode now net self).1.1 <> Some "") /\
  (forall now net,
     cachedBarcode (getCurrentBarcode now net self).1.2 = cachedBarcode self \/
     cachedBarcode (getCurrentBarcode now net self).1.2 = (getCurrentBarcode now net self).1.1).
Proof.
  pose proof (serviceReachable_nonempty self Hreach) as Hinv.
  split; [exact Hinv|]. split.
  - intros now net. apply getCurrentBarcode_keeps_nonempty, Hinv.
  - intros now net. unfold getCurrentBarcode.
    destruct (JS.truthy (cachedBarcode self) && (now - lastFetch self <? cacheTimeout));
      [left; reflexivity|].
    destruct net as [|[[|c s]|]]; simpl; auto.
    destruct (JS.truthy (cachedBarcode self)); auto.
Qed.

Lemma barcode_never_empty_witness :
  (getCurrentBarcode 0 (FetchBody (Some "")) newBarcodeService).1.1 <> Some "".
Proof.
  exact (proj1 (proj2 (barcode_never_empty newBarcodeService service_new))
           0 (FetchBody (Some ""))).
Defined.

(** X2: when a call of [getCurrentBarcode] at time [now] fetches a
    non-empty barcode, it returns that barcode, and every call made less
    than [cacheTimeout] (30 s) after [now] returns the same barcode, leaves
    the service as it is and issues no request, whatever the network would
    answer. *)
Theorem fresh_after_fetch (now : Z) (code : string) (self : BarcodeService)
    (Hcode : code <> "")
    (Hfetched : (getCurrentBarcode now (FetchBody (Some code)) self).2 = true) :
  let self' := (getCurrentBarcode now (FetchBody (Some code)) self).1.2 in
  (getCurrentBarcode now (FetchBody (Some code)) self).1.1 = Some code /\
  forall now' net', now' - now < cacheTimeout ->
    getCurrentBarcode now' net' self' = (Some code, self', false).
Proof.
  unfold getCurrentBarcode in *.
  destruct (JS.truthy (cachedBarcode self) && (now - lastFetch self <? cacheTimeout));
    [discriminate Hfetched|].
  destruct code as [|c s]; [congruence|]. simpl. split; [reflexivity|].
  intros now' net' Hage.
  replace (now' - now <? cacheTimeout) with true by (symmetry; apply Z.ltb_lt; exact Hage).
  reflexivity.
Qed.

Lemma fresh_after_fetch_witness :
  getCurrentBarcode 29999 FetchFailed
    (getCurrentBarcode 0 (FetchBody (Some "123")) newBarcodeService).1.2
  = (Some "123", {| cachedBarcode := Some "123"; lastFetch := 0 |}, false).
Proof.
  refine (proj2 (fresh_after_fetch 0 "123" newBarcodeService _ _) 29999 FetchFailed _).
  - discriminate.
  - reflexivity.
  - reflexivity.
Defined.

(** X3: a failed fetch answered from the stale cache does not renew the
    cache: the call returns the cached barcode and leaves the service
    unchanged, so every later call issues a request again. *)
Theorem stale_fallback_not_renewed (now now' : Z) (net' : FetchOutcome)
    (self : BarcodeService)
    (Hcached : JS.truthy (cachedBarcode self) = true)
    (Hstale : cacheTimeout <= now - lastFetch self)
    (Hlater : now <= now') :
  getCurrentBarcode now FetchFailed self = (cachedBarcode self, self, true) /\
  (getCurrentBarcode now' net' (getCurrentBarcode now FetchFailed self).1.2).2 = true.
Proof.
  unfold getCurrentBarcode. rewrite Hcached. simpl.
  replace (now - lastFetch self <? cacheTimeout) with false
    by (symmetry; apply Z.ltb_ge; exact Hstale).
  simpl. split; [reflexivity|].
  rewrite Hcached. simpl.
  replace (now' - lastFetch self <? cacheTimeout) with false
    by (symmetry; apply Z.ltb_ge; lia).
  destruct net' as [|[[|c s]|]]; reflexivity.
Qed.

Lemma stale_fallback_not_renewed_witness :
  (getCurrentBarcode 40001 FetchFailed
     (getCurrentBarcode 40000 FetchFailed
        {| cachedBarcode := Some "123"; lastFetch := 0 |}).1.2).2 = true.
Proof.
  refine (proj2 (stale_fallback_not_renewed 40000 40001 FetchFailed
                   {| cachedBarcode := Some "123"; lastFetch := 0 |} _ _ _)).
  - reflexivity.
  - vm_compute. discriminate.
  - lia.
Defined.

(** X4: after [clearCache] the next [getCurrentBarcode] always issues a
    request, and it returns null exactly when the request fails or the body
    carries no barcode: the barcode held before is no longer a fallback. *)
Theorem clearCache_forces_fetch (now : Z) (net : FetchOutcome) (self : BarcodeService) :
  (getCurrentBarcode now net (clearCache self)).2 = true /\
  ((getCurrentBarcode now net (clearCache self)).1.1 = None <->
   net = FetchFailed \/ exists code, net = FetchBody code /\ JS.truthy code = false).
Proof.
  unfold getCurrentBarcode, clearCache. simpl.
  destruct net as [|[[|c s]|]]; simpl; (split; [reflexivity|]); split; intros H;
    try reflexivity; try discriminate H; eauto.
  destruct H as [H|(code & [= <-] & H)]; discriminate H.
Qed.

Lemma poll_count_app (P : PollEvent -> bool) (a b : list PollEvent) :
  List.length (List.filter P (a ++ b)%list)
  = (List.length (List.filter P a) + List.length (List.filter P b))%nat.
Proof. rewrite List.filter_app, List.length_app. reflexivity. Qed.

Lemma waitLoop_spec (remaining attempt : nat) clock net previousBarcode self :
  let '(r, _, evs) := waitLoop remaining attempt clock net previousBarcode self in
  (JS.truthy r = true /\ r <> previousBarcode \/ r = None) /\
  (List.length (List.filter isRequest evs) <= remaining)%nat /\
  (List.length (List.filter isSlept evs) <= Nat.min remaining (maxAttempts - attempt))%nat /\
  Forall (fun e => isRequest e = true \/ e = Slept delayMs) evs.
Proof.
  revert attempt self. induction remaining as [|remaining IH]; intros attempt self.
  - simpl. repeat split; auto; lia.
  - cbn [waitLoop].
    destruct (getCurrentBarcode (clock attempt) (net attempt) self)
      as [[current self1] fetched].
    destruct (JS.truthy current) eqn:Ht; cbn [andb].
    + destruct (bool_decide (current = previousBarcode)) eqn:Hsame; cbn [negb].
      * specialize (IH (S attempt) self1).
        destruct (waitLoop remaining (S attempt) clock net previousBarcode self1)
          as [[r self2] rest].
        destruct IH as (Hr & Hreq & Hsl & Hall).
        split; [exact Hr|].
        rewrite !poll_count_app. repeat split.
        -- destruct fetched; destruct (attempt <? maxAttempts)%nat; simpl; lia.
        -- destruct (attempt <? maxAttempts)%nat eqn:Hlt;
             [apply Nat.ltb_lt in Hlt | apply Nat.ltb_ge in Hlt];
             remember (Nat.min (S remaining) (maxAttempts - attempt)) as bound eqn:Hb;
             destruct fetched; simpl; subst bound; unfold maxAttempts in *; lia.
        -- apply Forall_app. split; [destruct fetched; [constructor; [left; reflexivity | constructor] | constructor]|].
           apply Forall_app. split; [|exact Hall].
           destruct (attempt <? maxAttempts)%nat;
             [constructor; [right; reflexivity | constructor] | constructor].
      * apply bool_decide_eq_false in Hsame.
        repeat split; auto.
        -- destruct fetched; simpl; lia.
        -- remember (Nat.min (S remaining) (maxAttempts - attempt)) as bound eqn:Hb.
           destruct fetched; simpl; lia.
        -- destruct fetched; [constructor; [left; reflexivity | constructor] | constructor].
    + specialize (IH (S attempt) self1).
      destruct (waitLoop remaining (S attempt) clock net previousBarcode self1)
        as [[r self2] rest].
      destruct IH as (Hr & Hreq & Hsl & Hall).
      split; [exact Hr|].
      rewrite !poll_count_app. repeat split.
      -- destruct fetched; destruct (attempt <? maxAttempts)%nat; simpl; lia.
      -- destruct (attempt <? maxAttempts)%nat eqn:Hlt;
           [apply Nat.ltb_lt in Hlt | apply Nat.ltb_ge in Hlt];
           remember (Nat.min (S remaining) (maxAttempts - attempt)) as bound eqn:Hb;
           destruct fetched; simpl; subst bound; unfold maxAttempts in *; lia.
      -- apply Forall_app. split; [destruct fetched; [constructor; [left; reflexivity | constructor] | constructor]|].
         apply Forall_app. split; [|exact Hall].
         destruct (attempt <? maxAttempts)%nat;
             [constructor; [right; reflexivity | constructor] | constructor].
Qed.

(** X5: [waitForNewBarcode] returns either null or a non-empty barcode
    different from [previousBarcode]; it issues at most 10 requests, sleeps
    at most 9 times, and every sleep lasts 3000 ms. *)
Theorem waitForNewBarcode_bounded (clock : nat -> Z) (net : nat -> FetchOutcome)
    (previousBarcode : option string) (self : BarcodeService) :
  let '(r, _, evs) := waitForNewBarcode clock net previousBarcode self in
  (JS.truthy r = true /\ r <> previousBarcode \/ r = None) /\
  (List.length (List.filter isRequest evs) <= 10)%nat /\
  (List.length (List.filter (fun e => negb (isRequest e)) evs) <= 9)%nat /\
  Forall (fun e => isRequest e = true \/ e = Slept 3000) evs.
Proof.
  unfold waitForNewBarcode.
  pose proof (waitLoop_spec maxAttempts 1 clock net previousBarcode self) as H.
  destruct (waitLoop maxAttempts 1 clock net previousBarcode self) as [[r self'] evs].
  destruct H as (Hr & Hreq & Hsl & Hall).
  repeat split; auto.
Qed.

Lemma waitLoop_starved (remaining attempt : nat) clock net (self : BarcodeService) :
  JS.truthy (cachedBarcode self) = true ->
  (forall k, (attempt <= k < attempt + remaining)%nat ->
             clock k - lastFetch self < cacheTimeout) ->
  (attempt + remaining = S maxAttempts)%nat ->
  waitLoop remaining attempt clock net (cachedBarcode self) self
  = (None, self, replicate (remaining - 1) (Slept delayMs)).
Proof.
  revert attempt. induction remaining as [|remaining IH]; intros attempt Hc Hfresh Hend;
    [reflexivity|].
  cbn [waitLoop]. unfold getCurrentBarcode. rewrite Hc.
  replace (clock attempt - lastFetch self <? cacheTimeout) with true
    by (symmetry; apply Z.ltb_lt, Hfresh; lia).
  cbn [andb]. rewrite Hc. rewrite bool_decide_eq_true_2 by reflexivity. cbn [andb negb].
  destruct remaining as [|remaining'].
  - replace (attempt <? maxAttempts)%nat with false
      by (symmetry; apply Nat.ltb_ge; lia).
    reflexivity.
  - replace (attempt <? maxAttempts)%nat with true
      by (symmetry; apply Nat.ltb_lt; lia).
    rewrite (IH (S attempt)); [| exact Hc | intros k Hk; apply Hfresh; lia | lia].
    simpl. rewrite Nat.sub_0_r. reflexivity.
Qed.

(** X6: while the cache holds a barcode that stays fresh during all ten
    attempts, polling for a barcode different from the cached one never
    issues a request: it sleeps nine times and returns null with the service
    unchanged, whatever barcode the network would deliver. *)
Theorem waitForNewBarcode_starved (clock : nat -> Z) (net : nat -> FetchOutcome)
    (self : BarcodeService)
    (Hcached : JS.truthy (cachedBarcode self) = true)
    (Hfresh : forall k, (1 <= k <= 10)%nat -> clock k - lastFetch self < 30000) :
  waitForNewBarcode clock net (cachedBarcode self) self
  = (None, self, replicate 9 (Slept 3000)).
Proof.
  unfold waitForNewBarcode.
  rewrite (waitLoop_starved maxAttempts 1 clock net self Hcached); [reflexivity| |reflexivity].
  intros k Hk. apply Hfresh. unfold maxAttempts in Hk. lia.
Qed.

Lemma waitForNewBarcode_starved_witness :
  (waitForNewBarcode (fun k => 1000 + 3000 * Z.of_nat k) (fun _ => FetchBody (Some "456"))
     (Some "123") {| cachedBarcode := Some "123"; lastFetch := 2000 |}).1.1 = None.
Proof.
  refine (f_equal (fun x => x.1.1)
            (waitForNewBarcode_starved (fun k => 1000 + 3000 * Z.of_nat k)
               (fun _ => FetchBody (Some "456"))
               {| cachedBarcode := Some "123"; lastFetch := 2000 |} eq_refl _)).
  intros k Hk. simpl. unfold cacheTimeout. lia.
Defined.

(** ** Logger *)

Lemma indexOf_level (l : LogLevel) : indexOf logLevels (levelName l) = Z.of_nat (levelRank l).
Proof. destruct l; reflexivity. Qed.

Lemma indexOf_configured (configured : string) :
  (exists l, configured = levelName l) \/
  (indexOf logLevels configured = -1 /\ forall l, configured <> levelName l).
Proof.
  cbv [indexOf logLevels indexOfFrom].
  destruct (String.eqb_spec "debug" configured) as [<-|H1]; [left; exists debug; reflexivity|].
  destruct (String.eqb_spec "info" configured) as [<-|H2]; [left; exists info; reflexivity|].
  destruct (String.eqb_spec "warn" configured) as [<-|H3]; [left; exists warn; reflexivity|].
  destruct (String.eqb_spec "error" configured) as [<-|H4]; [left; exists error; reflexivity|].
  right. split; [reflexivity|]. intros [] Heq; simpl in Heq; congruence.
Qed.

(** X7: the logger's threshold.  Messages of level [error] are always
    logged; with one of the four level names configured, a level is logged
    exactly when it is not below the configured one; a configured value that
    is no level name silences nothing; with [LOG_LEVEL] unset or empty
    everything but [debug] is logged. *)
Theorem shouldLog_threshold (configured : string) (level : LogLevel) :
  shouldLog configured error = true /\
  (forall l, configured = levelName l ->
             shouldLog configured level = true <-> (levelRank l <= levelRank level)%nat) /\
  ((forall l, configured <> levelName l) -> shouldLog configured level = true) /\
  (forall env, JS.truthy env = false ->
               shouldLog (loggerLevel env) level = true <-> level <> debug).
Proof.
  unfold shouldLog. rewrite !indexOf_level. split; [|split; [|split]].
  - apply Z.leb_le. destruct (indexOf_configured configured) as [[l ->]|[-> _]].
    + rewrite indexOf_level. destruct l; simpl; lia.
    + simpl. lia.
  - intros l ->. rewrite indexOf_level, Z.leb_le. lia.
  - intros Hunknown. destruct (indexOf_configured configured) as [[l ->]|[-> _]].
    + exfalso. exact (Hunknown l eq_refl).
    + apply Z.leb_le. lia.
  - intros env Henv.
    assert (Hl : loggerLevel env = "info") by (destruct env as [[|c s]|]; [reflexivity|discriminate|reflexivity]).
    rewrite Hl. destruct level; simpl; split; intros H; try reflexivity; try discriminate;
      congruence.
Qed.

(** ** Dataset cache *)

(** X8: [fetchProductData] returns data only from a cache entry younger
    than five minutes (without a request) or from the response of the request
    it has just issued, which it then caches; a failed request returns null
    and leaves the cache as it is, stale data included but unused; a null
    body returns null and replaces the cached data. *)
Theorem fetchProductData_never_stale (now done : Z) (net : option (option S3ProductData))
    (self : DataIngestionService) :
  let '(r, self', fetched) := fetchProductData now done net self in
  (forall data, r = Some data ->
     (fetched = false /\ cachedData self = Some data /\
      exists fetchedAt, dataLastFetch self = Some fetchedAt /\
                        now - fetchedAt < dataCacheTimeout) \/
     (fetched = true /\ net = Some (Some data) /\
      self' = {| cachedData := Some data; dataLastFetch := Some done |})) /\
  (fetched = true -> net = None -> r = None /\ self' = self) /\
  (fetched = true -> net = Some None ->
   r = None /\ self' = {| cachedData := None; dataLastFetch := Some done |}).
Proof.
  unfold fetchProductData.
  destruct (cachedData self) as [data0|] eqn:Hc; [destruct (dataLastFetch self) as [t|] eqn:Ht|].
  - destruct (now - t <? dataCacheTimeout) eqn:Hage.
    + apply Z.ltb_lt in Hage. repeat split; try discriminate.
      intros data [= <-]. left. eauto.
    + destruct net as [[data'|]|]; repeat split; try discriminate; auto.
      intros data [= <-]. right. auto.
  - destruct net as [[data'|]|]; repeat split; try discriminate; auto.
    intros data [= <-]. right. auto.
  - destruct net as [[data'|]|]; repeat split; try discriminate; auto.
    intros data [= <-]. right. auto.
Qed.

(** X9: [refreshData] succeeds exactly when the request returns a non-null
    body, which is then the cached data; after a refresh that did not
    succeed the cache is empty, whatever it held before. *)
Theorem refreshData_drops_cache (now done : Z) (net : option (option S3ProductData))
    (self : DataIngestionService) :
  let '(ok, self') := refreshData now done net self in
  (ok = true <-> exists data, net = Some (Some data)) /\
  (ok = true -> cachedData self' = default None net) /\
  (ok = false -> cachedData self' = None).
Proof.
  unfold refreshData, fetchProductData. simpl.
  destruct net as [[data|]|]; simpl; repeat split; intros; try discriminate; eauto.
  all: try (destruct H as [d H]; discriminate H).
  all: try (exfalso; apply bool_decide_eq_false in H; apply H; discriminate).
Qed.

(** ** Parts of a manual *)

Lemma setAdd_spec (allParts : list string) (part : string) :
  NoDup allParts ->
  NoDup (setAdd allParts part) /\
  (forall x, x ∈ setAdd allParts part <-> x ∈ allParts \/ x = part) /\
  allParts `prefix_of` setAdd allParts part.
Proof.
  intros Hnd. unfold setAdd. destruct (bool_decide (part ∈ allParts)) eqn:Hin.
  - apply bool_decide_eq_true in Hin. split; [exact Hnd|]. split; [|reflexivity].
    intros x. split; [auto|]. intros [Hx| ->]; assumption.
  - apply bool_decide_eq_false in Hin. split; [|split].
    + apply NoDup_app. split; [exact Hnd|]. split; [|apply NoDup_singleton].
      intros x Hx Hx'. apply list_elem_of_singleton in Hx'. subst x. exact (Hin Hx).
    + intros x. rewrite elem_of_app, list_elem_of_singleton. reflexivity.
    + apply prefix_app_r. reflexivity.
Qed.

Lemma foldl_setAdd_spec (parts allParts : list string) :
  NoDup allParts ->
  NoDup (foldl setAdd allParts parts) /\
  (forall x, x ∈ foldl setAdd allParts parts <-> x ∈ allParts \/ x ∈ parts) /\
  allParts `prefix_of` foldl setAdd allParts parts.
Proof.
  revert allParts. induction parts as [|part parts IH]; intros allParts Hnd.
  - simpl. split; [exact Hnd|]. split; [|reflexivity].
    intros x. rewrite elem_of_nil. tauto.
  - simpl. destruct (setAdd_spec allParts part Hnd) as (Hnd1 & Hin1 & Hpre1).
    destruct (IH _ Hnd1) as (Hnd2 & Hin2 & Hpre2).
    split; [exact Hnd2|]. split; [|etrans; eassumption].
    intros x. rewrite Hin2, Hin1, elem_of_cons. tauto.
Qed.

Lemma addAllParts_spec (steps : list S3Step) (allParts : list string) :
  NoDup allParts ->
  NoDup (addAllParts allParts steps) /\
  (forall x, x ∈ addAllParts allParts steps <->
             x ∈ allParts \/ exists step, step ∈ steps /\ x ∈ parts_used step) /\
  allParts `prefix_of` addAllParts allParts steps.
Proof.
  revert allParts. induction steps as [|step steps IH]; intros allParts Hnd.
  - simpl. split; [exact Hnd|]. split; [|reflexivity].
    intros x. split; [auto|]. intros [Hx|(step & Hs & _)]; [exact Hx|].
    apply elem_of_nil in Hs. destruct Hs.
  - cbn [addAllParts foldl].
    destruct (foldl_setAdd_spec (parts_used step) allParts Hnd) as (Hnd1 & Hin1 & Hpre1).
    destruct (IH _ Hnd1) as (Hnd2 & Hin2 & Hpre2).
    split; [exact Hnd2|]. split; [|etrans; eassumption].
    intros x. unfold addAllParts in Hin2. rewrite Hin2, Hin1. split.
    + intros [[Hx|Hx]|(s & Hs & Hx)]; auto.
      * right. exists step. split; [left|exact Hx].
      * right. exists s. split; [right; exact Hs|exact Hx].
    + intros [Hx|(s & Hs & Hx)]; auto.
      apply elem_of_cons in Hs as [->|Hs]; [auto|]. right. eauto.
Qed.

Lemma addAllParts_app (steps more : list S3Step) (allParts : list string) :
  addAllParts allParts (steps ++ more) = addAllParts (addAllParts allParts steps) more.
Proof. unfold addAllParts. apply foldl_app. Qed.

(** X10: [extractAllParts] lists every part used by some step exactly
    once and nothing else, in the order of first use: the list for the first
    steps of a manual is a prefix of the list for the whole manual. *)
Theorem extractAllParts_distinct (steps more : list S3Step) :
  NoDup (extractAllParts steps) /\
  (forall part, part ∈ extractAllParts steps <->
                exists step, step ∈ steps /\ part ∈ parts_used step) /\
  extractAllParts steps `prefix_of` extractAllParts (steps ++ more).
Proof.
  unfold extractAllParts.
  destruct (addAllParts_spec steps [] (NoDup_nil_2)) as (Hnd & Hin & _).
  split; [exact Hnd|]. split.
  - intros part. rewrite Hin, elem_of_nil. tauto.
  - rewrite addAllParts_app. apply addAllParts_spec, Hnd.
Qed.

(** ** Steps of a manual *)

Lemma find_numbered (l : list InstructionService.InstructionStep) (k n : Z) :
  (forall (i : nat) step, l !! i = Some step ->
                          InstructionService.stepNumber step = k + Z.of_nat i) ->
  k <= n < k + Z.of_nat (List.length l) ->
  List.find (fun step => InstructionService.stepNumber step =? n) l = l !! Z.to_nat (n - k).
Proof.
  revert k. induction l as [|s l IH]; intros k Hnum Hn; [simpl in Hn; lia|].
  simpl. pose proof (Hnum 0%nat s eq_refl) as Hs. rewrite Z.add_0_r in Hs.
  destruct (InstructionService.stepNumber s =? n) eqn:Heq.
  - apply Z.eqb_eq in Heq. replace (n - k) with 0 by lia. reflexivity.
  - apply Z.eqb_neq in Heq.
    rewrite (IH (k + 1)).
    + replace (Z.to_nat (n - k)) with (S (Z.to_nat (n - (k + 1)))) by lia. reflexivity.
    + intros i step Hi. rewrite (Hnum (S i) step Hi). lia.
    + cbn [List.length] in Hn. lia.
Qed.

(** X11: for a manual whose steps are numbered 1, 2, ... in order and
    whose [totalSteps] is their number, [getInstructionStep] is the lookup at
    index [stepNumber - 1] when [1 <= stepNumber <= totalSteps] and null
    otherwise; in that range it returns a step, and the step carries the
    number asked for. *)
Theorem getInstructionStep_numbered (manual : InstructionService.InstructionManual)
    (stepNumber : Z)
    (Hnum : InstructionService.numbered manual) :
  InstructionService.getInstructionStep manual stepNumber
  = (if (1 <=? stepNumber) && (stepNumber <=? InstructionService.totalSteps manual)
     then InstructionService.steps manual !! Z.to_nat (stepNumber - 1)
     else None) /\
  (1 <= stepNumber <= InstructionService.totalSteps manual ->
   exists step, InstructionService.getInstructionStep manual stepNumber = Some step /\
                InstructionService.stepNumber step = stepNumber).
Proof.
  destruct Hnum as [Htotal Hnum].
  assert (Hfind : 1 <= stepNumber <= InstructionService.totalSteps manual ->
            List.find (fun step => InstructionService.stepNumber step =? stepNumber)
                      (InstructionService.steps manual)
            = InstructionService.steps manual !! Z.to_nat (stepNumber - 1)).
  { intros Hn. apply find_numbered; [|lia].
    intros i step Hi. rewrite (Hnum i step Hi). lia. }
  unfold InstructionService.getInstructionStep. split.
  - destruct (stepNumber <? 1) eqn:Hlow.
    + apply Z.ltb_lt in Hlow.
      replace (1 <=? stepNumber) with false by (symmetry; apply Z.leb_gt; lia).
      reflexivity.
    + apply Z.ltb_ge in Hlow.
      replace (1 <=? stepNumber) with true by (symmetry; apply Z.leb_le; lia).
      destruct (InstructionService.totalSteps manual <? stepNumber) eqn:Hhigh.
      * apply Z.ltb_lt in Hhigh.
        replace (stepNumber <=? InstructionService.totalSteps manual) with false
          by (symmetry; apply Z.leb_gt; lia).
        reflexivity.
      * apply Z.ltb_ge in Hhigh.
        replace (stepNumber <=? InstructionService.totalSteps manual) with true
          by (symmetry; apply Z.leb_le; lia).
        simpl. apply Hfind. lia.
  - intros Hn.
    replace (stepNumber <? 1) with false by (symmetry; apply Z.ltb_ge; lia).
    replace (InstructionService.totalSteps manual <? stepNumber) with false
      by (symmetry; apply Z.ltb_ge; lia).
    simpl. rewrite (Hfind Hn).
    destruct (lookup_lt_is_Some_2 (InstructionService.steps manual) (Z.to_nat (stepNumber - 1)))
      as [step Hstep]; [lia|].
    exists step. split; [exact Hstep|]. rewrite (Hnum _ step Hstep). lia.
Qed.

Lemma getInstructionStep_numbered_witness :
  InstructionService.getInstructionStep InstructionService.sampleManual 2
  = Some (InstructionService.sampleStep 2 "Attach the sides").
Proof.
  refine (proj1 (getInstructionStep_numbered InstructionService.sampleManual 2 _)).
  split; [reflexivity|].
  intros [|[|[|i]]] step Hi; try discriminate Hi; injection Hi as <-; reflexivity.
Defined.

(** ** Search results *)

Lemma transformResults_In (f : RawResult -> SearchItem) (organic : option (list RawResult))
    (item : SearchItem) :
  In item (transformResults f organic) ->
  exists r rs, organic = Some rs /\ In r rs /\ notThdStatic r = true /\ item = f r.
Proof.
  destruct organic as [rs|]; simpl; [|tauto].
  intros Hin. apply in_map_iff in Hin as (r & <- & Hr).
  apply list_elem_of_In, list_elem_of_filter in Hr as [Hgood Hr].
  exists r, rs. repeat split; auto.
  - apply list_elem_of_In, Hr.
  - apply Is_true_true, Hgood.
Qed.

Lemma notThdStatic_link (f : RawResult -> SearchItem) (r : RawResult) :
  item_link (f r) = raw_link r -> notThdStatic r = true -> hasThdStaticLink (f r) = false.
Proof.
  unfold notThdStatic, hasThdStaticLink. intros ->.
  destruct (raw_link r); [|reflexivity]. intros H. apply negb_true_iff, H.
Qed.

(** X12: the items returned by [searchWithGoogle] and by
    [searchGoogleForPDFs] never have a link containing
    [https://images.thdstatic.com]; and items are returned only with the
    SerpAPI key configured. *)
Theorem search_results_exclude_thdstatic (w : World) (query : string)
    (cache : gmap string Project) (h : list Event) (items : list SearchItem) :
  (searchWithGoogle w query cache h).1.1 = Some items \/
  (searchGoogleForPDFs w query cache h).1.1 = Some items ->
  Forall (fun item => hasThdStaticLink item = false) items /\
  SERPAPI_KEY w = true.
Proof.
  intros H. unfold searchWithGoogle, searchGoogleForPDFs, call in H. simpl in H.
  destruct (SERPAPI_KEY w); [|destruct H; discriminate].
  assert (Hcase : exists f organic,
             (forall r, item_link (f r) = raw_link r) /\
             items = transformResults f organic).
  { destruct H as [H|H].
    - destruct (serpapi w h query 5) as [organic|]; [|discriminate].
      injection H as <-. exists toItem, organic. split; [reflexivity|reflexivity].
    - destruct (serpapi w h (pdfQuery query) 10) as [organic|]; [|discriminate].
      injection H as <-. exists toPdfItem, organic. split; [reflexivity|reflexivity]. }
  destruct Hcase as (f & organic & Hlink & ->).
  split; [|reflexivity].
  apply List.Forall_forall. intros item Hin.
  apply transformResults_In in Hin as (r & rs & _ & _ & Hgood & ->).
  apply notThdStatic_link; auto.
Qed.

Lemma search_results_exclude_thdstatic_witness :
  Forall (fun item => hasThdStaticLink item = false) [toItem widgetHit].
Proof.
  refine (proj1 (search_results_exclude_thdstatic
                   (widgetWorld None NoJsonArray) "acme widget" ∅ [] [toItem widgetHit] _)).
  left. reflexivity.
Defined.

(** X13: in the items of [searchGoogleForPDFs], an item whose
    lower-cased link contains [.pdf] is tagged with file format [PDF] and mime
    type [application/pdf] and is accepted by [isPDF]; every other item has
    neither tag. *)
Theorem pdf_search_tags (w : World) (query : string)
    (cache : gmap string Project) (h : list Event) (items : list SearchItem) :
  (searchGoogleForPDFs w query cache h).1.1 = Some items ->
  Forall (fun item =>
            (itemLinkHasPdf item = true ->
             item_fileFormat item = Some "PDF" /\ item_mime item = Some "application/pdf" /\
             isPDF item = true) /\
            (itemLinkHasPdf item = false ->
             item_fileFormat item = None /\ item_mime item = None)) items.
Proof.
  intros H. unfold searchGoogleForPDFs, call in H. simpl in H.
  destruct (SERPAPI_KEY w); [|discriminate].
  destruct (serpapi w h (pdfQuery query) 10) as [organic|]; [|discriminate].
  injection H as <-.
  apply List.Forall_forall. intros item Hin.
  apply transformResults_In in Hin as (r & rs & _ & _ & _ & ->).
  unfold itemLinkHasPdf, toPdfItem, linkHasPdf. simpl.
  destruct (raw_link r) as [l|] eqn:Hl.
  - destruct (JS.includes (JS.toLowerCase l) ".pdf") eqn:Hpdf; split; intros Hc;
      try discriminate Hc; auto.
    split; [reflexivity|]. split; [reflexivity|].
    apply (pdf_link_isPDF _ l); [first [exact Hl | reflexivity] | right; exact Hpdf].
  - split; intros Hc; [discriminate Hc | auto].
Qed.

Lemma pdf_search_tags_witness :
  Forall (fun item =>
            (itemLinkHasPdf item = true ->
             item_fileFormat item = Some "PDF" /\ item_mime item = Some "application/pdf" /\
             isPDF item = true) /\
            (itemLinkHasPdf item = false ->
             item_fileFormat item = None /\ item_mime item = None))
         [toPdfItem manualHit; toPdfItem widgetHit].
Proof.
  apply (pdf_search_tags manualWorld "acme widget assembly manual" ∅ []). reflexivity.
Defined.

Lemma hasQuote_removeQuotes (s : string) : hasQuote (removeQuotes s) = false.
Proof.
  induction s as [|c s IH]; [reflexivity|].
  simpl. destruct (isQuote c) eqn:Hc; [exact IH|].
  simpl. rewrite Hc, IH. reflexivity.
Qed.

Lemma hasQuote_trimStart (s : string) : hasQuote s = false -> hasQuote (JS.trimStart s) = false.
Proof.
  induction s as [|c s IH]; [reflexivity|].
  intros H. simpl. destruct (JS.isSpace c); [|exact H].
  apply IH. simpl in H. apply orb_false_iff in H. tauto.
Qed.

Lemma hasQuote_trimEnd (s : string) : hasQuote s = false -> hasQuote (JS.trimEnd s) = false.
Proof.
  induction s as [|c s IH]; [reflexivity|].
  intros H. simpl in H. apply orb_false_iff in H as [Hc Hs]. specialize (IH Hs).
  simpl. destruct (JS.trimEnd s) as [|c' t].
  - destruct (JS.isSpace c); [reflexivity|]. simpl. rewrite Hc. reflexivity.
  - change (hasQuote (String c (String c' t)) = false).
    change (hasQuote (String c (String c' t))) with (isQuote c || hasQuote (String c' t)).
    rewrite Hc, IH. reflexivity.
Qed.

Lemma hasQuote_append (a b : string) : hasQuote (a ++ b) = hasQuote a || hasQuote b.
Proof.
  induction a as [|c a IH]; [reflexivity|].
  rewrite append_cons. simpl. rewrite IH, orb_assoc. reflexivity.
Qed.

(** X14: the query [searchGoogleForPDFs] sends contains no single or
    double quote and ends in [ filetype:pdf]; for a query without quotes it is
    the trimmed query followed by that suffix. *)
Theorem pdfQuery_clean (query : string) :
  hasQuote (pdfQuery query) = false /\
  JS.endsWith (pdfQuery query) " filetype:pdf" = true /\
  (hasQuote query = false -> pdfQuery query = JS.trim query ++ " filetype:pdf").
Proof.
  unfold pdfQuery. split; [|split].
  - rewrite hasQuote_append. unfold JS.trim.
    rewrite hasQuote_trimEnd; [reflexivity|].
    apply hasQuote_trimStart, hasQuote_removeQuotes.
  - apply endsWith_spec. eexists. reflexivity.
  - intros Hq. f_equal. f_equal. induction query as [|c q IH]; [reflexivity|].
    simpl in Hq. apply orb_false_iff in Hq as [Hc Hs].
    simpl. rewrite Hc, (IH Hs). reflexivity.
Qed.

(** ** The pipeline without its keys *)

(** X15: without the Cerebras key a barcode that is not cached cannot be
    resolved: the call returns null after the identification step alone, with
    no search, no synthesis, no upload, and the cache unchanged. *)
Theorem without_cerebras_key (w : World) (voiceCommand code : string) (sess : bool)
    (cache : gmap string Project) (h : list Event)
    (Hkey : CEREBRAS_API_KEY w = false)
    (Hmiss : cache !! cacheKey code = None) :
  processVoiceCommandWithAI w voiceCommand code sess cache h
  = (None, cache, [EvIdentify code None]).
Proof.
  unfold processVoiceCommandWithAI. rewrite bind_run. cbn [cacheGet]. rewrite Hmiss.
  rewrite bind_run. unfold identifyProductFromBarcode, call. rewrite Hkey. reflexivity.
Qed.

Lemma without_cerebras_key_witness :
  processVoiceCommandWithAI noKeysWorld "start" "0123456789012" true ∅ []
  = (None, ∅, [EvIdentify "0123456789012" None]).
Proof.
  apply without_cerebras_key; reflexivity.
Defined.

Lemma searchWithGoogle_nokey w q cache h :
  SERPAPI_KEY w = false -> searchWithGoogle w q cache h = (None, cache, [EvGoogle q None]).
Proof. intros Hkey. unfold searchWithGoogle, call. rewrite Hkey. reflexivity. Qed.

Lemma productSearch_nokey w code q cache h :
  SERPAPI_KEY w = false -> (productSearch w code q cache h).1 = (None, cache).
Proof.
  intros Hkey. unfold productSearch, fallbackQueries. rewrite bind_run.
  rewrite (searchWithGoogle_nokey w q cache h Hkey). cbn [hasItems negb fallbackLoop].
  repeat (rewrite bind_run; rewrite searchWithGoogle_nokey by exact Hkey;
          cbn [hasItems]; rewrite bind_run; cbn [emit]).
  reflexivity.
Qed.

(** X16: without the SerpAPI key a barcode that is not cached is resolved,
    if at all, only through Exa: the result is the three-step project of the
    degraded path, nothing is cached, and without the Exa key as well the
    result is null. *)
Theorem without_serpapi_key (w : World) (voiceCommand code : string) (sess : bool)
    (cache : gmap string Project) (h : list Event)
    (r : option Project) (cache' : gmap string Project) (evs : list Event)
    (Hkey : SERPAPI_KEY w = false)
    (Hmiss : cache !! cacheKey code = None)
    (Hrun : processVoiceCommandWithAI w voiceCommand code sess cache h = (r, cache', evs)) :
  cache' = cache /\
  (forall p, r = Some p ->
             exists q firstResult, p = degradedProject code q firstResult /\
                                   List.length (steps p) = 3%nat) /\
  (EXA_API_KEY w = false -> r = None).
Proof.
  unfold processVoiceCommandWithAI in Hrun. rewrite bind_run in Hrun.
  cbn [cacheGet] in Hrun. rewrite Hmiss in Hrun. rewrite bind_run in Hrun.
  destruct (identify_run w code cache (h ++ [])%list) as (x & Hid & Hx).
  rewrite Hid in Hrun.
  destruct x as [[|c q]|];
    try (cbn in Hrun; injection Hrun as <- <- <-; repeat split; auto; discriminate).
  rewrite bind_run in Hrun.
  match type of Hrun with context[productSearch w code ?q0 ?c0 ?hh] =>
    pose proof (productSearch_nokey w code q0 c0 hh Hkey) as Hps;
    destruct (productSearch w code q0 c0 hh) as [[ps c1] searchEvs] end.
  simpl in Hps. injection Hps as -> ->. cbn [hasItems negb] in Hrun.
  unfold resolveWithExa, searchWithExa, call in Hrun. rewrite bind_run in Hrun.
  destruct (EXA_API_KEY w).
  - match type of Hrun with context[exaSearch w ?hh ?qq] =>
      destruct (exaSearch w hh qq) as [[[|firstResult others]|]|] end;
      cbn in Hrun; injection Hrun as <- <- <-; repeat split; auto; try discriminate.
    intros p [= <-]. eauto.
  - cbn in Hrun. injection Hrun as <- <- <-. repeat split; auto; discriminate.
Qed.

Lemma without_serpapi_key_witness :
  exists q firstResult,
    degradedProject "0123456789012" "0123456789012 product" acmeResult
    = degradedProject "0123456789012" q firstResult /\
    List.length (steps (degradedProject "0123456789012" "0123456789012 product" acmeResult))
    = 3%nat.
Proof.
  refine (proj1 (proj2 (without_serpapi_key searchlessWorld "start" "0123456789012" true ∅ []
                          _ _ _ _ _ (run_eta _))) _ _).
  - reflexivity.
  - reflexivity.
  - reflexivity.
Defined.

(** ** The cache *)

(** X17: a call of [processVoiceCommandWithAI] reads the cache once, at
    entry, and writes it at most once.  An entry found for the barcode is
    returned without any request and without a write.  Otherwise the result
    and the requests of the call do not depend on what the cache holds, and
    the only effect on the cache is one store, of the project the call
    returns, under the key of the barcode; there is no store when the call
    returns null or takes the Exa path.  No entry is ever removed and no
    other key is written. *)
Theorem cache_single_store (w : World) (voiceCommand code : string) (sess : bool)
    (h : list Event) :
  exists r write evs,
    (forall cache, cache !! cacheKey code = None ->
       processVoiceCommandWithAI w voiceCommand code sess cache h
       = (r, storeAt (cacheKey code) write cache, evs)) /\
    (write = None \/ write = r) /\
    (r = None -> write = None) /\
    (existsb isExa evs = true -> write = None) /\
    (forall cache p, cache !! cacheKey code = Some p ->
       processVoiceCommandWithAI w voiceCommand code sess cache h = (Some p, cache, [])).
Proof.
  destruct (writesOnly_miss w voiceCommand code sess (h ++ [])%list)
    as (r & write & evs & Hmiss).
  assert (Hrun : forall cache, cache !! cacheKey code = None ->
            processVoiceCommandWithAI w voiceCommand code sess cache h
            = (r, storeAt (cacheKey code) write cache, evs)).
  { intros cache Hc. unfold processVoiceCommandWithAI. rewrite bind_run.
    cbn [cacheGet]. rewrite Hc. rewrite Hmiss. reflexivity. }
  exists r, write, evs. split; [exact Hrun|].
  pose proof (Hrun ∅ (lookup_empty _)) as H0.
  apply pipeline_outcome_eq, outcome_store in H0.
  assert (Hfacts : write = None \/
                   exists p, write = Some p /\ r = Some p /\ existsb isExa evs = false).
  { destruct write as [p'|]; [right|left; reflexivity].
    assert (Hl : storeAt (cacheKey code) (Some p') ∅ !! cacheKey code = Some p')
      by apply lookup_insert_eq.
    destruct H0 as [He|(p & -> & He & Hexa)].
    - rewrite He, lookup_empty in Hl. discriminate Hl.
    - rewrite He, lookup_insert_eq in Hl. injection Hl as ->. eauto. }
  clear H0. split; [|split; [|split]].
  - destruct Hfacts as [->|(p & -> & -> & _)]; auto.
  - intros ->. destruct Hfacts as [->|(p & _ & Hr & _)]; [reflexivity | discriminate Hr].
  - intros Hexa. destruct Hfacts as [->|(p & _ & _ & Hno)]; [reflexivity | congruence].
  - intros cache p Hc. apply cached_result_returned, Hc.
Qed.

(** X18: starting from a cache in which every entry is filed under its own
    id, has source [barcode] and a step count equal to the number of its
    steps, a call of [processVoiceCommandWithAI] leaves the cache so, and the
    project it returns has the id [barcode_<code>] of the barcode asked for,
    source [barcode], and a step count equal to the number of its steps. *)
Theorem cache_stays_well_formed (w : World) (voiceCommand code : string) (sess : bool)
    (cache : gmap string Project) (h : list Event)
    (r : option Project) (cache' : gmap string Project) (evs : list Event)
    (Hwf : cacheWellFormed cache)
    (Hrun : processVoiceCommandWithAI w voiceCommand code sess cache h = (r, cache', evs)) :
  cacheWellFormed cache' /\
  (forall p, r = Some p -> pipelineShaped (cacheKey code) p).
Proof.
  apply pipeline_outcome_eq in Hrun.
  inversion Hrun; subst; clear Hrun.
  - split; [exact Hwf|]. intros p' [= <-]. apply Hwf. assumption.
  - split; [exact Hwf|]. discriminate.
  - split; [exact Hwf|]. intros p Hp.
    match goal with Hx : exaProject _ _ ?x = Some p |- _ =>
      destruct x as [[[|firstResult others]|]|]; try discriminate Hx;
      injection Hx as <- end.
    repeat split.
  - split; [exact Hwf|]. discriminate.
  - split; [exact Hwf|]. discriminate.
  - assert (Hp : pipelineShaped (cacheKey code) (pipelineProject code productTitle stepList))
      by (repeat split).
    split; [|intros p [= <-]; exact Hp].
    intros key p Hlook. destruct (decide (key = cacheKey code)) as [->|Hne].
    + rewrite lookup_insert_eq in Hlook. injection Hlook as <-. exact Hp.
    + rewrite lookup_insert_ne in Hlook by congruence. apply Hwf, Hlook.
Qed.

Lemma cache_stays_well_formed_witness :
  pipelineShaped (cacheKey "0123456789012") widgetProject.
Proof.
  refine (proj2 (cache_stays_well_formed manualWorld "start" "0123456789012" true ∅ [] _ _ _
                   _ (run_eta _)) widgetProject _).
  - intros key p Hp. rewrite lookup_empty in Hp. discriminate Hp.
  - reflexivity.
Defined.

(** ** Requests of one call *)

Lemma count_shows (kind : Event -> bool) (shows : list Event) :
  forallb isShow shows = true -> (forall t d, kind (EvShowTextWall t d) = false) ->
  count kind shows = 0%nat.
Proof.
  intros Hs Hk. apply (count_none kind isShow); [exact Hs|].
  intros e He. destruct e; try discriminate He. apply Hk.
Qed.

(** X19: one call of [processVoiceCommandWithAI] calls [searchWithGoogle]
    at most 6 times and waits at most 4 times, 500 ms each; it asks either
    Exa or the step synthesizer, never both, and each at most once; and it
    uploads exactly once per synthesis. *)
Theorem request_budget (w : World) (voiceCommand code : string) (sess : bool)
    (cache : gmap string Project) (h : list Event)
    (r : option Project) (cache' : gmap string Project) (evs : list Event)
    (Hrun : processVoiceCommandWithAI w voiceCommand code sess cache h = (r, cache', evs)) :
  (count isGoogle evs <= 6)%nat /\
  (count isSleep evs <= 4)%nat /\
  Forall (fun e => isSleep e = true -> e = EvSleep 500) evs /\
  (count isExa evs + count isGenerate evs <= 1)%nat /\
  count isUpload evs = count isGenerate evs.
Proof.
  assert (Hshow_sleep : forall shows, forallb isShow shows = true ->
            Forall (fun e => isSleep e = true -> e = EvSleep 500) shows).
  { intros shows Hs. apply List.Forall_forall. intros e He Hsl.
    rewrite forallb_forall in Hs. specialize (Hs e He). destruct e; discriminate. }
  apply pipeline_events in Hrun.
  destruct Hrun as [(-> & _)|(_ & [(x & -> & _)|(q & h1 & tailEvs & -> & Htail)])].
  - repeat split; try (unfold count; simpl; lia). constructor.
  - repeat split; try (unfold count; simpl; lia). constructor; [discriminate|constructor].
  - pose proof (productSearch_counts w code q cache h1) as (Hg & Hs & Hall & Hsearch).
    set (searchEvs := (productSearch w code q cache h1).2) in *.
    assert (Hse : count isExa searchEvs = 0%nat)
      by (apply (count_none _ isSearchStep); [exact Hsearch | intros [] ?; try discriminate; reflexivity]).
    assert (Hsg : count isGenerate searchEvs = 0%nat)
      by (apply (count_none _ isSearchStep); [exact Hsearch | intros [] ?; try discriminate; reflexivity]).
    assert (Hsu : count isUpload searchEvs = 0%nat)
      by (apply (count_none _ isSearchStep); [exact Hsearch | intros [] ?; try discriminate; reflexivity]).
    destruct Htail as [(x & -> & _)|[(t & -> & _)|[(t & shows & y & -> & Hshows & _)|
                       (t & shows & iq & h2 & -> & Hshows & _)]]].
    + rewrite !count_cons, !count_app, !count_cons, !count_nil, Hse, Hsg, Hsu.
      cbn [isGoogle isSleep isExa isGenerate isUpload].
      repeat split; try lia.
      constructor; [discriminate|]. apply Forall_app. split; [exact Hall|].
      constructor; [discriminate|constructor].
    + rewrite !count_cons, !count_app, !count_cons, !count_nil, Hse, Hsg, Hsu.
      cbn [isGoogle isSleep isExa isGenerate isUpload].
      repeat split; try lia.
      constructor; [discriminate|]. apply Forall_app. split; [exact Hall|].
      constructor; [discriminate|constructor].
    + rewrite !count_cons, !count_app, !count_cons, !count_app, !count_cons, !count_nil,
        Hse, Hsg, Hsu.
      rewrite !(count_shows _ shows Hshows) by reflexivity.
      cbn [isGoogle isSleep isExa isGenerate isUpload].
      repeat split; try lia.
      constructor; [discriminate|]. apply Forall_app. split; [exact Hall|].
      constructor; [discriminate|]. apply Forall_app. split; [apply Hshow_sleep, Hshows|].
      constructor; [discriminate|constructor].
    + destruct (resolveInstructions_events w code t iq sess cache h2)
        as (r0 & second & stepList & pdfUrl & uploaded & shows2 & Heq & Hsecond & _ & Hshows2 & _).
      cbn zeta in Heq. rewrite Heq. cbn [snd].
      rewrite !count_cons, !count_app, !count_cons, !count_app, !count_cons, !count_app,
        !count_cons, Hse, Hsg, Hsu.
      rewrite !(count_shows _ shows Hshows) by reflexivity.
      rewrite !(count_shows _ shows2 Hshows2) by reflexivity.
      cbn [isGoogle isSleep isExa isGenerate isUpload].
      destruct Hsecond as [->|[r' ->]]; rewrite ?count_cons, ?count_nil;
        cbn [isGoogle isSleep isExa isGenerate isUpload].
      * repeat split; try lia.
        constructor; [discriminate|]. apply Forall_app. split; [exact Hall|].
        constructor; [discriminate|]. apply Forall_app. split; [apply Hshow_sleep, Hshows|].
        constructor; [discriminate|]. constructor; [discriminate|]. simpl.
        constructor; [discriminate|]. constructor; [discriminate|].
        apply Hshow_sleep, Hshows2.
      * repeat split; try lia.
        constructor; [discriminate|]. apply Forall_app. split; [exact Hall|].
        constructor; [discriminate|]. apply Forall_app. split; [apply Hshow_sleep, Hshows|].
        constructor; [discriminate|]. constructor; [discriminate|]. simpl.
        constructor; [discriminate|]. constructor; [discriminate|].
        constructor; [discriminate|]. apply Hshow_sleep, Hshows2.
Qed.

Lemma request_budget_witness :
  (count isGoogle
     (processVoiceCommandWithAI manualWorld "start" "0123456789012" true ∅ []).2 <= 6)%nat.
Proof.
  exact (proj1 (request_budget manualWorld "start" "0123456789012" true ∅ [] _ _ _
                  (run_eta _))).
Defined.

(** X20: for a barcode that is not cached, a project is uploaded exactly
    when it is stored in the cache: every upload is of the returned project
    for the barcode asked for, with the steps the synthesizer gave and the
    manual address it was given (none where it got the empty address), and a
    project in the cache after the call has been uploaded. *)
Theorem upload_iff_stored (w : World) (voiceCommand code : string) (sess : bool)
    (cache : gmap string Project) (h : list Event)
    (r : option Project) (cache' : gmap string Project) (evs : list Event)
    (Hmiss : cache !! cacheKey code = None)
    (Hrun : processVoiceCommandWithAI w voiceCommand code sess cache h = (r, cache', evs)) :
  (forall p c uploaded, In (EvUpload p c uploaded) evs ->
     c = code /\ r = Some p /\ cache' !! cacheKey code = Some p /\
     exists productTitle pdfUrl,
       In (EvGenerate productTitle pdfUrl (steps p)) evs /\
       (uploaded = Some pdfUrl \/ (uploaded = None /\ pdfUrl = ""))) /\
  (forall p, cache' !! cacheKey code = Some p ->
             exists uploaded, In (EvUpload p code uploaded) evs).
Proof.
  pose proof Hrun as Hev. apply pipeline_events in Hev.
  destruct Hev as [(-> & -> & _)|(_ & [(x & -> & _ & ->)|(q & h1 & tailEvs & -> & Htail)])].
  - split; [intros p c u []|]. intros p Hp. congruence.
  - split; [intros p c u Hin; in_cases Hin|]. intros p Hp. congruence.
  - pose proof (productSearch_counts w code q cache h1) as (_ & _ & _ & Hsearch).
    destruct Htail as [(x & -> & _ & ->)|[(t & -> & _ & ->)|[(t & shows & y & -> & Hshows & _ & _ & ->)|
                       (t & shows & iq & h2 & -> & Hshows & _ & -> & ->)]]].
    + split; [intros p c u Hin; in_cases Hin | intros p Hp; congruence].
    + split; [intros p c u Hin; in_cases Hin | intros p Hp; congruence].
    + split; [intros p c u Hin; in_cases Hin | intros p Hp; congruence].
    + destruct (resolveInstructions_events w code t iq sess cache h2)
        as (r0 & second & stepList & pdfUrl & uploaded & shows2 & Heq & Hsecond & Hup & Hshows2 & _).
      cbn zeta in Heq. rewrite Heq. cbn [fst snd].
      set (p0 := pipelineProject code t stepList) in *.
      split.
      * intros p c u Hin.
        destruct Hsecond as [->|[r' ->]]; in_cases Hin; injection Hin as <- <- <-.
        all: split; [reflexivity|]; split; [reflexivity|];
          split; [apply lookup_insert_eq|];
          exists t, pdfUrl; (split; [|exact Hup]);
          repeat first [left; reflexivity | apply in_or_app; right | right].
      * intros p Hp. rewrite lookup_insert_eq in Hp. injection Hp as <-.
        exists uploaded.
        repeat first [left; reflexivity | apply in_or_app; right | right].
Qed.

Lemma upload_iff_stored_witness :
  exists uploaded,
    In (EvUpload widgetProject "0123456789012" uploaded)
       (processVoiceCommandWithAI manualWorld "start" "0123456789012" true ∅ []).2.
Proof.
  refine (proj2 (upload_iff_stored manualWorld "start" "0123456789012" true ∅ [] _ _ _
                   _ (run_eta _)) widgetProject _).
  - reflexivity.
  - vm_compute. reflexivity.
Defined.

(** ** Phases and the active project *)

Lemma phaseInv_handleProjectSelection now projectId sv :
  phaseInv sv -> phaseInv (handleProjectSelection now projectId sv).
Proof.
  intros Hinv. unfold handleProjectSelection.
  destruct (availableProjects (session sv) !! projectId) as [p|]; [|exact Hinv].
  unfold phaseInv. simpl. eauto.
Qed.

Lemma phaseInv_processVoiceCommand now command sv :
  phaseInv sv -> phaseInv (processVoiceCommand now command sv).
Proof.
  intros Hinv. unfold processVoiceCommand.
  destruct (state (session sv)) eqn:Hstate.
  - unfold phaseInv in *. simpl. rewrite Hstate in *. exact Hinv.
  - repeat case_match; auto using phaseInv_handleProjectSelection.
  - destruct (currentProject (session sv)) as [p|] eqn:Hp; [|exact Hinv].
    unfold handleNextStep, handlePreviousStep. rewrite Hp.
    repeat case_match; try exact Hinv; unfold phaseInv; simpl; rewrite ?Hstate, ?Hp; eauto.
  - unfold handleNewProject. case_match; [|exact Hinv]. unfold phaseInv. simpl. auto.
Qed.

Lemma phaseInv_same (sv sv' : Server) :
  session sv' = session sv -> phaseInv sv -> phaseInv sv'.
Proof. unfold phaseInv. intros ->. tauto. Qed.

Lemma phaseInv_addProject (sv : Server) key p b :
  phaseInv sv ->
  phaseInv (withSession sv (setStepsGenerated (addProject (session sv) key p) b)) /\
  phaseInv (withSession sv (addProject (session sv) key p)).
Proof. unfold phaseInv. simpl. tauto. Qed.

Lemma phaseInv_step now i sv : phaseInv sv -> phaseInv (step now i sv).
Proof.
  intros Hinv. destruct i as [isFinal text|k result|k result|toolId|s3Data|code]; simpl.
  - unfold handleVoiceTranscription.
    repeat case_match; auto using phaseInv_processVoiceCommand.
  - unfold afterBarcode, updateCurrentBarcode.
    repeat case_match; auto.
  - destruct (pending sv !! k) as [[|command|command code]|]; auto.
    unfold afterResolution. apply phaseInv_processVoiceCommand.
    destruct result as [p|].
    + apply phaseInv_handleProjectSelection.
      exact (proj1 (phaseInv_addProject (resume sv k) (id p) p true Hinv)).
    + exact Hinv.
  - unfold onToolCall.
    destruct (String.eqb toolId "next_step"); [|destruct (String.eqb toolId "previous_step")].
    all: try exact Hinv.
    all: destruct (currentProject (session sv)) as [p|] eqn:Hp; [|exact Hinv].
    all: case_match; [|exact Hinv].
    all: unfold phaseInv in *; simpl; destruct (state (session sv));
      rewrite ?Hp in *; eauto; destruct Hinv; discriminate.
  - unfold loadS3Data. destruct s3Data; auto.
  - unfold updateCurrentBarcode. case_match; auto.
Qed.

(** X21: in every reachable state of a session, a project is active exactly
    in the building and completed phases; in the welcome and selecting phases
    the step index is 0. *)
Theorem phase_has_project (sv : Server) (Hreach : reachable sv) :
  (state (session sv) = building \/ state (session sv) = completed <->
   is_Some (currentProject (session sv))) /\
  (state (session sv) = welcome \/ state (session sv) = selecting ->
   currentStep (session sv) = 0).
Proof.
  assert (Hinv : phaseInv sv).
  { induction Hreach; [split; reflexivity | apply phaseInv_step; assumption]. }
  unfold phaseInv in Hinv.
  destruct (state (session sv)); split.
  all: try (split; [intros [H|H]; discriminate H | intros [p Hp]; destruct Hinv; congruence]).
  all: try (split; [intros _; exact Hinv | auto]).
  all: try (intros _; apply Hinv).
  all: intros [H|H]; discriminate H.
Qed.

Lemma phase_has_project_witness :
  is_Some (currentProject (session (run guidedSession (onSession 0 None)))).
Proof.
  refine (proj1 (proj1 (phase_has_project (run guidedSession (onSession 0 None))
                          (reachable_run _ _ (reachable_connect 0 None)))) _).
  left. reflexivity.
Defined.

(** ** Ignored transcriptions *)

Lemma lowerChar_space (c : ascii) : JS.isSpace c = true -> JS.lowerChar c = c.
Proof.
  unfold JS.isSpace, JS.lowerChar. intros H.
  assert (Hn : (nat_of_ascii c <= 13 \/ nat_of_ascii c = 32 \/ nat_of_ascii c = 160)%nat).
  { rewrite !orb_true_iff, andb_true_iff, !Nat.eqb_eq, !Nat.leb_le in H. lia. }
  replace (Nat.leb 65 (nat_of_ascii c) && Nat.leb (nat_of_ascii c) 90) with false
    by (symmetry; apply andb_false_iff; rewrite !Nat.leb_gt; lia).
  replace (Nat.leb 192 (nat_of_ascii c)) with false
    by (symmetry; apply Nat.leb_gt; lia).
  reflexivity.
Qed.

Lemma allSpace_command (text : string) : allSpace text = true -> commandOf text = "".
Proof.
  unfold commandOf, JS.trim. intros H.
  assert (Hs : JS.trimStart (JS.toLowerCase text) = "").
  { induction text as [|c t IH]; [reflexivity|].
    simpl in H. apply andb_true_iff in H as [Hc Ht].
    simpl. rewrite (lowerChar_space c Hc), Hc. exact (IH Ht). }
  rewrite Hs. reflexivity.
Qed.

(** X22: a transcription that is not final, has no text, or consists of
    white space only changes nothing: no state change, nothing displayed,
    nothing awaited. *)
Theorem transcription_ignored (now : Z) (isFinal : bool) (text : option string)
    (sv : Server) :
  isFinal = false \/ text = None \/ (exists t, text = Some t /\ allSpace t = true) ->
  step now (Transcription isFinal text) sv = sv.
Proof.
  intros H. simpl. unfold handleVoiceTranscription.
  destruct isFinal; [|reflexivity]. simpl.
  destruct H as [H|[->|(t & -> & Ht)]]; [discriminate H|reflexivity|].
  simpl. fold (commandOf t). rewrite (allSpace_command t Ht). reflexivity.
Qed.

Lemma transcription_ignored_witness :
  step 0 (Transcription true (Some "   ")) (onSession 0 None) = onSession 0 None.
Proof.
  apply transcription_ignored. right. right. exists "   ". split; reflexivity.
Defined.

(** ** Walking through a project *)

Lemma anyIncludes_nonempty (command : string) (words : list string) :
  anyIncludes command words = true -> Forall (fun w => w <> "") words -> command <> "".
Proof.
  unfold anyIncludes. intros H Hw. apply existsb_exists in H as (w & Hin & Hinc).
  apply (includes_nonempty command w Hinc).
  rewrite List.Forall_forall in Hw. exact (Hw w Hin).
Qed.

Lemma advance_step (now : Z) (text : string) (sv : Server) (p : Project) :
  state (session sv) = building ->
  currentProject (session sv) = Some p ->
  anyIncludes (commandOf text) ["next"; "continue"; "forward"] = true ->
  step now (Transcription true (Some text)) sv = handleNextStep sv.
Proof.
  intros Hstate Hp Hadv. simpl.
  rewrite building_transcription; [|exact Hstate|].
  - fold (commandOf text). unfold processVoiceCommand. rewrite Hstate, Hp, Hadv. reflexivity.
  - apply (anyIncludes_nonempty _ _ Hadv). repeat constructor; discriminate.
Qed.

(** X23: in the building phase, [k] commands that ask for the next step,
    with at least [k] steps left after the current one, move the index
    forward by exactly [k], display the steps passed in order, and keep the
    project and the phase; one more such command at the last step completes
    the session. *)
Theorem walk_through (inputs : list (Z * Input)) (sv : Server) (p : Project)
    (Hstate : state (session sv) = building)
    (Hp : currentProject (session sv) = Some p)
    (Hadv : Forall isAdvance inputs)
    (Hroom : currentStep (session sv) + Z.of_nat (List.length inputs) < totalSteps p) :
  let sv' := run inputs sv in
  state (session sv') = building /\
  currentProject (session sv') = Some p /\
  currentStep (session sv') = currentStep (session sv) + Z.of_nat (List.length inputs) /\
  display sv' = (display sv ++ stepsShown p (currentStep (session sv))
                                  (List.length inputs))%list /\
  forall now text,
    anyIncludes (commandOf text) ["next"; "continue"; "forward"] = true ->
    currentStep (session sv') = totalSteps p - 1 ->
    state (session (step now (Transcription true (Some text)) sv')) = completed.
Proof.
  revert sv Hstate Hp Hroom. induction Hadv as [|[now i] inputs Hi _ IH];
    intros sv Hstate Hp Hroom.
  - cbn [run List.length stepsShown]. change (Z.of_nat 0) with 0.
    rewrite Z.add_0_r, app_nil_r. cbn zeta. repeat split; auto.
    intros now text Hnext Hlast.
    rewrite (advance_step now text sv p Hstate Hp Hnext).
    unfold handleNextStep. rewrite Hp.
    replace (currentStep (session sv) <? totalSteps p - 1) with false
      by (symmetry; apply Z.ltb_ge; lia).
    reflexivity.
  - unfold isAdvance in Hi. simpl in Hi.
    destruct i as [[] [text|]| | | | |]; try contradiction.
    cbn [run]. rewrite (advance_step now text sv p Hstate Hp Hi).
    cbn [List.length] in Hroom.
    assert (Hnext : handleNextStep sv
                    = show (withSession sv (setStep (session sv) (currentStep (session sv) + 1)))
                           (ShowStep p (currentStep (session sv) + 1))).
    { unfold handleNextStep. rewrite Hp.
      replace (currentStep (session sv) <? totalSteps p - 1) with true
        by (symmetry; apply Z.ltb_lt; lia).
      reflexivity. }
    rewrite Hnext.
    specialize (IH (show (withSession sv (setStep (session sv) (currentStep (session sv) + 1)))
                         (ShowStep p (currentStep (session sv) + 1)))).
    cbn [show withSession setStep session state currentProject currentStep display] in IH.
    specialize (IH Hstate Hp ltac:(lia)).
    destruct IH as (Hs & Hpr & Hidx & Hdisp & Hlast).
    cbn zeta. repeat split; auto.
    + rewrite Hidx. cbn [List.length]. lia.
    + rewrite Hdisp. cbn [stepsShown List.length]. rewrite <- app_assoc. reflexivity.
Qed.

Lemma walk_through_witness :
  currentStep (session (run [(1, Transcription true (Some "Next"));
                             (2, Transcription true (Some "continue please"))]
                            (run guidedSession (onSession 0 None)))) = 3.
Proof.
  refine (proj1 (proj2 (proj2 (walk_through _ (run guidedSession (onSession 0 None))
                                 widgetProject _ _ _ _)))).
  - reflexivity.
  - reflexivity.
  - repeat constructor.
  - vm_compute. reflexivity.
Defined.

(** X24: in the building phase, not at the last step, a command for the
    next step followed by a command for the previous one restores the
    session data; both steps have been displayed. *)
Theorem next_then_back (now now' : Z) (text text' : string) (sv : Server) (p : Project)
    (Hstate : state (session sv) = building)
    (Hp : currentProject (session sv) = Some p)
    (Hlow : 0 <= currentStep (session sv))
    (Hroom : currentStep (session sv) < totalSteps p - 1)
    (Hnext : anyIncludes (commandOf text) ["next"; "continue"; "forward"] = true)
    (Hnot : anyIncludes (commandOf text') ["next"; "continue"; "forward"] = false)
    (Hback : anyIncludes (commandOf text') ["back"; "previous"; "last"] = true) :
  let sv' := step now' (Transcription true (Some text'))
               (step now (Transcription true (Some text)) sv) in
  session sv' = session sv /\
  display sv' = (display sv ++ [ShowStep p (currentStep (session sv) + 1);
                                ShowStep p (currentStep (session sv))])%list.
Proof.
  rewrite (advance_step now text sv p Hstate Hp Hnext).
  unfold handleNextStep. rewrite Hp.
  replace (currentStep (session sv) <? totalSteps p - 1) with true
    by (symmetry; apply Z.ltb_lt; lia).
  set (sv1 := show _ _).
  assert (Hne : commandOf text' <> "")
    by (apply (anyIncludes_nonempty _ _ Hback); repeat constructor; discriminate).
  cbn zeta. simpl step.
  rewrite (building_transcription now' text' sv1 Hstate Hne). fold (commandOf text').
  unfold processVoiceCommand. subst sv1.
  cbn [show withSession setStep session state currentProject currentStep].
  rewrite Hstate, Hp, Hnot, Hback.
  unfold handlePreviousStep.
  cbn [show withSession setStep session state currentProject currentStep display].
  rewrite Hp.
  replace (currentStep (session sv) + 1 <=? 0) with false
    by (symmetry; apply Z.leb_gt; lia).
  cbn [show withSession setStep session state currentProject currentStep display
       startTime availableProjects stepsGenerated].
  replace (currentStep (session sv) + 1 - 1) with (currentStep (session sv)) by lia.
  split.
  - destruct (session sv); reflexivity.
  - rewrite <- app_assoc. reflexivity.
Qed.

Lemma next_then_back_witness :
  session (step 14000 (Transcription true (Some "Go back"))
             (step 13000 (Transcription true (Some "Next"))
                (run guidedSession (onSession 0 None))))
  = session (run guidedSession (onSession 0 None)).
Proof.
  refine (proj1 (next_then_back 13000 14000 "Next" "Go back"
                   (run guidedSession (onSession 0 None)) widgetProject _ _ _ _ _ _ _)).
  - reflexivity.
  - reflexivity.
  - vm_compute. discriminate.
  - vm_compute. reflexivity.
  - reflexivity.
  - reflexivity.
  - reflexivity.
Defined.

(** ** Tool calls *)

Lemma onToolCall_keeps (toolId : string) (sv : Server) :
  state (session (onToolCall toolId sv)) = state (session sv) /\
  CURRENT_BARCODE (onToolCall toolId sv) = CURRENT_BARCODE sv.
Proof.
  unfold onToolCall. repeat case_match; split; reflexivity.
Qed.

(** X25: a tool call changes nothing but the step index, and that by at
    most one: phase, project, available projects, display, pending work and
    the current barcode stay as they are.  At the last step the [next_step]
    tool changes nothing: unlike the voice command it never completes the
    session. *)
Theorem tool_call_moves_index_only (toolId : string) (sv : Server) :
  let sv' := onToolCall toolId sv in
  state (session sv') = state (session sv) /\
  currentProject (session sv') = currentProject (session sv) /\
  availableProjects (session sv') = availableProjects (session sv) /\
  stepsGenerated (session sv') = stepsGenerated (session sv) /\
  display sv' = display sv /\ pending sv' = pending sv /\
  CURRENT_BARCODE sv' = CURRENT_BARCODE sv /\
  -1 <= currentStep (session sv') - currentStep (session sv) <= 1 /\
  (forall p, currentProject (session sv) = Some p ->
             totalSteps p - 1 <= currentStep (session sv) ->
             toolId = "next_step" -> sv' = sv).
Proof.
  unfold onToolCall.
  destruct (String.eqb_spec toolId "next_step") as [->|Hn];
    [|destruct (String.eqb toolId "previous_step")].
  - destruct (currentProject (session sv)) as [p|] eqn:Hp.
    + destruct (currentStep (session sv) <? totalSteps p - 1) eqn:Hlt; simpl;
        repeat split; auto; try lia.
      * apply Z.ltb_lt in Hlt. intros p' [= <-] Hlast _. lia.
    + simpl. repeat split; auto; lia.
  - destruct (currentProject (session sv)) as [p|] eqn:Hp.
    + destruct (0 <? currentStep (session sv)); simpl; repeat split; auto; try lia;
        intros; congruence.
    + simpl. repeat split; auto; try lia.
  - simpl. repeat split; auto; lia.
Qed.

(** ** Choosing a project *)

Lemma selecting_transcription (now : Z) (text : string) (sv : Server) :
  state (session sv) = selecting ->
  commandOf text <> "" ->
  step now (Transcription true (Some text)) sv = processVoiceCommand now (commandOf text) sv.
Proof.
  intros Hstate Hne. simpl. unfold handleVoiceTranscription. simpl negb. cbv iota.
  change (JS.trim <$> (JS.toLowerCase <$> Some text)) with (Some (commandOf text)).
  rewrite (orNull_nonempty _ Hne), Hstate. reflexivity.
Qed.

Lemma shown_first_step (p : Project) : shown (ShowStep p 0) = true <-> steps p <> [].
Proof.
  unfold shown, stepAt. simpl. destruct (steps p) as [|s l]; simpl.
  - split; [intros H; discriminate H | congruence].
  - split; [discriminate | reflexivity].
Qed.

(** X26: in the selecting phase any command starts a project, whatever it
    says: the project filed under the current barcode if there is one, else
    the hosted dataset project [s3_product] if it is loaded.  The project
    starts at step 0 with a new start time, and [showInstructionStep] is
    called for its step 0: this shows the first step when the project has
    one; for a project without steps the call throws and shows nothing, the
    session staying started.  With neither project available the command
    changes nothing. *)
Theorem selection_prefers_barcode_project (now : Z) (text : string) (sv : Server)
    (Hstate : state (session sv) = selecting)
    (Hcommand : commandOf text <> "") :
  let sv' := step now (Transcription true (Some text)) sv in
  let started p :=
    state (session sv') = building /\ currentProject (session sv') = Some p /\
    currentStep (session sv') = 0 /\ startTime (session sv') = now /\
    display sv' = (display sv ++ [ShowStep p 0])%list /\
    (shown (ShowStep p 0) = true <-> steps p <> []) in
  (forall code p,
     CURRENT_BARCODE sv = Some code -> code <> "" ->
     availableProjects (session sv) !! ("barcode_" ++ code) = Some p ->
     started p) /\
  (forall p,
     (JS.truthy (CURRENT_BARCODE sv) = false \/
      availableProjects (session sv) !! ("barcode_" ++ JS.show (CURRENT_BARCODE sv)) = None) ->
     availableProjects (session sv) !! "s3_product" = Some p ->
     started p) /\
  ((JS.truthy (CURRENT_BARCODE sv) = false \/
    availableProjects (session sv) !! ("barcode_" ++ JS.show (CURRENT_BARCODE sv)) = None) ->
   availableProjects (session sv) !! "s3_product" = None ->
   sv' = sv).
Proof.
  cbn zeta. rewrite (selecting_transcription now text sv Hstate Hcommand).
  unfold processVoiceCommand, hasProject. rewrite Hstate.
  split; [|split].
  - intros code p Hcode Hne Hlook. rewrite Hcode.
    destruct code as [|c s]; [congruence|]. cbn [JS.truthy JS.show andb].
    rewrite bool_decide_eq_true_2 by (rewrite Hlook; eauto).
    unfold handleProjectSelection. rewrite Hlook. simpl.
    repeat split; auto; apply shown_first_step.
  - intros p Hno Hs3.
    assert (Hcond : JS.truthy (CURRENT_BARCODE sv) &&
                    bool_decide (is_Some (availableProjects (session sv)
                                   !! ("barcode_" ++ JS.show (CURRENT_BARCODE sv)))) = false).
    { destruct Hno as [->|Hno]; [reflexivity|]. rewrite Hno.
      rewrite bool_decide_eq_false_2 by (intros [? ?]; discriminate).
      apply andb_false_r. }
    rewrite Hcond. rewrite bool_decide_eq_true_2 by (rewrite Hs3; eauto).
    unfold handleProjectSelection. rewrite Hs3. simpl.
    repeat split; auto; apply shown_first_step.
  - intros Hno Hs3.
    assert (Hcond : JS.truthy (CURRENT_BARCODE sv) &&
                    bool_decide (is_Some (availableProjects (session sv)
                                   !! ("barcode_" ++ JS.show (CURRENT_BARCODE sv)))) = false).
    { destruct Hno as [->|Hno]; [reflexivity|]. rewrite Hno.
      rewrite bool_decide_eq_false_2 by (intros [? ?]; discriminate).
      apply andb_false_r. }
    rewrite Hcond. rewrite bool_decide_eq_false_2 by (rewrite Hs3; intros [? ?]; discriminate).
    reflexivity.
Qed.

Lemma selection_prefers_barcode_project_witness :
  state (session (step 18000 (Transcription true (Some "ok"))
                    (run finishedSession (onSession 0 None)))) = building.
Proof.
  refine (proj1 (proj1 (selection_prefers_barcode_project 18000 "ok"
                          (run finishedSession (onSession 0 None)) _ _)
                   "0123456789012" widgetProject _ _ _)).
  - reflexivity.
  - discriminate.
  - reflexivity.
  - discriminate.
  - vm_compute. reflexivity.
Defined.

(** ** Phase changes *)

Lemma phaseChange_processVoiceCommand now command sv :
  let s := state (session sv) in
  let s' := state (session (processVoiceCommand now command sv)) in
  s' = s \/ (s = selecting /\ s' = building) \/ (s = building /\ s' = completed) \/
  (s = completed /\ s' = selecting).
Proof.
  cbn zeta. unfold processVoiceCommand.
  destruct (state (session sv)) eqn:Hstate.
  - simpl. auto.
  - unfold handleProjectSelection. repeat case_match; simpl; auto.
  - unfold handleNextStep, handlePreviousStep.
    repeat case_match; simpl; rewrite ?Hstate; auto.
    all: right; right; left; auto.
  - unfold handleNewProject. case_match; simpl; auto 6.
Qed.

(** X27: the phase of a session changes only along selecting to building,
    building to completed and completed to selecting, except that a settled
    resolution with a project can start that project from any phase (and
    complete it at once through the replayed command).  No input leads back
    to the welcome phase. *)
Theorem phase_changes (now : Z) (i : Input) (sv : Server) :
  phaseChange i (state (session sv)) (state (session (step now i sv))).
Proof.
  destruct i as [isFinal text|k result|k result|toolId|s3Data|code]; simpl.
  - unfold handleVoiceTranscription.
    repeat case_match; auto; apply phaseChange_processVoiceCommand.
  - unfold afterBarcode, updateCurrentBarcode. repeat case_match; simpl; auto.
  - destruct result as [p|].
    + destruct (pending sv !! k) as [[|command|command code]|]; auto.
      pose proof (after_resolution_building now command p (resume sv k)) as [_ Hne].
      cbn zeta in Hne.
      destruct (state (session (afterResolution now command (Some p) (resume sv k)))) eqn:Hs;
        auto.
      * congruence.
      * exfalso. clear Hne. revert Hs. unfold afterResolution.
        set (sv1 := handleProjectSelection now (id p) _).
        assert (Hb : state (session sv1) = building).
        { subst sv1. unfold handleProjectSelection. simpl.
          rewrite lookup_insert_eq. reflexivity. }
        pose proof (phaseChange_processVoiceCommand now command sv1) as Hpc.
        cbn zeta in Hpc. rewrite Hb in Hpc. intros Hs. rewrite Hs in Hpc.
        destruct Hpc as [H|[[H _]|[[_ H]|[H _]]]]; discriminate H.
    + destruct (pending sv !! k) as [[|command|command code]|]; auto.
      unfold afterResolution. apply (phaseChange_processVoiceCommand now command (resume sv k)).
  - rewrite (proj1 (onToolCall_keeps toolId sv)). auto.
  - unfold loadS3Data. destruct s3Data; simpl; auto.
  - unfold updateCurrentBarcode. case_match; simpl; auto.
Qed.

(** ** A settled resolution *)

(** X28: when a resolution settles with a project, the project is filed
    under its id, made the current project with the current time as start
    time, and the resolution is no longer pending.  The command that
    triggered the resolution is then replayed in the building phase: a
    command without a navigation word leaves the session at step 0; a command
    for the next step moves a project of two or more steps to its second step
    and completes a project of at most one step. *)
Theorem resolution_starts_project (now : Z) (k : nat) (command code : string)
    (p : Project) (sv : Server)
    (Hk : pending sv !! k = Some (AwaitResolution command code)) :
  let sv' := step now (ResolutionSettled k (Some p)) sv in
  availableProjects (session sv') = <[id p := p]> (availableProjects (session sv)) /\
  currentProject (session sv') = Some p /\
  startTime (session sv') = now /\
  pending sv' = delete k (pending sv) /\
  (anyIncludes command ["next"; "continue"; "forward"; "back"; "previous"; "last";
                        "repeat"; "again"; "what"; "start over"; "restart"; "beginning"]
   = false ->
   state (session sv') = building /\ currentStep (session sv') = 0 /\
   display sv' = (display sv ++ [ShowStep p 0])%list) /\
  (anyIncludes command ["next"; "continue"; "forward"] = true ->
   (2 <= totalSteps p ->
    state (session sv') = building /\ currentStep (session sv') = 1 /\
    display sv' = (display sv ++ [ShowStep p 0; ShowStep p 1])%list) /\
   (totalSteps p <= 1 ->
    state (session sv') = completed /\ currentStep (session sv') = 0 /\
    display sv' = (display sv ++ [ShowStep p 0; ShowCompletion p])%list)).
Proof.
  cbn zeta. simpl step. rewrite Hk. unfold afterResolution.
  set (sv1 := handleProjectSelection now (id p) _).
  assert (Hsv1 : sv1 = show (withSession (resume sv k)
                   {| state := building; currentProject := Some p; currentStep := 0;
                      startTime := now;
                      availableProjects := <[id p := p]> (availableProjects (session sv));
                      stepsGenerated := true |}) (ShowStep p 0)).
  { subst sv1. unfold handleProjectSelection. simpl. rewrite lookup_insert_eq. reflexivity. }
  rewrite Hsv1. clear sv1 Hsv1.
  unfold processVoiceCommand.
  cbn [show withSession session state currentProject currentStep].
  unfold handleNextStep, handlePreviousStep.
  cbn [show withSession session state currentProject currentStep].
  unfold anyIncludes. cbn [existsb].
  split; [|split; [|split; [|split; [|split]]]].
  1-4: repeat case_match; reflexivity.
  - intros Hnone. rewrite !orb_false_iff in Hnone.
    destruct Hnone as (-> & -> & -> & -> & -> & -> & -> & -> & -> & -> & -> & -> & _).
    simpl. auto.
  - intros Hnext. rewrite Hnext. split.
    + intros Htwo. replace (0 <? totalSteps p - 1) with true
        by (symmetry; apply Z.ltb_lt; lia).
      simpl. rewrite <- app_assoc. auto.
    + intros Hone. replace (0 <? totalSteps p - 1) with false
        by (symmetry; apply Z.ltb_ge; lia).
      simpl. rewrite <- app_assoc. auto.
Qed.

Lemma resolution_starts_project_witness :
  currentProject
    (session (step 9000 (ResolutionSettled 0 (Some widgetProject))
                (run (take 3 guidedSession) (onSession 0 None))))
  = Some widgetProject.
Proof.
  refine (proj1 (proj2 (resolution_starts_project 9000 0 "start" "0123456789012" widgetProject
                          (run (take 3 guidedSession) (onSession 0 None)) _))).
  reflexivity.
Defined.

(** ** The current barcode *)

(** X29: once a current barcode is known, no input makes it absent or
    empty; an update with a non-empty barcode makes that barcode the current
    one. *)
Theorem barcode_never_lost (now : Z) (i : Input) (sv : Server)
    (Hknown : JS.truthy (CURRENT_BARCODE sv) = true) :
  JS.truthy (CURRENT_BARCODE (step now i sv)) = true /\
  (forall code, i = BarcodeUpdated (Some code) -> code <> "" ->
                CURRENT_BARCODE (step now i sv) = Some code).
Proof.
  assert (Hupd : forall result sv0, JS.truthy (CURRENT_BARCODE sv0) = true ->
                   JS.truthy (CURRENT_BARCODE (updateCurrentBarcode result sv0)) = true).
  { intros result sv0 H0. unfold updateCurrentBarcode.
    destruct (JS.truthy result) eqn:Hr; [|exact H0].
    case_match; [exact Hr | exact H0]. }
  assert (Hpvc : forall command sv0,
             CURRENT_BARCODE (processVoiceCommand now command sv0) = CURRENT_BARCODE sv0).
  { intros command sv0.
    unfold processVoiceCommand, handleProjectSelection, handleNextStep, handlePreviousStep,
      handleNewProject.
    repeat case_match; reflexivity. }
  split.
  - destruct i as [isFinal text|k result|k result|toolId|s3Data|code]; simpl.
    + unfold handleVoiceTranscription. repeat case_match; rewrite ?Hpvc; exact Hknown.
    + destruct (pending sv !! k) as [[|command|command code]|]; auto.
      * simpl. apply Hupd. exact Hknown.
      * unfold afterBarcode. cbn zeta.
        pose proof (Hupd result (resume sv k) Hknown) as Hu.
        destruct (CURRENT_BARCODE (updateCurrentBarcode result (resume sv k)))
          as [[|c s]|] eqn:Hcur; simpl; first [exact Hu | rewrite Hcur; exact Hu | reflexivity].
    + destruct (pending sv !! k) as [[|command|command code]|]; auto.
      unfold afterResolution. rewrite Hpvc.
      destruct result as [p|]; [|exact Hknown].
      unfold handleProjectSelection. case_match; exact Hknown.
    + rewrite (proj2 (onToolCall_keeps toolId sv)). exact Hknown.
    + unfold loadS3Data. destruct s3Data; exact Hknown.
    + apply Hupd, Hknown.
  - intros code -> Hne. simpl. unfold updateCurrentBarcode.
    destruct code as [|c s]; [congruence|]. simpl.
    case_match; [reflexivity|].
    match goal with H : negb (bool_decide _) = false |- _ =>
      apply negb_false_iff, bool_decide_eq_true in H; symmetry; exact H end.
Qed.

Lemma barcode_never_lost_witness :
  JS.truthy (CURRENT_BARCODE (step 13000 (BarcodeUpdated None)
                                (run guidedSession (onSession 0 None)))) = true.
Proof.
  refine (proj1 (barcode_never_lost 13000 (BarcodeUpdated None)
                   (run guidedSession (onSession 0 None)) _)).
  reflexivity.
Defined.
